(** * hyperflow-job-executor: a shallow embedding of [handler.js]

    The worker-side executor of one HyperFlow task ([handleJob]) is modelled
    as state-passing functions over an explicit Redis store, an explicit
    chronological event trace, and an explicit record of what the outside
    world answers (exit codes, random draws, file existence, notifier and
    store faults).  The numbers the handler computes with [*], [+] and
    [Math.floor] are IEEE 754 binary64 values, modelled by the standard
    library's [spec_float] with 53 bits of precision.  JavaScript promises are modelled by their settlement
    state; self-rescheduling timer chains ([setTimeout]) by fuelled loops
    together with lemmas giving the fuel that always suffices. *)

From Stdlib Require Import ZArith QArith Qpower List String Ascii Lia Lqa Permutation SpecFloat.
From stdpp Require Import base gmap strings list.

Local Open Scope Z_scope.
Local Open Scope string_scope.
Local Open Scope list_scope.

(** ** JavaScript values used by the handler *)

Module Js.

(** An error value as thrown or passed to a callback, identified by its
    code or message. *)
Definition Err := string.

(** Truthiness of a string: only the empty string is falsy. *)
Definition truthy (s : string) : bool :=
  match s with EmptyString => false | String _ _ => true end.

(** String concatenation with a possibly [undefined] operand. *)
Definition str (o : option string) : string :=
  match o with Some s => s | None => "undefined" end.

(** [s.split(c)] for a one-character separator. *)
Fixpoint split (c : ascii) (s : string) : list string :=
  match s with
  | EmptyString => [""]
  | String a r =>
      let rest := split c r in
      if Ascii.eqb a c then "" :: rest
      else match rest with
           | h :: t => String a h :: t
           | [] => [String a ""]
           end
  end.

(** [a || d] for an environment variable holding a decimal numeral:
    [None] stands for an unset (or empty) variable, [Some n] for the text
    of the numeral [n]; a non-empty string is truthy, so the text [0]
    does not select the default. *)
Definition or_default (a : option Z) (d : Z) : Z :=
  match a with Some n => n | None => d end.

(** Settlement state of a promise that resolves to a [T]. *)
Inductive Promise (T : Type) :=
| Pending
| Resolved (v : T)
| Rejected (e : Err).
Arguments Pending {T}.
Arguments Resolved {T} v.
Arguments Rejected {T} e.

End Js.

(** ** JavaScript numbers in arithmetic *)

Module Double.

(** IEEE 754 binary64: 53 bits of precision, exponents below 1024. *)
Definition prec : Z := 53.
Definition emax : Z := 1024.
Definition t : Type := spec_float.

(** [x * y] and [x + y], rounded to nearest, ties to even. *)
Definition mul : t -> t -> t := SFmul prec emax.
Definition add : t -> t -> t := SFadd prec emax.

(** The number an integer literal or an integer-valued variable holds. *)
Definition of_Z (n : Z) : t := binary_normalize prec emax n 0 false.

(** [Math.pow(2, n)] for an integer [n]. *)
Definition pow2 (n : Z) : t := SFldexp prec emax (of_Z 1) n.

(** [Math.floor(x)] *)
Definition floor (x : t) : t :=
  match x with
  | S754_finite s m e =>
      if Z.leb 0 e then x
      else binary_normalize prec emax (cond_Zopp s (Zpos m) / 2 ^ (- e)) 0 s
  | _ => x
  end.

(** A well-formed binary64 value: mantissa and exponent in canonical form. *)
Definition valid (x : t) : bool := valid_binary prec emax x.

(** The rational a finite number stands for. *)
Definition value (x : t) : option Q :=
  match x with
  | S754_zero _ => Some 0%Q
  | S754_finite s m e => Some (inject_Z (cond_Zopp s (Zpos m)) * 2 ^ e)%Q
  | _ => None
  end.

(** The integer a number is, if it is one. *)
Definition to_Z (x : t) : option Z :=
  match x with
  | S754_zero _ => Some 0
  | S754_finite s m e =>
      if Z.leb 0 e then Some (cond_Zopp s (Zpos m) * 2 ^ e)
      else if Z.eqb (Zpos m mod 2 ^ (- e)) 0
           then Some (cond_Zopp s (Zpos m) / 2 ^ (- e))
           else None
  | _ => None
  end.

End Double.

(** ** The Redis task store *)

Module Redis.

(** Three typed name spaces of one store: integer counters (string keys
    driven by INCR), sets and lists.  The head of a list is its left end. *)
Record Store := mkStore {
  counters : gmap string Z;
  sets : gmap string (gset string);
  lists : gmap string (list string)
}.

Definition empty : Store := mkStore ∅ ∅ ∅.

Definition smembers (key : string) (db : Store) : gset string :=
  default ∅ (sets db !! key).

Definition lrange (key : string) (db : Store) : list string :=
  default [] (lists db !! key).

(** INCR key *)
Definition incr (key : string) (db : Store) : Store * Z :=
  let n := default 0 (counters db !! key) + 1 in
  (mkStore (<[key := n]> (counters db)) (sets db) (lists db), n).

(** SADD key member *)
Definition sadd (key member : string) (db : Store) : Store :=
  mkStore (counters db) (<[key := {[member]} ∪ smembers key db]> (sets db)) (lists db).

(** SREM key member; a set left empty is removed with its key. *)
Definition srem (key member : string) (db : Store) : Store :=
  let s := smembers key db ∖ {[member]} in
  mkStore (counters db)
          (if decide (s = ∅) then delete key (sets db) else <[key := s]> (sets db))
          (lists db).

(** SISMEMBER key member *)
Definition sismember (key member : string) (db : Store) : bool :=
  bool_decide (member ∈ smembers key db).

Definition set_list (key : string) (l : list string) (db : Store) : Store :=
  mkStore (counters db) (sets db)
          (match l with [] => delete key (lists db) | _ => <[key := l]> (lists db) end).

(** RPOP key: removes and returns the tail element. *)
Definition rpop (key : string) (db : Store) : option (string * Store) :=
  match lrange key db with
  | [] => None
  | x :: l' => Some (List.last l' x, set_list key (List.removelast (x :: l')) db)
  end.

(** LPUSH key value: inserts at the head. *)
Definition lpush (key value : string) (db : Store) : Store :=
  set_list key (value :: lrange key db) db.

(** Reply of a blocking pop. *)
Inductive BReply :=
| BValue (v : string)   (* an element was moved *)
| BNil                  (* the timeout expired on an empty list *)
| BBlocked.             (* timeout 0 on an empty list: no reply *)

(** BRPOPLPUSH source destination timeout: pops the tail of [source] and
    pushes it at the head of [destination], as one step. *)
Definition brpoplpush (src dst : string) (timeout : Z) (db : Store) : Store * BReply :=
  match rpop src db with
  | Some (v, db') => (lpush dst v db', BValue v)
  | None => (db, if Z.eqb timeout 0 then BBlocked else BNil)
  end.

End Redis.

(** ** Observable events *)

Inductive Level := Info | Warn | Error.

(** Commands sent to the store through the client [rcl]. *)
Inductive RedisCall :=
| Sadd (key member : string)
| Incr (key : string)
| Sismember (key member : string)
| Brpoplpush (src dst : string) (timeout : Z)
| Srem (key member : string).

(** The three per-pid periodic samplers started by [logProcInfo]. *)
Inductive Kind := IO | NetDev | Usage.

(** Log and console messages, by content rather than by rendered text. *)
Inductive Msg :=
| MHandlerStarted
| MAcquiredBefore (times : Z)
| MUnexpectedRestart (taskId : string)
| MError (e : Js.Err)
| MJobMessage (payload : string)
| MWaitingForFiles (n : Z) (watching ready : list string)
| MFilesReady (n : Z) (watching ready : list string)
| MAllInputsReady
| MInputWaitError
| MJobCommand (executable : string) (args : list string)
| MJobStarted (name : string)
| MJobFailed (attempt : Z)
| MJobSuccessful (attempt : Z)
| MExitCode (code : Z)
| MRetrying (left : Z)
| MBackoffDelay (seconds : Double.t)
| MNotificationFailed (e : Js.Err)
| MJobInputs (sizes : list (string * Z))
| MJobOutputs (sizes : list (string * Z))
| MHandlerFinished (code : Z)
| MSample (k : Kind) (pid : Z) (data : string)
| MProcessGone (pid : Z)
| MPidusageError (e : Js.Err) (pid : Z).

Inductive Event :=
| EvRedis (c : RedisCall)
| EvLog (l : Level) (m : Msg)                    (* logger.info / warn / error *)
| EvConsole (m : Msg)                            (* console.log / console.error *)
| EvSpawn (executable : string) (args : list string)
| EvMonitor (attempt : Z)                        (* logProcInfo, addPidTree *)
| EvCreateWriteStream (path : string) (flags : string)
| EvNotify (taskId : string) (code : Z)          (* connector.notifyJobCompletion *)
| EvExistsSync (file : string)
| EvSetTimeout (ms : Double.t)                  (* setTimeout(f, ms) *)
| EvProbe (k : Kind) (pid : Z)                   (* one sample taken *)
| EvPushToGateway (key : string) (value : Z)
| EvNethogs (start : bool)
| EvLogShutdown
| EvPidusageClear.

Definition is_spawn (e : Event) : bool :=
  match e with EvSpawn _ _ => true | _ => false end.

Definition is_notify (e : Event) : bool :=
  match e with EvNotify _ _ => true | _ => false end.

Definition is_retrieval (e : Event) : bool :=
  match e with EvRedis (Brpoplpush _ _ _) => true | _ => false end.

Definition is_exists_check (e : Event) : bool :=
  match e with EvExistsSync _ => true | _ => false end.

Definition is_srem (e : Event) : bool :=
  match e with EvRedis (Srem _ _) => true | _ => false end.

Definition is_completion_check (e : Event) : bool :=
  match e with EvRedis (Sismember _ _) => true | _ => false end.

Definition is_store (e : Event) : bool :=
  match e with EvRedis _ => true | _ => false end.

Definition is_round (e : Event) : bool :=
  match e with EvLog Info (MWaitingForFiles _ _ _) => true | _ => false end.

Definition is_probe (e : Event) : bool :=
  match e with EvProbe _ _ => true | _ => false end.

Definition is_timer (e : Event) : bool :=
  match e with EvSetTimeout _ => true | _ => false end.

(** Number of events of a trace that satisfy a classifier. *)
Definition count (p : Event -> bool) (tr : list Event) : nat :=
  length (List.filter p tr).

(** Exit codes carried by the completion notifications of a trace, in order. *)
Definition notified (tr : list Event) : list Z :=
  omap (fun e => match e with EvNotify _ c => Some c | _ => None end) tr.

(** Files handed to [fs.existsSync] along a trace, in order. *)
Definition checked (tr : list Event) : list string :=
  omap (fun e => match e with EvExistsSync f => Some f | _ => None end) tr.

(** ** The job message *)

Record JobMessage := mkJob {
  name : string;
  executable : string;
  args : list string;
  stdout : option string;
  stdoutAppend : option string;
  stderr : option string;
  stderrAppend : option string;
  inputs : option (list string);     (* the [name] of each input, if declared *)
  outputs : option (list string)
}.

(** ** Configuration and outside world *)

Record Env := mkEnv {
  HF_VAR_NUMBER_OF_RETRIES : option Z;
  HF_VAR_BACKOFF_SEED : option Double.t;   (* the number its text converts to *)
  HF_VAR_WAIT_FOR_INPUT_FILES : option string;
  HF_VAR_FILE_WATCH_NUM_RETRIES : option Z;
  HF_VAR_ENABLE_NETHOGS : option string;
  HF_LOG_NODE_NAME : option string;
  HF_VAR_COLLOCATION_TYPE : option string;
  HF_VAR_COLLOCATION_SIZE : option string
}.

(** Answers of the collaborators during one run. *)
Record World := mkWorld {
  fault : RedisCall -> option Js.Err;       (* error passed to the command's callback *)
  exit_code : Z -> option Z;               (* code of the 'close' event of an attempt, if it closes *)
  random : Z -> Double.t;                  (* Math.random() drawn after an attempt *)
  notify : string -> Z -> option Js.Err;   (* rejection of notifyJobCompletion, if any *)
  existsSync : Z -> nat -> string -> bool; (* fs.existsSync in a given round, at a given index *)
  statSize : string -> option Z;           (* fs.statSync(file).size, if it does not throw *)
  JSON_parse : string -> option JobMessage (* None: a SyntaxError is thrown *)
}.

(** ** Backoff between attempts *)

Module Backoff.

(** [attempt > 5 ? 5 : attempt] *)
Definition factor (attempt : Z) : Z :=
  if Z.ltb 5 attempt then 5 else attempt.

(** [Math.floor(Math.random() * backoffSeed * factor)]: the two products
    are taken from left to right, each rounded to a double. *)
Definition backoffDelay (draw backoffSeed : Double.t) (attempt : Z) : Double.t :=
  Double.floor (Double.mul (Double.mul draw backoffSeed) (Double.of_Z (factor attempt))).

End Backoff.

(** ** Input readiness waiter: [waitForInputs] *)

Module Waiter.

(** A call of the promise's [resolve] or [reject]. *)
Inductive Settle := DoResolve | DoReject (e : Js.Err).

Record State := mkState {
  filesToWatch : list string;
  filesReady : list string;
  num_retries : Z;
  trace : list Event;
  settles : list Settle          (* calls of resolve / reject, in order *)
}.

(** A promise is settled by the first call of [resolve] or [reject]. *)
Definition promise (s : State) : Js.Promise unit :=
  match settles s with
  | [] => Js.Pending
  | DoResolve :: _ => Js.Resolved tt
  | DoReject e :: _ => Js.Rejected e
  end.

(** The [forEach((file, i) => ...)] over [filesToWatch], from index [i]
    on: every entry is existence-checked by a call of its own; an entry
    found is pushed to [filesReady] and its slot deleted, which leaves a
    hole.  Returns the slots, the files found and the checks. *)
Fixpoint forEach (exists_now : nat -> string -> bool) (i : nat) (l : list string)
  : list (option string) * list string * list Event :=
  match l with
  | [] => ([], [], [])
  | file :: rest =>
      let '(slots, found, evs) := forEach exists_now (S i) rest in
      if exists_now i file
      then (None :: slots, file :: found, EvExistsSync file :: evs)
      else (Some file :: slots, found, EvExistsSync file :: evs)
  end.

(** [filesToWatch.filter(f => { return f; })]: skips the holes and drops
    every falsy entry. *)
Definition compact (slots : list (option string)) : list string :=
  omap (fun o => match o with
                 | Some f => if Js.truthy f then Some f else None
                 | None => None
                 end) slots.

(** The entries that survive a round: not found, and truthy. *)
Definition still_missing (ex : nat -> string -> bool) (i : nat) (f : string) : bool :=
  negb (ex i f) && Js.truthy f.

(** The entries of a list, whose first entry has index [i], that satisfy
    a predicate on index and entry. *)
Fixpoint ifilter (p : nat -> string -> bool) (i : nat) (l : list string) : list string :=
  match l with
  | [] => []
  | f :: rest => if p i f then f :: ifilter p (S i) rest else ifilter p (S i) rest
  end.

(** [Math.pow(2, num_retries) + 1000] *)
Definition delay (num_retries : Z) : Double.t :=
  Double.add (Double.pow2 num_retries) (Double.of_Z 1000).

(** One call of [checkFiles]; the boolean tells whether the call re-armed
    itself through [setTimeout]. *)
Definition checkFiles (w : World) (max_retries : Z) (s : State) : State * bool :=
  if Z.ltb max_retries (num_retries s) then
    (mkState (filesToWatch s) (filesReady s) (num_retries s)
             (trace s ++ [EvLog Info MInputWaitError])
             (settles s ++ [DoReject "Error waiting for input files"]),
     false)
  else
    let n := num_retries s in
    let '(slots, found, checks) := forEach (existsSync w n) 0 (filesToWatch s) in
    let ready' := filesReady s ++ found in
    let watch' := compact slots in
    let tr := trace s
              ++ [EvLog Info (MWaitingForFiles n (filesToWatch s) (filesReady s))]
              ++ checks
              ++ match found with
                 | [] => []
                 | _ => [EvLog Info (MFilesReady (n + 1) watch' ready')]
                 end in
    match watch' with
    | [] => (mkState watch' ready' (n + 1) (tr ++ [EvLog Info MAllInputsReady])
                     (settles s ++ [DoResolve]), false)
    | _ => (mkState watch' ready' (n + 1) (tr ++ [EvSetTimeout (delay (n + 1))])
                    (settles s), true)
    end.

(** The timer chain of [checkFiles] calls. *)
Fixpoint run (w : World) (max_retries : Z) (fuel : nat) (s : State) : option State :=
  match fuel with
  | O => None
  | S k =>
      let '(s', again) := checkFiles w max_retries s in
      if again then run w max_retries k s' else Some s'
  end.

Definition init (files : list string) : State := mkState files [] 0 [] [].

Definition fuel_for (max_retries : Z) : nat := S (Z.to_nat (max_retries + 1)).

Definition waitForInputs (w : World) (files : list string) (max_retries : Z) : option State :=
  run w max_retries (fuel_for max_retries) (init files).

End Waiter.

(** ** Process tree monitor: the per-pid sampling loops of [logProcInfo] *)

Module Monitor.

(** What a telemetry call reports: procfs throws a [ProcfsError] whose
    code is [ERR_NOT_FOUND] or something else; pidusage passes an error
    to its callback. *)
Inductive SampleError := NotFound | Other (code : Js.Err).

Inductive Sample := SampleOk (data : string) | SampleErr (e : SampleError).

Definition error_code (e : SampleError) : Js.Err :=
  match e with NotFound => "ERR_NOT_FOUND" | Other c => c end.

Section Loops.
Variable probeInterval : Z.
Variable pid : Z.

(** One call of [logProcIO(pid)]. *)
Definition logProcIO (r : Sample) : list Event * bool :=
  match r with
  | SampleOk d =>
      ([EvProbe IO pid; EvLog Info (MSample IO pid d); EvPushToGateway "IO" 25;
        EvSetTimeout (Double.of_Z probeInterval)], true)
  | SampleErr NotFound => ([EvProbe IO pid; EvConsole (MProcessGone pid)], false)
  | SampleErr (Other _) => ([EvProbe IO pid], false)
  end.

(** One call of [logProcNetDev(pid)]. *)
Definition logProcNetDev (r : Sample) : list Event * bool :=
  match r with
  | SampleOk d =>
      ([EvProbe NetDev pid; EvLog Info (MSample NetDev pid d);
        EvSetTimeout (Double.of_Z probeInterval)], true)
  | SampleErr _ => ([EvProbe NetDev pid], false)
  end.

(** One call of [logPidUsage(pid)]. *)
Definition logPidUsage (r : Sample) : list Event * bool :=
  match r with
  | SampleOk d =>
      ([EvProbe Usage pid; EvLog Info (MSample Usage pid d);
        EvSetTimeout (Double.of_Z probeInterval)], true)
  | SampleErr e => ([EvProbe Usage pid; EvConsole (MPidusageError (error_code e) pid)], false)
  end.

Definition tick (k : Kind) : Sample -> list Event * bool :=
  match k with IO => logProcIO | NetDev => logProcNetDev | Usage => logPidUsage end.

(** The timer chain of one sampler, observed for at most [ticks] calls;
    [samples n] is what the [n]-th call gets from the provider. *)
Fixpoint sampler (k : Kind) (samples : nat -> Sample) (n ticks : nat) : list Event :=
  match ticks with
  | O => []
  | S t =>
      let '(evs, again) := tick k (samples n) in
      evs ++ (if again then sampler k samples (S n) t else [])
  end.

End Loops.

End Monitor.

(** ** The task-handling run: [handleJob] *)

Module Handler.

(** Mutable state of one run: the store, the closure variable
    [numRetries], the events so far, and the rejections of promises that
    nobody awaits (errors thrown inside the asynchronous 'close'
    listener). *)
Record State := mkState {
  db : Redis.Store;
  numRetries : Z;
  trace : list Event;
  unhandled : list Js.Err
}.

Definition emit (evs : list Event) (s : State) : State :=
  mkState (db s) (numRetries s) (trace s ++ evs) (unhandled s).

Definition set_db (d : Redis.Store) (s : State) : State :=
  mkState d (numRetries s) (trace s) (unhandled s).

Definition set_numRetries (n : Z) (s : State) : State :=
  mkState (db s) n (trace s) (unhandled s).

Definition throw_unhandled (e : Js.Err) (s : State) : State :=
  mkState (db s) (numRetries s) (trace s) (unhandled s ++ [e]).

(** [await p] inside an asynchronous function whose own promise is the
    result: a rejection of [p] rejects it, and a [p] that is never settled
    leaves it pending. *)
Definition await {A R : Type} (s : State) (p : Js.Promise A)
    (k : A -> option (State * Js.Promise R)) : option (State * Js.Promise R) :=
  match p with
  | Js.Resolved v => k v
  | Js.Rejected e => Some (s, Js.Rejected e)
  | Js.Pending => Some (s, Js.Pending)
  end.

(** [a || b] on optional strings. *)
Definition or_else (a b : option string) : option string :=
  match a with
  | Some x => if Js.truthy x then a else b
  | None => b
  end.

Definition is_set (a : option string) : bool :=
  match a with Some x => Js.truthy x | None => false end.

Section Run.
Variable env : Env.
Variable w : World.
Variable taskId : string.

(** [taskId.split(':')[1]] *)
Definition wfId : option string := Js.split ":" taskId !! 1%nat.

Definition allJobsMember : string :=
  taskId +:+ "#" +:+ Js.str (HF_LOG_NODE_NAME env) +:+ "#" +:+
  Js.str (HF_VAR_COLLOCATION_TYPE env) +:+ "#" +:+ Js.str (HF_VAR_COLLOCATION_SIZE env).

Definition acqCountKey : string := taskId +:+ "_acqCount".
Definition jobMsgKey : string := taskId +:+ "_msg".
Definition completedTasksKey : string := "wf:" +:+ Js.str wfId +:+ ":completedTasks".

(** [process.env.HF_VAR_BACKOFF_SEED || 10]: a set variable is a non-empty
    string, hence truthy whatever number it converts to. *)
Definition backoffSeed : Double.t :=
  match HF_VAR_BACKOFF_SEED env with Some x => x | None => Double.of_Z 10 end.

(** [rcl.sadd("hf_all_jobs", allJobsMember, cb)]: fire and forget, the
    callback only prints an error. *)
Definition addToAllJobs (s : State) : State :=
  let c := Sadd "hf_all_jobs" allJobsMember in
  match fault w c with
  | Some e => emit [EvRedis c; EvConsole (MError e)] s
  | None => set_db (Redis.sadd "hf_all_jobs" allJobsMember (db s)) (emit [EvRedis c] s)
  end.

(** [rcl.srem("hf_all_jobs", allJobsMember, cb)] *)
Definition removeFromAllJobs (s : State) : State :=
  let c := Srem "hf_all_jobs" allJobsMember in
  match fault w c with
  | Some e => emit [EvRedis c; EvConsole (MError e)] s
  | None => set_db (Redis.srem "hf_all_jobs" allJobsMember (db s)) (emit [EvRedis c] s)
  end.

Definition acquireTask (s : State) : State * Js.Promise Z :=
  let c := Incr acqCountKey in
  let s := emit [EvRedis c] s in
  match fault w c with
  | Some e => (s, Js.Rejected e)
  | None => let '(d, reply) := Redis.incr acqCountKey (db s) in
            (set_db d s, Js.Resolved reply)
  end.

Definition hasCompleted (s : State) : State * Js.Promise bool :=
  let c := Sismember completedTasksKey taskId in
  let s := emit [EvRedis c] s in
  match fault w c with
  | Some e => (s, Js.Rejected e)
  | None => (s, Js.Resolved (Redis.sismember completedTasksKey taskId (db s)))
  end.

(** Resolves to the message, or to [null] ([None]) after a timeout. *)
Definition getJobMessage (timeout : Z) (s : State) : State * Js.Promise (option string) :=
  let c := Brpoplpush jobMsgKey jobMsgKey timeout in
  let s := emit [EvRedis c] s in
  match fault w c with
  | Some e => (s, Js.Rejected e)
  | None =>
      match Redis.brpoplpush jobMsgKey jobMsgKey timeout (db s) with
      | (d, Redis.BValue v) => (set_db d s, Js.Resolved (Some v))
      | (d, Redis.BNil) => (set_db d s, Js.Resolved None)
      | (d, Redis.BBlocked) => (set_db d s, Js.Pending)
      end
  end.

(** [getFileSizeObj] *)
Definition getFileSizeObj (file : string) : string * Z :=
  (file, default (-1) (statSize w file)).

(** The redirect of one output stream of the child to a file. *)
Definition redirect (truncating appending : option string) : list Event :=
  match or_else truncating appending with
  | Some f => if Js.truthy f
              then [EvCreateWriteStream f (if is_set truncating then "w" else "a")]
              else []
  | None => []
  end.

(** [executeJob(jm, attempt)].  The result is the state of the promise
    made by this very call: it is settled only by the [resolve(code)] of
    this call's own 'close' listener.  A retry calls [executeJob] again
    from a timer and drops the promise of that call; an error thrown in
    the listener rejects the listener's promise, not this one. *)
Fixpoint executeJob (fuel : nat) (jm : JobMessage) (attempt : Z) (s : State)
  : option (State * Js.Promise Z) :=
  match fuel with
  | O => None
  | S fuel' =>
      let s := set_numRetries (numRetries s - 1) s in
      let s := emit ([EvSpawn (executable jm) (args jm); EvMonitor attempt;
                      EvLog Info (MJobStarted (name jm))]
                     ++ redirect (stdout jm) (stdoutAppend jm)
                     ++ redirect (stderr jm) (stderrAppend jm)) s in
      match exit_code w attempt with
      | None => Some (s, Js.Pending)
      | Some code =>
          let s := emit [EvLog Info (if negb (Z.eqb code 0)
                                     then MJobFailed attempt
                                     else MJobSuccessful attempt);
                         EvLog Info (MExitCode code)] s in
          if negb (Z.eqb code 0) && Z.ltb 0 (numRetries s) then
            let backoffDelay := Backoff.backoffDelay (random w attempt) backoffSeed attempt in
            let s := emit [EvLog Info (MRetrying (numRetries s));
                           EvLog Info (MBackoffDelay backoffDelay);
                           EvSetTimeout (Double.mul backoffDelay (Double.of_Z 1000))] s in
            match executeJob fuel' jm (attempt + 1) s with
            | None => None
            | Some (s', _) => Some (s', Js.Pending)
            end
          else
            let s := emit [EvNotify taskId code] s in
            match notify w taskId code with
            | Some err =>
                Some (throw_unhandled err
                        (emit [EvConsole (MNotificationFailed err);
                               EvLog Error (MNotificationFailed err)] s),
                      Js.Pending)
            | None =>
                match inputs jm, outputs jm with
                | Some inputFiles, Some outputFiles =>
                    let s := emit [EvLog Info (MJobInputs (map getFileSizeObj inputFiles));
                                   EvLog Info (MJobOutputs (map getFileSizeObj outputFiles))] s in
                    let s := removeFromAllJobs s in
                    Some (emit [EvLog Info (MHandlerFinished code)] s, Js.Resolved code)
                | _, _ => Some (throw_unhandled "TypeError" s, Js.Pending)
                end
            end
      end
  end.

(** Enough fuel for the retries [numRetries] still allows. *)
Definition fuel_for (s : State) : nat := S (Z.to_nat (numRetries s)).

(** Step 3 of [handleJob]: the optional wait for the input files. *)
Definition awaitInputs (jm : JobMessage) (s : State) : option (State * Js.Promise unit) :=
  match HF_VAR_WAIT_FOR_INPUT_FILES env, inputs jm with
  | Some "1", Some (f :: fs) =>
      match Waiter.waitForInputs w (f :: fs)
              (Js.or_default (HF_VAR_FILE_WATCH_NUM_RETRIES env) 10) with
      | None => None
      | Some ws => Some (emit (Waiter.trace ws) s, Waiter.promise ws)
      end
  | _, _ => Some (s, Js.Resolved tt)
  end.

Definition enableNethogs : bool :=
  match HF_VAR_ENABLE_NETHOGS env with Some "1" => true | _ => false end.

(** Steps 3 to 6 of [handleJob], for the parsed job message. *)
Definition runJob (jm : JobMessage) (s : State) : option (State * Js.Promise (option Z)) :=
  (* 3. Check/wait for input files *)
  match awaitInputs jm s with
  | None => None
  | Some (s, ready) =>
  await s ready (fun _ =>
  (* 4. turn on network IO monitoring using nethogs *)
  let s := if enableNethogs then emit [EvNethogs true] s else s in
  (* 5. Execute job *)
  let s := emit [EvLog Info (MJobCommand (executable jm) (args jm))] s in
  match executeJob (fuel_for s) jm 1 s with
  | None => None
  | Some (s, job) =>
  await s job (fun jobExitCode =>
  (* 6. Perform cleanup operations *)
  let s := if enableNethogs then emit [EvNethogs false] s else s in
  Some (emit [EvLogShutdown; EvPidusageClear] s, Js.Resolved (Some jobExitCode)))
  end)
  end.

(** Step 2 of [handleJob] and what follows it. *)
Definition retrieveAndRun (s : State) : option (State * Js.Promise (option Z)) :=
  (* 2. Get job message *)
  let '(s, msg) := getJobMessage 0 s in
  let s := match msg with
           | Js.Rejected err => emit [EvConsole (MError err); EvLog Error (MError err)] s
           | _ => s
           end in
  await s msg (fun jobMessage =>
  let s := emit [EvLog Info (MJobMessage (Js.str jobMessage));
                 EvConsole (MJobMessage (Js.str jobMessage))] s in
  match jobMessage with
  | None => Some (s, Js.Rejected "TypeError")
  | Some text =>
      match JSON_parse w text with
      | None => Some (s, Js.Rejected "SyntaxError")
      | Some jm => runJob jm s
      end
  end).

(** The warning of step 0. *)
Definition warnIfAcquired (totalAcq : Z) (s : State) : State :=
  if Z.ltb 1 totalAcq
  then emit [EvLog Warn (MAcquiredBefore (totalAcq - 1))] s
  else s.

(** [handleJob(taskId, rcl)] on a store [d]; the promise is the one the
    caller of [handleJob] holds. *)
Definition handleJob (d : Redis.Store) : option (State * Js.Promise (option Z)) :=
  let s := mkState d (Js.or_default (HF_VAR_NUMBER_OF_RETRIES env) 1) [] [] in
  let s := addToAllJobs s in
  let s := emit [EvLog Info MHandlerStarted] s in
  (* 0. Detect multiple task acquisitions *)
  let '(s, acq) := acquireTask s in
  await s acq (fun totalAcq =>
  let s := warnIfAcquired totalAcq s in
  (* 1. Check if this job has already been completed *)
  let '(s, completed) := hasCompleted s in
  await s completed (fun jobHasCompleted =>
  if jobHasCompleted : bool then
    Some (emit [EvLog Warn (MUnexpectedRestart taskId); EvLogShutdown] s, Js.Resolved None)
  else retrieveAndRun s)).

End Run.

End Handler.

(** ** Concrete scenarios *)

Module Scenario.

Definition task : string := "task:wf1:0".

(** [{executable: "false", args: [], inputs: [], outputs: []}] *)
Definition job_false : JobMessage :=
  mkJob "job" "false" [] None None None None (Some []) (Some []).

(** The draw 0.5. *)
Definition half : Double.t := S754_finite false 4503599627370496 (-53).

Definition env_retries (r : option Z) : Env :=
  mkEnv r None None None None None None None.

(** A world without faults in which every attempt exits with [code] and
    no file ever exists. *)
Definition world_exiting (code : Z) : World :=
  mkWorld (fun _ => None) (fun _ => Some code) (fun _ => half)
          (fun _ _ => None) (fun _ _ _ => false) (fun _ => None)
          (fun _ => Some job_false).

(** The same world with a notifier that rejects. *)
Definition world_notifier_down (code : Z) : World :=
  mkWorld (fun _ => None) (fun _ => Some code) (fun _ => half)
          (fun _ _ => Some "ECONNRESET") (fun _ _ _ => false) (fun _ => None)
          (fun _ => Some job_false).

(** The same world with a store that fails the counter increment. *)
Definition world_incr_down : World :=
  mkWorld (fun c => match c with Incr _ => Some "ECONNREFUSED" | _ => None end)
          (fun _ => Some 0) (fun _ => half)
          (fun _ _ => None) (fun _ _ _ => false) (fun _ => None)
          (fun _ => Some job_false).

(** A world without faults in which exactly the file [a.dat] exists, from
    the first round on. *)
Definition world_with_a : World :=
  mkWorld (fun _ => None) (fun _ => Some 0) (fun _ => half)
          (fun _ _ => None) (fun _ _ f => String.eqb f "a.dat") (fun _ => None)
          (fun _ => Some job_false).

(** A world whose store fails the retrieval of the job message. *)
Definition world_retrieval_down : World :=
  mkWorld (fun c => match c with Brpoplpush _ _ _ => Some "ECONNRESET" | _ => None end)
          (fun _ => Some 0) (fun _ => half)
          (fun _ _ => None) (fun _ _ _ => false) (fun _ => None)
          (fun _ => Some job_false).

(** A descriptor with one declared input, run with the input wait enabled
    and a budget of two retries, in a world where no file ever exists. *)
Definition job_with_input : JobMessage :=
  mkJob "job" "true" [] None None None None (Some ["in.dat"]) (Some []).

Definition env_waiting : Env :=
  mkEnv None None (Some "1") (Some 2) None None None None.

Definition world_without_files : World :=
  mkWorld (fun _ => None) (fun _ => Some 0) (fun _ => half)
          (fun _ _ => None) (fun _ _ _ => false) (fun _ => None)
          (fun _ => Some job_with_input).

(** A store holding one job message for [task]. *)
Definition store_one : Redis.Store :=
  Redis.lpush "task:wf1:0_msg" "{}" Redis.empty.

(** A store whose queue for [task] holds two messages. *)
Definition store_two : Redis.Store :=
  Redis.lpush "task:wf1:0_msg" "first" (Redis.lpush "task:wf1:0_msg" "second" Redis.empty).

(** A store in which [task] is already marked completed. *)
Definition store_completed : Redis.Store :=
  Redis.sadd "wf:wf1:completedTasks" "task:wf1:0" store_one.

Definition start (d : Redis.Store) : Handler.State := Handler.mkState d 1 [] [].

End Scenario.

(** ** Discovery of the process tree: [addPidTree] *)

Module Discovery.

(** The object [allpids] and the pids handed to [logProcInfo] by the
    discovery loop, in order. *)
Record State := mkState {
  allpids : gmap Z string;
  logged : list Z
}.

(** [!allpids[p]] is false exactly for a key holding a truthy value. *)
Definition seen (st : State) (p : Z) : bool :=
  match allpids st !! p with
  | Some v => Js.truthy v
  | None => false
  end.

(** The body of [pids.map(p => ...)]. *)
Definition visit (st : State) (p : Z) : State :=
  if seen st p then st
  else mkState (<[p := "ok"]> (allpids st)) (logged st ++ [p]).

(** One call of [addPidTree]; [listing] is the second argument of the
    [pidtree] callback, [None] when it is undefined.  The boolean tells
    whether the call re-armed itself. *)
Definition addPidTree (listing : option (list Z)) (st : State) : State * bool :=
  match listing with
  | None => (st, false)
  | Some pids => (fold_left visit pids st, true)
  end.

(** The timer chain of [addPidTree], observed for at most [ticks] calls;
    [listings n] is what the [n]-th call gets from [pidtree]. *)
Fixpoint discover (listings : nat -> option (list Z)) (n ticks : nat) (st : State) : State :=
  match ticks with
  | O => st
  | S t =>
      let '(st', again) := addPidTree (listings n) st in
      if again then discover listings (S n) t st' else st'
  end.

(** The state at the first call: [var allpids = {}]. *)
Definition init : State := mkState ∅ [].

(** The pids marked in [allpids] are the pids handed to [logProcInfo], each
    of them once. *)
Definition consistent (st : State) : Prop :=
  List.NoDup (logged st) /\ forall p, seen st p = true <-> In p (logged st).

End Discovery.

(** ** Names of the per-task log files *)

Module LogFiles.

(** [s.replace(/:/g, '__')] *)
Fixpoint replaceColons (s : string) : string :=
  match s with
  | EmptyString => EmptyString
  | String a r =>
      if Ascii.eqb a ":" then String "_" (String "_" (replaceColons r))
      else String a (replaceColons r)
  end.

(** [logDir + '/task-' + taskId.replace(/:/g, '__') + '@' + handlerId] *)
Definition stem (logDir taskId handlerId : string) : string :=
  logDir +:+ "/task-" +:+ replaceColons taskId +:+ "@" +:+ handlerId.

Definition logfilename (logDir taskId handlerId : string) : string :=
  stem logDir taskId handlerId +:+ ".log".

Definition stdoutfilename (logDir taskId handlerId : string) : string :=
  stem logDir taskId handlerId +:+ "__stdout.log".

Definition stderrfilename (logDir taskId handlerId : string) : string :=
  stem logDir taskId handlerId +:+ "__stderr.log".

Definition nethogsfilename (logDir taskId handlerId : string) : string :=
  stem logDir taskId handlerId +:+ "__nethogs.log".

(** [process.env.HF_VAR_LOG_DIR || (workDir + "/logs-hf")] *)
Definition logDir (HF_VAR_LOG_DIR : option string) (workDir : string) : string :=
  match HF_VAR_LOG_DIR with
  | Some dir => if Js.truthy dir then dir else workDir +:+ "/logs-hf"
  | None => workDir +:+ "/logs-hf"
  end.

(** Whether a character occurs in a string. *)
Fixpoint occurs (c : ascii) (s : string) : bool :=
  match s with
  | EmptyString => false
  | String a r => Ascii.eqb a c || occurs c r
  end.

End LogFiles.

(** Timer delays of a trace, in order. *)
Definition timers (tr : list Event) : list Double.t :=
  omap (fun e => match e with EvSetTimeout ms => Some ms | _ => None end) tr.

(** ** Further concrete scenarios *)

(** The openings of [path] with the given [flags] by [fs.createWriteStream]. *)
Definition opens (path flags : string) (e : Event) : bool :=
  match e with
  | EvCreateWriteStream f fl => String.eqb f path && String.eqb fl flags
  | _ => false
  end.

Module Cases.

(** The double nearest to 0.7. *)
Definition draw_07 : Double.t := S754_finite false 6305039478318694 (-53).

(** A world without faults in which [a.dat] appears during the first
    round, after the check of the entry at index 0. *)
Definition world_appearing : World :=
  mkWorld (fun _ => None) (fun _ => Some 0) (fun _ => Scenario.half)
          (fun _ _ => None)
          (fun n i f => String.eqb f "a.dat" && (Z.ltb 0 n || Nat.leb 1 i))
          (fun _ => None) (fun _ => Some Scenario.job_with_input).

(** A world without faults whose command fails on attempts 1 and 2 and
    exits with 0 from attempt 3 on. *)
Definition world_flaky : World :=
  mkWorld (fun _ => None) (fun a => if Z.ltb a 3 then Some 1 else Some 0)
          (fun _ => Scenario.half) (fun _ _ => None) (fun _ _ _ => false) (fun _ => None)
          (fun _ => Some Scenario.job_false).

(** A descriptor that declares neither inputs nor outputs. *)
Definition job_bare : JobMessage :=
  mkJob "job" "true" [] None None None None None None.

(** A state of the run with a given [numRetries]. *)
Definition start (d : Redis.Store) (retries : Z) : Handler.State :=
  Handler.mkState d retries [] [].

(** A world without faults in which [in.dat] exists from round 2 on and
    [out.dat] never. *)
Definition world_late_file : World :=
  mkWorld (fun _ => None) (fun _ => Some 0) (fun _ => Scenario.half)
          (fun _ _ => None)
          (fun n _ f => Z.leb 2 n && String.eqb f "in.dat") (fun _ => None)
          (fun _ => Some Scenario.job_with_input).

(** A descriptor that truncates [out.txt] for standard output and appends
    standard error to [err.txt]. *)
Definition job_redirected : JobMessage :=
  mkJob "job" "false" [] (Some "out.txt") None None (Some "err.txt") (Some []) (Some []).

End Cases.

(** * Properties *)

(** ** Counting events *)

Lemma count_app p (a b : list Event) : count p (a ++ b) = (count p a + count p b)%nat.
Proof. unfold count. by rewrite List.filter_app, length_app. Qed.

Lemma count_nil p : count p [] = 0%nat.
Proof. reflexivity. Qed.

Lemma count_cons p e (l : list Event) :
  count p (e :: l) = ((if p e then 1 else 0) + count p l)%nat.
Proof. unfold count. simpl. by destruct (p e). Qed.

Lemma notified_app (a b : list Event) : notified (a ++ b) = notified a ++ notified b.
Proof. unfold notified. apply omap_app. Qed.

(** ** Rounding of doubles *)

(** Turns the local definitions of rationals into atoms for [lra] and [nra]. *)
Ltac qatoms := repeat match goal with x := _ : Q |- _ => clearbody x end.

Section Rounding.

Lemma digits2_bounds (m : positive) :
  2 ^ (Zpos (digits2_pos m) - 1) <= Zpos m < 2 ^ Zpos (digits2_pos m).
Proof.
  induction m as [m IH|m IH|]; simpl digits2_pos; rewrite ?Pos2Z.inj_succ.
  - replace (Z.succ (Zpos (digits2_pos m)) - 1) with (Z.succ (Zpos (digits2_pos m) - 1)) by lia.
    rewrite !Z.pow_succ_r by lia. lia.
  - replace (Z.succ (Zpos (digits2_pos m)) - 1) with (Z.succ (Zpos (digits2_pos m) - 1)) by lia.
    rewrite !Z.pow_succ_r by lia. lia.
  - simpl. lia.
Qed.

Lemma iter_pos_nat {A : Type} (f : A -> A) (p : positive) (x : A) :
  SpecFloat.iter_pos f p x = Nat.iter (Pos.to_nat p) f x.
Proof.
  revert x. induction p as [p IH|p IH|]; intros x; simpl SpecFloat.iter_pos.
  - rewrite !IH, Pos2Nat.inj_xI. simpl Nat.mul. rewrite Nat.add_0_r.
    rewrite Nat.iter_succ_r, Nat.iter_add. reflexivity.
  - rewrite !IH, Pos2Nat.inj_xO. simpl Nat.mul. rewrite Nat.add_0_r.
    rewrite Nat.iter_add. reflexivity.
  - reflexivity.
Qed.

Lemma shr_1_nonneg (m : Z) (r s : bool) :
  0 <= m ->
  shr_1 (Build_shr_record m r s) = Build_shr_record (Z.div2 m) (Z.odd m) (r || s).
Proof.
  intros Hm. destruct m as [|[p|p|]|p]; try reflexivity; lia.
Qed.

(** After [k] one-bit shifts of [M]: the quotient, and the round and sticky
    bits that locate the remainder with respect to half of [2^k]. *)
Lemma shr_iter (M : Z) (k : nat) :
  0 <= M ->
  let rec := Nat.iter k shr_1 (Build_shr_record M false false) in
  shr_m rec = M / 2 ^ Z.of_nat k /\
  exists t, 2 * (M mod 2 ^ Z.of_nat k)
            = (if shr_r rec then 2 ^ Z.of_nat k else 0) + t /\
            0 <= t < 2 ^ Z.of_nat k /\ (shr_s rec = true <-> 0 < t).
Proof.
  intros HM. induction k as [|k IH]; cbv zeta.
  - simpl. rewrite Z.div_1_r, Z.mod_1_r. split; [done|]. exists 0. repeat split; try lia; done.
  - cbv zeta in IH. rewrite Nat.iter_succ.
    destruct (Nat.iter k shr_1 _) as [m r s]. simpl in IH.
    destruct IH as (Hm & t & Ht & Hrange & Hs).
    assert (HP : 0 < 2 ^ Z.of_nat k) by (apply Z.pow_pos_nonneg; lia).
    assert (Hm0 : 0 <= m) by (rewrite Hm; apply Z.div_pos; lia).
    rewrite shr_1_nonneg by done. simpl.
    rewrite Nat2Z.inj_succ, Z.pow_succ_r by lia.
    rewrite Z.div2_div, Hm, Z.div_div by lia.
    rewrite (Z.mul_comm 2). split; [done|].
    rewrite Z.rem_mul_r by lia. rewrite <- Hm.
    rewrite Zmod_odd.
    exists (2 * (M mod 2 ^ Z.of_nat k)).
    set (R := M mod 2 ^ Z.of_nat k) in *. set (P := 2 ^ Z.of_nat k) in *.
    split; [destruct (Z.odd m); lia|]. split; [destruct r; lia|].
    destruct r; simpl.
    + split; [intros _; lia | done].
    + rewrite Hs. lia.
Qed.

Lemma shr_shift (M : Z) (p : positive) :
  0 <= M ->
  let rec := SpecFloat.iter_pos shr_1 p (Build_shr_record M false false) in
  shr_m rec = M / 2 ^ Zpos p /\
  let W := round_nearest_even (shr_m rec) (loc_of_shr_record rec) in
  M / 2 ^ Zpos p <= W /\ 2 * (W * 2 ^ Zpos p) <= 2 * M + 2 ^ Zpos p.
Proof.
  intros HM. cbv zeta. rewrite iter_pos_nat.
  pose proof (shr_iter M (Pos.to_nat p) HM) as H. cbv zeta in H.
  rewrite positive_nat_Z in H.
  destruct (Nat.iter (Pos.to_nat p) shr_1 _) as [m r s]. simpl in *.
  destruct H as (Hm & t & Ht & Hrange & Hs).
  split; [exact Hm|].
  assert (HP : 0 < 2 ^ Zpos p) by (apply Z.pow_pos_nonneg; lia).
  pose proof (Z.div_mod M (2 ^ Zpos p) ltac:(lia)) as Hdm.
  rewrite <- Hm in *.
  set (P := 2 ^ Zpos p) in *. set (R := M mod P) in *.
  destruct r, s; simpl; try destruct (Z.even m); nia.
Qed.

Lemma Qpow2_pos (e : Z) : (0 < 2 ^ e)%Q.
Proof. by apply Qpower_0_lt. Qed.

Lemma Qpow2_add (a b : Z) : (2 ^ (a + b) == 2 ^ a * 2 ^ b)%Q.
Proof. by apply Qpower_plus. Qed.

Lemma Qpow2_mono (a b : Z) : a <= b -> (2 ^ a <= 2 ^ b)%Q.
Proof. intros H. by apply Qpower_le_compat_l. Qed.

Lemma Qpow2_inject (n : Z) : 0 <= n -> (inject_Z (2 ^ n) == 2 ^ n)%Q.
Proof. intros H. by rewrite Zpower_Qpower. Qed.

Lemma fexp_eq (e : Z) : fexp Double.prec Double.emax e = Z.max (e - 53) (-1074).
Proof. reflexivity. Qed.

Lemma Zdigits2_bounds (W : Z) :
  0 <= W -> 0 <= Zdigits2 W /\ W < 2 ^ Zdigits2 W.
Proof.
  intros HW. destruct W as [|w|w]; [simpl; lia| |lia].
  simpl. pose proof (digits2_bounds w). lia.
Qed.

(** The second normalisation of [binary_round_aux]: it can only drop bits,
    and leaves at most 53 of them. *)
Lemma shr_fexp_exact (W e : Z) mrs e2 :
  0 <= W ->
  shr_fexp Double.prec Double.emax W e loc_Exact = (mrs, e2) ->
  0 <= shr_m mrs < 2 ^ 53 /\
  (inject_Z (shr_m mrs) * 2 ^ e2 <= inject_Z W * 2 ^ e)%Q /\
  ((e2 = e /\ shr_m mrs = W) \/ e2 = -1074 \/ 2 ^ 52 <= shr_m mrs).
Proof.
  intros HW H. unfold shr_fexp, shr in H. rewrite fexp_eq in H.
  destruct (Zdigits2_bounds W HW) as [Hd0 Hd].
  simpl shr_record_of_loc in H.
  destruct (Z.max (Zdigits2 W + e - 53) (-1074) - e) as [|p|p] eqn:Hn;
    injection H as <- <-; simpl shr_m.
  - split; [|split; [apply Qle_refl|by left]]. split; [done|].
    eapply Z.lt_le_trans; [exact Hd|]. apply Z.pow_le_mono_r; lia.
  - destruct (shr_shift W p HW) as (Hm & _). cbv zeta in Hm. rewrite Hm.
    assert (HP : 0 < 2 ^ Zpos p) by (apply Z.pow_pos_nonneg; lia).
    split; [|split].
    3:{ right. destruct (Z.max_spec (Zdigits2 W + e - 53) (-1074)) as [[_ He]|[_ He]];
          [left; lia|right].
        assert (Hp : Zpos p = Zdigits2 W - 53) by lia.
        destruct W as [|w|w]; [simpl in Hp; lia| |lia].
        simpl in Hp. pose proof (digits2_bounds w) as [Hlo _].
        apply Z.div_le_lower_bound; [lia|].
        rewrite <- Z.pow_add_r by lia.
        replace (Zpos p + 52) with (Zpos (digits2_pos w) - 1) by lia. exact Hlo. }
    + split; [apply Z.div_pos; lia|].
      apply Z.div_lt_upper_bound; [lia|].
      rewrite <- Z.pow_add_r by lia.
      eapply Z.lt_le_trans; [exact Hd|]. apply Z.pow_le_mono_r; lia.
    + rewrite Qpow2_add, <- (Qpow2_inject (Zpos p)) by lia.
      pose proof (Z.mul_div_le W (2 ^ Zpos p) HP) as Hle.
      rewrite Zle_Qle in Hle. rewrite inject_Z_mult in Hle.
      pose proof (Qpow2_pos e) as Hg.
      set (g := (2 ^ e)%Q) in *. set (a := inject_Z (W / 2 ^ Zpos p)) in *.
      set (b := inject_Z (2 ^ Zpos p)) in *. set (c := inject_Z W) in *.
      qatoms; nra.
  - split; [|split; [apply Qle_refl|by left]]. split; [done|].
    eapply Z.lt_le_trans; [exact Hd|]. apply Z.pow_le_mono_r; lia.
Qed.

(** The first step of [binary_round_aux] on an exact positive product:
    the rounded mantissa stays within half a unit of the last place. *)
Lemma shr_fexp_round (M : positive) (E : Z) mrs e1 :
  shr_fexp Double.prec Double.emax (Zpos M) E loc_Exact = (mrs, e1) ->
  let W := round_nearest_even (shr_m mrs) (loc_of_shr_record mrs) in
  0 <= W /\
  (inject_Z W * 2 ^ e1
   <= inject_Z (Zpos M) * 2 ^ E * (1 + 2 ^ (-53)) + 2 ^ (-1075))%Q /\
  (e1 = E \/ e1 = -1074 \/ 2 ^ 52 <= W).
Proof.
  intros H. cbv zeta. unfold shr_fexp, shr in H. rewrite fexp_eq in H.
  simpl Zdigits2 in H. simpl shr_record_of_loc in H.
  pose proof (Qpow2_pos E) as Hg.
  assert (HM : (0 < inject_Z (Zpos M))%Q) by (change 0%Q with (inject_Z 0); rewrite <- Zlt_Qlt; lia).
  assert (Hc : (0 < 2 ^ (-53))%Q) by apply Qpow2_pos.
  assert (Hk : (0 < 2 ^ (-1075))%Q) by apply Qpow2_pos.
  destruct (Z.max (Zpos (digits2_pos M) + E - 53) (-1074) - E) as [|p|p] eqn:Hn;
    injection H as <- <-; simpl shr_m; simpl loc_of_shr_record; simpl round_nearest_even.
  - split; [lia|]. split; [|by left].
    set (g := (2 ^ E)%Q) in *. set (m := inject_Z (Zpos M)) in *. qatoms; nra.
  - destruct (shr_shift (Zpos M) p ltac:(lia)) as (Hm & Hlo & Hup). cbv zeta in Hlo, Hup.
    set (W := round_nearest_even _ _) in *.
    assert (HP : 0 < 2 ^ Zpos p) by (apply Z.pow_pos_nonneg; lia).
    split; [pose proof (Z.div_pos (Zpos M) (2 ^ Zpos p)); lia|].
    split.
    2:{ right. destruct (Z.max_spec (Zpos (digits2_pos M) + E - 53) (-1074)) as [[_ He]|[_ He]];
          [left; lia|right].
        pose proof (digits2_bounds M) as [Hdl _].
        eapply Z.le_trans; [|exact Hlo].
        apply Z.div_le_lower_bound; [lia|].
        rewrite <- Z.pow_add_r by lia.
        replace (Zpos p + 52) with (Zpos (digits2_pos M) - 1) by lia. exact Hdl. }
    (* half a unit in the last place, in terms of the exact value *)
    assert (Hhalf : (2 ^ (E + Zpos p - 1)
                     <= inject_Z (Zpos M) * 2 ^ E * 2 ^ (-53) + 2 ^ (-1075))%Q).
    { pose proof (digits2_bounds M) as [Hdl _].
      destruct (Z.max_spec (Zpos (digits2_pos M) + E - 53) (-1074)) as [[_ He]|[_ He]].
      - replace (E + Zpos p - 1) with (-1075) by lia.
        set (g := (2 ^ E)%Q) in *. set (m := inject_Z (Zpos M)) in *. qatoms; nra.
      - replace (E + Zpos p - 1) with ((Zpos (digits2_pos M) - 1) + E + (-53)) by lia.
        rewrite !Qpow2_add, <- (Qpow2_inject (Zpos (digits2_pos M) - 1)) by lia.
        rewrite Zle_Qle in Hdl.
        set (g := (2 ^ E)%Q) in *. set (m := inject_Z (Zpos M)) in *.
        set (c := (2 ^ (-53))%Q) in *. set (l := inject_Z (2 ^ (Zpos (digits2_pos M) - 1))) in *.
        qatoms. assert (0 < g * c)%Q by nra.
        assert (l * (g * c) <= m * (g * c))%Q by nra. lra. }
    assert (Hdouble : (2 ^ E * inject_Z (2 ^ Zpos p) == 2 * 2 ^ (E + Zpos p - 1))%Q).
    { rewrite Qpow2_inject by lia.
      replace (E + Zpos p - 1) with (E + Zpos p + (-1)) by lia.
      rewrite !Qpow2_add. change (2 ^ (-1))%Q with (1 # 2)%Q. ring. }
    rewrite Qpow2_add, <- (Qpow2_inject (Zpos p)) by lia.
    rewrite Zle_Qle in Hup.
    rewrite inject_Z_plus, !inject_Z_mult in Hup. change (inject_Z 2) with 2%Q in Hup.
    set (g := (2 ^ E)%Q) in *. set (m := inject_Z (Zpos M)) in *.
    set (b := inject_Z (2 ^ Zpos p)) in *. set (a := inject_Z W) in *.
    set (h := (2 ^ (E + Zpos p - 1))%Q) in *.
    assert (2 * (a * b) * g <= (2 * m + b) * g)%Q by (qatoms; nra).
    qatoms; nra.
  - split; [lia|]. split; [|by left].
    set (g := (2 ^ E)%Q) in *. set (m := inject_Z (Zpos M)) in *. qatoms; nra.
Qed.

(** Rounding an exact positive product [M * 2^E] to a double: the result
    is never above [M * 2^E * (1 + 2^-53) + 2^-1075], and it is infinite
    only if that bound reaches [2^1024] (or the exponent [E] is out of
    range from the start). *)
Lemma round_aux_spec (M : positive) (E : Z) :
  let bound := (inject_Z (Zpos M) * 2 ^ E * (1 + 2 ^ (-53)) + 2 ^ (-1075))%Q in
  let r := binary_round_aux Double.prec Double.emax false (Zpos M) E loc_Exact in
  r = S754_zero false \/
  (exists m e, r = S754_finite false m e /\ Zpos m < 2 ^ 53 /\ e <= 971 /\
               (inject_Z (Zpos m) * 2 ^ e <= bound)%Q) \/
  (r = S754_infinity false /\ ((2 ^ 1024 <= bound)%Q \/ 972 <= E)).
Proof.
  cbv zeta. unfold binary_round_aux.
  destruct (shr_fexp Double.prec Double.emax (Zpos M) E loc_Exact) as [mrs1 e1] eqn:H1.
  destruct (shr_fexp_round M E mrs1 e1 H1) as (HW & Hb & Hc1). cbv zeta in HW, Hb, Hc1.
  set (W := round_nearest_even _ _) in *.
  destruct (shr_fexp Double.prec Double.emax W e1 loc_Exact) as [mrs2 e2] eqn:H2.
  destruct (shr_fexp_exact W e1 mrs2 e2 HW H2) as ([Hm0 Hm] & Hle & Hc2).
  destruct (shr_m mrs2) as [|m|m]; [by left| |lia].
  right. destruct (Z.leb_spec e2 (Double.emax - Double.prec)) as [He|He];
    unfold Double.emax, Double.prec in He.
  - left. exists m, e2. split; [done|]. split; [done|]. split; [lia|].
    eapply Qle_trans; [exact Hle | exact Hb].
  - right. split; [done|].
    assert (Hbig : 2 ^ 52 <= Zpos m -> (2 ^ 1024 <= inject_Z (Zpos m) * 2 ^ e2)%Q).
    { intros H52. rewrite Zle_Qle in H52.
      change (inject_Z (2 ^ 52)) with 4503599627370496%Q in H52.
      pose proof (Qpow2_mono 972 e2 ltac:(lia)) as Hmono.
      assert (Hsplit : (2 ^ 1024 == 4503599627370496 * 2 ^ 972)%Q).
      { change 1024 with (52 + 972). rewrite Qpow2_add. reflexivity. }
      rewrite Hsplit. pose proof (Qpow2_pos 972). pose proof (Qpow2_pos e2).
      set (g := (2 ^ e2)%Q) in *. set (a := inject_Z (Zpos m)) in *.
      set (k := (2 ^ 972)%Q) in *. qatoms.
      assert (4503599627370496 * g <= a * g)%Q by nra. lra. }
    destruct Hc2 as [[-> HmW]|[->|H52]]; [|lia|].
    + destruct Hc1 as [->|[->|H52]]; [right; lia|lia|].
      left. rewrite <- HmW in H52.
      eapply Qle_trans; [apply (Hbig H52)|]. eapply Qle_trans; [exact Hle | exact Hb].
    + left. eapply Qle_trans; [apply (Hbig H52)|]. eapply Qle_trans; [exact Hle | exact Hb].
Qed.

Lemma iter_xO (p d : positive) :
  Zpos (Pos.iter xO p d) = Zpos p * 2 ^ Zpos d /\
  Zpos (digits2_pos (Pos.iter xO p d)) = Zpos (digits2_pos p) + Zpos d.
Proof.
  induction d as [|d [IH1 IH2]] using Pos.peano_ind.
  - simpl. split; lia.
  - rewrite Pos.iter_succ. simpl digits2_pos.
    rewrite Pos2Z.inj_xO, IH1, !Pos2Z.inj_succ, IH2, Z.pow_succ_r by lia. split; lia.
Qed.

(** A mantissa of 53 bits with an exponent in range is left as it is. *)
Lemma round_aux_exact (m : positive) (e : Z) :
  Zpos (digits2_pos m) = 53 -> -1074 <= e <= 971 ->
  binary_round_aux Double.prec Double.emax false (Zpos m) e loc_Exact
  = S754_finite false m e.
Proof.
  intros Hd He. unfold binary_round_aux, shr_fexp.
  simpl Zdigits2. rewrite Hd, fexp_eq.
  replace (Z.max (53 + e - 53) (-1074) - e) with 0 by lia.
  simpl. rewrite Hd, fexp_eq.
  replace (Z.max (53 + e - 53) (-1074) - e) with 0 by lia.
  simpl. destruct (Z.leb_spec e (Double.emax - Double.prec)) as [_|H]; [done|].
  unfold Double.emax, Double.prec in H. lia.
Qed.

Lemma to_Z_of_Z (q : Z) :
  0 <= q < 2 ^ 53 -> Double.to_Z (Double.of_Z q) = Some q.
Proof.
  intros [H0 Hq]. destruct q as [|p|p]; [done| |lia].
  unfold Double.of_Z, binary_normalize, binary_round. rewrite fexp_eq.
  pose proof (digits2_bounds p) as [Hlo _].
  assert (Hd : Zpos (digits2_pos p) <= 53).
  { destruct (Z.le_gt_cases (Zpos (digits2_pos p)) 53) as [|Hgt]; [done|].
    assert (2 ^ 53 <= 2 ^ (Zpos (digits2_pos p) - 1)) by (apply Z.pow_le_mono_r; lia). lia. }
  unfold shl_align.
  replace (Z.max (Zpos (digits2_pos p) + 0 - 53) (-1074) - 0)
    with (Zpos (digits2_pos p) - 53) by lia.
  destruct (Zpos (digits2_pos p) - 53) as [|k|k] eqn:Hk; [|lia|].
  - rewrite round_aux_exact by lia. simpl. f_equal. lia.
  - destruct (iter_xO p k) as [Hv Hdg].
    replace (Z.max (Zpos (digits2_pos p) + 0 - 53) (-1074)) with (Zneg k) by lia.
    rewrite round_aux_exact by lia.
    unfold Double.to_Z. simpl Z.leb. cbv iota.
    change (- Zneg k) with (Zpos k). simpl cond_Zopp. rewrite Hv.
    assert (0 < 2 ^ Zpos k) by (apply Z.pow_pos_nonneg; lia).
    rewrite Z.mod_mul, Z.div_mul by lia. done.
Qed.

(** [Math.floor] of a non-negative double with at most 53 bits is an
    integer that does not exceed it. *)
Lemma floor_to_Z (m : positive) (e : Z) :
  Zpos m < 2 ^ 53 ->
  exists d, Double.to_Z (Double.floor (S754_finite false m e)) = Some d /\
            0 <= d /\ (inject_Z d <= inject_Z (Zpos m) * 2 ^ e)%Q.
Proof.
  intros Hm. unfold Double.floor. destruct (Z.leb_spec 0 e) as [He|He].
  - exists (Zpos m * 2 ^ e). unfold Double.to_Z.
    destruct (Z.leb_spec 0 e) as [_|?]; [|lia]. simpl cond_Zopp.
    split; [done|]. split; [apply Z.mul_nonneg_nonneg; [lia|apply Z.pow_nonneg; lia]|].
    rewrite inject_Z_mult, Qpow2_inject by lia. apply Qle_refl.
  - simpl cond_Zopp.
    assert (HP : 0 < 2 ^ (- e)) by (apply Z.pow_pos_nonneg; lia).
    pose proof (Z.mul_div_le (Zpos m) (2 ^ (- e)) HP) as Hle.
    pose proof (Z.div_pos (Zpos m) (2 ^ (- e)) ltac:(lia) HP) as H0.
    assert (Zpos m / 2 ^ (- e) <= Zpos m) by (apply Z.div_le_upper_bound; nia).
    exists (Zpos m / 2 ^ (- e)). split; [apply to_Z_of_Z; lia|]. split; [done|].
    rewrite Zle_Qle, inject_Z_mult, (Qpow2_inject (- e)) in Hle by lia.
    assert (Hinv : (2 ^ (- e) * 2 ^ e == 1)%Q).
    { rewrite <- Qpow2_add. by replace (- e + e) with 0 by lia. }
    pose proof (Qpow2_pos e). pose proof (Qpow2_pos (- e)).
    set (g := (2 ^ e)%Q) in *. set (h := (2 ^ (- e))%Q) in *.
    set (a := inject_Z (Zpos m / 2 ^ (- e))) in *. set (b := inject_Z (Zpos m)) in *.
    qatoms. assert (h * a * g <= b * g)%Q by nra.
    assert (h * a * g == a)%Q. { transitivity (a * (h * g))%Q; [ring|]. rewrite Hinv. ring. }
    lra.
Qed.

Lemma valid_finite (s : bool) (m : positive) (e : Z) :
  Double.valid (S754_finite s m e) = true ->
  Zpos m < 2 ^ 53 /\ -1074 <= e <= 971 /\ (2 ^ 52 <= Zpos m \/ e = -1074).
Proof.
  unfold Double.valid, valid_binary, bounded, canonical_mantissa. rewrite fexp_eq.
  intros [Hc He]%andb_true_iff. apply Z.eqb_eq in Hc. apply Z.leb_le in He.
  unfold Double.emax, Double.prec in He.
  pose proof (digits2_bounds m) as [Hlo Hhi].
  assert (Hd : Zpos (digits2_pos m) <= 53) by lia.
  split; [|split; [lia|]].
  - eapply Z.lt_le_trans; [exact Hhi|]. apply Z.pow_le_mono_r; lia.
  - destruct (Z.eq_dec e (-1074)) as [->|Hne]; [by right|left].
    replace (Zpos (digits2_pos m)) with 53 in Hlo by lia. exact Hlo.
Qed.

(** A double in [[0, 1)] is at most [1 - 2^-53]. *)
Lemma unit_draw (s : bool) (m : positive) (e : Z) :
  Double.valid (S754_finite s m e) = true ->
  (0 <= inject_Z (cond_Zopp s (Zpos m)) * 2 ^ e)%Q ->
  (inject_Z (cond_Zopp s (Zpos m)) * 2 ^ e < 1)%Q ->
  s = false /\ e <= -53 /\ (inject_Z (Zpos m) * 2 ^ e <= 1 - 2 ^ (-53))%Q.
Proof.
  intros Hv H0 H1. pose proof (Qpow2_pos e) as Hg.
  destruct s; simpl cond_Zopp in *; change (- Z.pos m) with (Zneg m) in *.
  - exfalso. assert (Hn : (inject_Z (Zneg m) <= -1)%Q)
      by (change (-1)%Q with (inject_Z (-1)); rewrite <- Zle_Qle; lia).
    set (g := (2 ^ e)%Q) in *. set (a := inject_Z (Zneg m)) in *. qatoms. nra.
  - split; [done|].
    destruct (valid_finite _ _ _ Hv) as (Hm & He & Hn).
    assert (Hm' : (inject_Z (Zpos m) <= 9007199254740991)%Q)
      by (change 9007199254740991%Q with (inject_Z 9007199254740991); rewrite <- Zle_Qle; lia).
    assert (He53 : e <= -53).
    { destruct (Z.le_gt_cases e (-53)) as [|Hgt]; [done|exfalso].
      destruct Hn as [Hn|Hn]; [|lia].
      assert (Hn' : (4503599627370496 <= inject_Z (Zpos m))%Q)
        by (change 4503599627370496%Q with (inject_Z (2 ^ 52)); rewrite <- Zle_Qle; lia).
      pose proof (Qpow2_mono (-52) e ltac:(lia)) as Hge.
      change (2 ^ (-52))%Q with (1 # 4503599627370496)%Q in Hge.
      set (g := (2 ^ e)%Q) in *. set (a := inject_Z (Zpos m)) in *. qatoms. nra. }
    split; [exact He53|].
    pose proof (Qpow2_mono e (-53) He53) as Hle.
    change (2 ^ (-53))%Q with (1 # 9007199254740992)%Q in *.
    set (g := (2 ^ e)%Q) in *. set (a := inject_Z (Zpos m)) in *. qatoms.
    assert (0 <= a)%Q by nra. nra.
Qed.

(** Two doubles are never closer than one part in [2^53]: a double below
    a normal double [s] is at most [s * (1 - 2^-53)]. *)
Lemma below_double (ms : positive) (es : Z) (mz : positive) (ez : Z) :
  2 ^ 52 <= Zpos ms < 2 ^ 53 -> Zpos mz < 2 ^ 53 ->
  (inject_Z (Zpos mz) * 2 ^ ez < inject_Z (Zpos ms) * 2 ^ es)%Q ->
  (inject_Z (Zpos mz) * 2 ^ ez <= inject_Z (Zpos ms) * 2 ^ es * (1 - 2 ^ (-53)))%Q.
Proof.
  intros [Hlo Hhi] Hz Hlt.
  assert (Ha1 : (4503599627370496 <= inject_Z (Zpos ms))%Q)
    by (change 4503599627370496%Q with (inject_Z (2 ^ 52)); rewrite <- Zle_Qle; lia).
  assert (Ha2 : (inject_Z (Zpos ms) <= 9007199254740992)%Q)
    by (change 9007199254740992%Q with (inject_Z (2 ^ 53)); rewrite <- Zle_Qle; lia).
  assert (Hc2 : (inject_Z (Zpos mz) <= 9007199254740991)%Q)
    by (change 9007199254740991%Q with (inject_Z (2 ^ 53 - 1)); rewrite <- Zle_Qle; lia).
  assert (Hc1 : (0 < inject_Z (Zpos mz))%Q)
    by (change 0%Q with (inject_Z 0); rewrite <- Zlt_Qlt; lia).
  pose proof (Qpow2_pos es) as Hg.
  change (2 ^ (-53))%Q with (1 # 9007199254740992)%Q.
  destruct (Z.le_gt_cases es ez) as [Hle|Hgt].
  - assert (Hsplit : (2 ^ ez == inject_Z (2 ^ (ez - es)) * 2 ^ es)%Q).
    { rewrite Qpow2_inject, <- Qpow2_add by lia. by replace (ez - es + es) with ez by lia. }
    assert (HK : Zpos mz * 2 ^ (ez - es) + 1 <= Zpos ms).
    { assert (Zpos mz * 2 ^ (ez - es) < Zpos ms); [|lia].
      rewrite Zlt_Qlt, inject_Z_mult.
      rewrite Hsplit in Hlt.
      set (g := (2 ^ es)%Q) in *. set (a := inject_Z (Zpos ms)) in *.
      set (c := inject_Z (Zpos mz)) in *. set (k := inject_Z (2 ^ (ez - es))) in *. qatoms.
      destruct (Qlt_le_dec (c * k) a) as [|Hge]; [done|exfalso].
      assert (a * g <= c * k * g)%Q by nra. lra. }
    rewrite Zle_Qle, inject_Z_plus, inject_Z_mult in HK. change (inject_Z 1) with 1%Q in HK.
    rewrite Hsplit.
    set (g := (2 ^ es)%Q) in *. set (a := inject_Z (Zpos ms)) in *.
    set (c := inject_Z (Zpos mz)) in *. set (k := inject_Z (2 ^ (ez - es))) in *. qatoms.
    assert ((c * k + 1) * g <= a * g)%Q by nra.
    assert (a * g <= 9007199254740992 * g)%Q by nra.
    lra.
  - pose proof (Qpow2_mono ez (es - 1) ltac:(lia)) as Hmono.
    assert (Hhalf : (2 ^ es == 2 * 2 ^ (es - 1))%Q).
    { replace es with (1 + (es - 1)) at 1 by lia. by rewrite Qpow2_add. }
    pose proof (Qpow2_pos ez) as Ht. pose proof (Qpow2_pos (es - 1)) as Hh.
    rewrite Hhalf.
    set (h := (2 ^ (es - 1))%Q) in *. set (t := (2 ^ ez)%Q) in *.
    set (a := inject_Z (Zpos ms)) in *. set (c := inject_Z (Zpos mz)) in *. qatoms.
    assert (c * t <= 9007199254740991 * t)%Q by nra.
    assert (4503599627370496 * h <= a * h)%Q by nra.
    lra.
Qed.

(** The product of two positive doubles, rounded. *)
Lemma mul_finite (mx : positive) (ex : Z) (my : positive) (ey : Z) :
  let bound := (inject_Z (Zpos mx) * 2 ^ ex * (inject_Z (Zpos my) * 2 ^ ey)
                * (1 + 2 ^ (-53)) + 2 ^ (-1075))%Q in
  let r := Double.mul (S754_finite false mx ex) (S754_finite false my ey) in
  r = S754_zero false \/
  (exists m e, r = S754_finite false m e /\ Zpos m < 2 ^ 53 /\ e <= 971 /\
               (inject_Z (Zpos m) * 2 ^ e <= bound)%Q) \/
  (r = S754_infinity false /\ ((2 ^ 1024 <= bound)%Q \/ 972 <= ex + ey)).
Proof.
  cbv zeta. unfold Double.mul. simpl SFmul.
  assert (Heq : (inject_Z (Zpos (mx * my)) * 2 ^ (ex + ey)
                 == inject_Z (Zpos mx) * 2 ^ ex * (inject_Z (Zpos my) * 2 ^ ey))%Q).
  { rewrite Pos2Z.inj_mul, inject_Z_mult, Qpow2_add. ring. }
  destruct (round_aux_spec (mx * my) (ex + ey))
    as [H|[(m & e & H & Hm & He & Hb)|[H [Hb|Hb]]]]; cbv zeta in *.
  - by left.
  - right; left. exists m, e. split; [done|]. split; [done|]. split; [done|].
    by rewrite <- Heq.
  - right; right. split; [done|]. left. by rewrite <- Heq.
  - right; right. split; [done|]. by right.
Qed.

End Rounding.

(** ** Backoff *)

Section BackoffFacts.
Import Backoff.

Lemma of_Z_factor (a : Z) :
  1 <= a ->
  1 <= factor a <= 5 /\
  exists mf ef, Double.of_Z (factor a) = S754_finite false mf ef /\ ef < 0 /\
                (inject_Z (Zpos mf) * 2 ^ ef == inject_Z (factor a))%Q.
Proof.
  intros Ha. assert (Hr : 1 <= factor a <= 5).
  { unfold factor. destruct (Z.ltb_spec 5 a); lia. }
  split; [exact Hr|].
  assert (Hc : factor a = 1 \/ factor a = 2 \/ factor a = 3 \/ factor a = 4 \/ factor a = 5) by lia.
  destruct Hc as [->|[->|[->|[->| ->]]]]; eexists _, _;
    (split; [vm_compute; reflexivity|]); (split; [lia|]); vm_compute; reflexivity.
Qed.

Lemma positive_double (seed : Double.t) (s : Q) :
  Double.value seed = Some s -> (0 < s)%Q ->
  exists ms es, seed = S754_finite false ms es /\ s = (inject_Z (Zpos ms) * 2 ^ es)%Q.
Proof.
  intros Hv Hs. destruct seed as [sz|si| |ss ms es]; simpl in Hv; try discriminate.
  - injection Hv as <-. lra.
  - injection Hv as <-. destruct ss; simpl cond_Zopp in *.
    + exfalso. pose proof (Qpow2_pos es).
      assert (Hn : (inject_Z (Zneg ms) <= -1)%Q)
        by (change (-1)%Q with (inject_Z (-1)); rewrite <- Zle_Qle; lia).
      change (- Z.pos ms) with (Zneg ms) in *.
      set (g := (2 ^ es)%Q) in *. set (a := inject_Z (Zneg ms)) in *. qatoms. nra.
    + by exists ms, es.
Qed.

(** The two rounded products stay strictly below [seed * factor], or below 1. *)
Lemma rounded_products_below (X S F Zv Rv eta : Q) :
  (0 <= X <= 1 - (1 # 9007199254740992))%Q -> (0 < S)%Q -> (1 <= F <= 5)%Q ->
  (0 < eta <= 1 # 1298074214633706907132624082305024)%Q ->
  (0 <= Zv <= X * S * (1 + (1 # 9007199254740992)) + eta)%Q ->
  (Zv < S -> (1 # 8 <= S)%Q -> Zv <= S * (1 - (1 # 9007199254740992)))%Q ->
  (Rv <= Zv * F * (1 + (1 # 9007199254740992)) + eta)%Q ->
  (Rv < S * F \/ Rv < 1)%Q.
Proof.
  intros [HX0 HX] HS [HF1 HF5] [He0 He] [HZ0 HZ] Hstep HR.
  assert (HXS : (X * S <= (1 - (1 # 9007199254740992)) * S)%Q) by nra.
  assert (HXS0 : (0 <= X * S)%Q) by nra.
  destruct (Qlt_le_dec S (1 # 8)) as [Hsmall|Hbig].
  - right. assert (Zv * F <= Zv * 5)%Q by nra. lra.
  - left. assert (HZS : (Zv < S)%Q) by lra.
    specialize (Hstep HZS Hbig).
    assert (Zv * F <= S * (1 - (1 # 9007199254740992)) * F)%Q by nra.
    assert (S * 1 <= S * F)%Q by nra.
    lra.
Qed.

Lemma Qpow2_53 : (2 ^ (-53) == 1 # 9007199254740992)%Q.
Proof. reflexivity. Qed.

Lemma eta_small :
  (0 < 2 ^ (-1075) <= 1 # 1298074214633706907132624082305024)%Q.
Proof.
  split; [apply Qpow2_pos|].
  pose proof (Qpow2_mono (-1075) (-110) ltac:(lia)) as H.
  by change (2 ^ (-110))%Q with (1 # 1298074214633706907132624082305024)%Q in H.
Qed.

Lemma factor_min (a : Z) : factor a = Z.min a 5.
Proof. unfold factor. destruct (Z.ltb_spec 5 a); lia. Qed.

Lemma seed_bound : (2 ^ 1024 == 8 * inject_Z (2 ^ 1021))%Q /\ (1 <= inject_Z (2 ^ 1021))%Q.
Proof.
  split.
  - rewrite Qpow2_inject by lia. change 1024 with (3 + 1021). rewrite Qpow2_add. reflexivity.
  - change 1%Q with (inject_Z 1). rewrite <- Zle_Qle. by apply (Z.pow_le_mono_r 2 0 1021).
Qed.

(** C3 (amended): for every attempt number [a >= 1], every draw of
    [Math.random()] (a double in [[0, 1)]) and every backoff seed that is a
    positive number not above [2^1021] (so that five times the seed is
    still finite), the backoff delay is an integer number of seconds that
    is at least 0 and strictly below [backoffSeed * min(a, 5)]. *)
Theorem backoff_delay_in_range (draw seed : Double.t) (attempt : Z) (x s : Q) :
  Double.valid draw = true -> Double.value draw = Some x -> (0 <= x)%Q -> (x < 1)%Q ->
  Double.valid seed = true -> Double.value seed = Some s ->
  (0 < s)%Q -> (s <= inject_Z (2 ^ 1021))%Q ->
  1 <= attempt ->
  exists d : Z,
    Double.to_Z (backoffDelay draw seed attempt) = Some d /\
    0 <= d /\ (inject_Z d < s * inject_Z (Z.min attempt 5))%Q.
Proof.
  rewrite <- factor_min.
  intros Hvd Hx Hx0 Hx1 Hvs Hs Hs0 Hsmax Ha.
  destruct (of_Z_factor attempt Ha) as ([Hf1 Hf5] & mf & ef & Hf & Hef & HF).
  destruct (positive_double seed s Hs Hs0) as (ms & es & -> & HS).
  destruct (valid_finite _ _ _ Hvs) as (Hms & Hes & Hnormal).
  assert (HF1 : (1 <= inject_Z (factor attempt))%Q)
    by (change 1%Q with (inject_Z 1); rewrite <- Zle_Qle; lia).
  assert (HF5 : (inject_Z (factor attempt) <= 5)%Q)
    by (change 5%Q with (inject_Z 5); rewrite <- Zle_Qle; lia).
  assert (Hzero : (inject_Z 0 < s * inject_Z (factor attempt))%Q).
  { change (inject_Z 0) with 0%Q. set (F := inject_Z (factor attempt)) in *. qatoms. nra. }
  unfold backoffDelay. rewrite Hf.
  destruct draw as [sz|si| |sx mx ex]; simpl in Hx; try discriminate.
  { exists 0. split; [by destruct sz|]. split; [lia|exact Hzero]. }
  injection Hx as <-.
  destruct (unit_draw sx mx ex Hvd Hx0 Hx1) as (-> & Hex & HX). simpl cond_Zopp in *.
  rewrite Qpow2_53 in HX.
  pose proof eta_small as Heta. pose proof seed_bound as [Hmax8 Hmax1].
  destruct (mul_finite mx ex ms es) as [Hz|[(mz & ez & Hz & Hmz & Hez & Hzb)|[Hz Hzb]]];
    cbv zeta in *; rewrite Hz; clear Hz.
  - exists 0. split; [done|]. split; [lia|exact Hzero].
  - rewrite Qpow2_53, <- HS in Hzb.
    assert (HZ0 : (0 <= inject_Z (Zpos mz) * 2 ^ ez)%Q).
    { pose proof (Qpow2_pos ez).
      assert (0 < inject_Z (Zpos mz))%Q by (change 0%Q with (inject_Z 0); rewrite <- Zlt_Qlt; lia).
      set (g := (2 ^ ez)%Q) in *. set (a := inject_Z (Zpos mz)) in *. qatoms. nra. }
    assert (Hstep : (inject_Z (Zpos mz) * 2 ^ ez < s ->
                     (1 # 8 <= s) ->
                     inject_Z (Zpos mz) * 2 ^ ez <= s * (1 - (1 # 9007199254740992)))%Q).
    { intros Hlt Hbig. rewrite HS in *. rewrite <- Qpow2_53.
      apply below_double; [|done|done].
      destruct Hnormal as [Hn| ->]; [lia|exfalso].
      assert (Hm' : (inject_Z (Zpos ms) <= 9007199254740992)%Q)
        by (change 9007199254740992%Q with (inject_Z (2 ^ 53)); rewrite <- Zle_Qle; lia).
      pose proof (Qpow2_mono (-1074) (-110) ltac:(lia)) as Hsmall.
      change (2 ^ (-110))%Q with (1 # 1298074214633706907132624082305024)%Q in Hsmall.
      pose proof (Qpow2_pos (-1074)).
      set (g := (2 ^ (-1074))%Q) in *. set (a := inject_Z (Zpos ms)) in *. qatoms.
      assert (a * g <= 9007199254740992 * g)%Q by nra. lra. }
    destruct (mul_finite mz ez mf ef) as [Hr|[(m & e & Hr & Hm & He & Hrb)|[Hr Hrb]]];
      cbv zeta in *; rewrite Hr; clear Hr.
    + exists 0. split; [done|]. split; [lia|exact Hzero].
    + rewrite Qpow2_53, HF in Hrb.
      destruct (floor_to_Z m e Hm) as (d & Hd & Hd0 & Hdle).
      exists d. split; [exact Hd|]. split; [exact Hd0|].
      destruct (rounded_products_below
                  (inject_Z (Zpos mx) * 2 ^ ex) s (inject_Z (factor attempt))
                  (inject_Z (Zpos mz) * 2 ^ ez) (inject_Z (Zpos m) * 2 ^ e) (2 ^ (-1075)))
        as [Hlt|Hlt]; try done.
      * eapply Qle_lt_trans; [exact Hdle | exact Hlt].
      * assert (Hd1 : (inject_Z d < inject_Z 1)%Q)
          by (eapply Qle_lt_trans; [exact Hdle | exact Hlt]).
        rewrite <- Zlt_Qlt in Hd1. replace d with 0 by lia. exact Hzero.
    + exfalso. destruct Hrb as [Hrb|Hrb]; [|lia].
      rewrite Qpow2_53, HF, Hmax8 in Hrb.
      destruct Heta as [He0 He].
      set (B := inject_Z (2 ^ 1021)) in *. set (eta := (2 ^ (-1075))%Q) in *.
      set (X := (inject_Z (Zpos mx) * 2 ^ ex)%Q) in *.
      set (Zv := (inject_Z (Zpos mz) * 2 ^ ez)%Q) in *.
      set (F := inject_Z (factor attempt)) in *. qatoms.
      assert (X * s <= 1 * s)%Q by nra.
      assert (Zv * F <= Zv * 5)%Q by nra.
      lra.
  - exfalso. destruct Hzb as [Hzb|Hzb]; [|lia].
    rewrite Qpow2_53, <- HS, Hmax8 in Hzb.
    destruct Heta as [He0 He].
    set (B := inject_Z (2 ^ 1021)) in *. set (eta := (2 ^ (-1075))%Q) in *.
    set (X := (inject_Z (Zpos mx) * 2 ^ ex)%Q) in *. qatoms.
    assert (X * s <= 1 * s)%Q by nra.
    lra.
Qed.

Lemma backoff_delay_in_range_witness :
  exists d : Z,
    Double.to_Z (backoffDelay Cases.draw_07 (Double.of_Z 10) 7) = Some d /\
    0 <= d /\
    (inject_Z d < (5629499534213120 # 562949953421312) * inject_Z (Z.min 7 5))%Q.
Proof.
  apply (backoff_delay_in_range Cases.draw_07 (Double.of_Z 10) 7
           (6305039478318694 # 9007199254740992) (5629499534213120 # 562949953421312)).
  - reflexivity.
  - reflexivity.
  - unfold Qle; simpl; lia.
  - unfold Qlt; simpl; lia.
  - reflexivity.
  - reflexivity.
  - unfold Qlt; simpl; lia.
  - unfold Qle; simpl; lia.
  - lia.
Defined.

(** C3, as stated, fails for a seed that is not positive: with the seed
    [-3] and the draw 0.7 the delay of the first retry is [-3] seconds,
    below 0; with the seed [0] it is [0], which is not below
    [0 * min(1, 5)]. *)
Lemma backoff_delay_out_of_range :
  Double.to_Z (Double.of_Z (-3)) = Some (-3) /\
  Double.to_Z (backoffDelay Cases.draw_07 (Double.of_Z (-3)) 1) = Some (-3) /\
  Double.to_Z (Double.of_Z 0) = Some 0 /\
  Double.to_Z (backoffDelay Cases.draw_07 (Double.of_Z 0) 1) = Some 0.
Proof. repeat split. Qed.

End BackoffFacts.

(** ** The store *)

Section RedisFacts.
Import Redis.

Lemma lrange_set_list key l db : lrange key (set_list key l db) = l.
Proof.
  unfold lrange, set_list; simpl. destruct l.
  - by rewrite lookup_delete_eq.
  - by rewrite lookup_insert_eq.
Qed.

Lemma lists_set_list_ne key k l db :
  k ≠ key -> lists (set_list key l db) !! k = lists db !! k.
Proof.
  intros Hne. unfold set_list; simpl. destruct l.
  - by rewrite lookup_delete_ne.
  - by rewrite lookup_insert_ne.
Qed.

Lemma last_in (l : list string) (d : string) : l ≠ [] -> In (List.last l d) l.
Proof.
  induction l as [|x l IH]; [done|]. intros _.
  destruct l as [|y l]; [by left|].
  right. apply IH. discriminate.
Qed.

Lemma last_default (l : list string) (d d' : string) :
  l ≠ [] -> List.last l d = List.last l d'.
Proof.
  induction l as [|y l IH]; [done|]. intros _.
  destruct l as [|z l]; [done|].
  change (List.last (z :: l) d = List.last (z :: l) d'). by apply IH.
Qed.

(** The tail as RPOP computes it. *)
Lemma last_rpop (l : list string) (x d : string) :
  List.last l x = List.last (x :: l) d.
Proof.
  destruct l as [|y l]; [done|].
  change (List.last (x :: y :: l) d) with (List.last (y :: l) d).
  by apply last_default.
Qed.

(** Moving the tail to the head keeps the elements and their multiplicities. *)
Lemma rotate_perm (l : list string) (d : string) :
  l ≠ [] -> Permutation (List.last l d :: List.removelast l) l.
Proof.
  intros Hne.
  rewrite (app_removelast_last d Hne) at 3.
  apply Permutation_cons_append.
Qed.

(** What BRPOPLPUSH does to a non-empty list when source and destination
    are the same key. *)
Lemma brpoplpush_same_key key timeout db :
  lrange key db ≠ [] ->
  let q := lrange key db in
  let '(db', reply) := brpoplpush key key timeout db in
  reply = BValue (List.last q "") /\
  lrange key db' = List.last q "" :: List.removelast q /\
  counters db' = counters db /\ sets db' = sets db /\
  (forall k, k ≠ key -> lists db' !! k = lists db !! k).
Proof.
  intros Hne q. unfold brpoplpush, rpop. fold q.
  destruct q as [|x l'] eqn:Hq; [done|].
  unfold lpush. rewrite !lrange_set_list.
  rewrite (last_rpop l' x "").
  repeat split. intros k Hk. by rewrite !lists_set_list_ne.
Qed.

(** A queue of one message is left exactly as it was. *)
Lemma brpoplpush_same_key_single key timeout db m :
  lists db !! key = Some [m] -> fst (brpoplpush key key timeout db) = db.
Proof.
  intros Hm. unfold brpoplpush, rpop, lrange. rewrite Hm. simpl.
  unfold lpush, set_list, lrange; simpl.
  rewrite lookup_delete_eq; simpl.
  rewrite insert_delete_eq, insert_id; [|done]. by destruct db.
Qed.

End RedisFacts.

(** ** Descriptor retrieval *)

Section RetrievalFacts.
Import Handler.

(** C8 (amended): a successful retrieval returns the tail of the task's
    queue and re-pushes it at the head of the same queue.  The queue still
    contains the retrieved message and holds the same messages with the
    same multiplicities, rotated by one position; counters, sets and all
    other lists are untouched, and a queue of one message is exactly
    unchanged. *)
Theorem retrieval_rotates_queue (w : World) (taskId : string) (timeout : Z) (s : State) :
  let key := jobMsgKey taskId in
  let q := Redis.lrange key (db s) in
  fault w (Brpoplpush key key timeout) = None ->
  q ≠ [] ->
  let '(s', p) := getJobMessage w taskId timeout s in
  let m := List.last q "" in
  p = Js.Resolved (Some m) /\
  Redis.lrange key (db s') = m :: List.removelast q /\
  In m (Redis.lrange key (db s')) /\
  Permutation (Redis.lrange key (db s')) q /\
  Redis.counters (db s') = Redis.counters (db s) /\
  Redis.sets (db s') = Redis.sets (db s) /\
  (forall k, k ≠ key -> Redis.lists (db s') !! k = Redis.lists (db s) !! k) /\
  (length q = 1%nat -> db s' = db s).
Proof.
  intros key q Hfault Hq. unfold getJobMessage. fold key. rewrite Hfault.
  pose proof (brpoplpush_same_key key timeout (db (emit [EvRedis (Brpoplpush key key timeout)] s)) Hq) as H.
  pose proof (brpoplpush_same_key_single key timeout (db s)) as Hone.
  simpl in H. simpl.
  destruct (Redis.brpoplpush key key timeout (db s)) as [d reply].
  destruct H as (-> & Hl & Hc & Hs & Hk). fold q in Hl. simpl.
  repeat split; try done.
  - rewrite Hl. by left.
  - rewrite Hl. by apply rotate_perm.
  - intros Hlen. apply (Hone (List.last q "")).
    unfold q, Redis.lrange in *.
    destruct (Redis.lists (db s) !! key) as [l|]; [|done]. simpl in *.
    destruct l as [|x [|y l]]; done.
Qed.

Lemma retrieval_rotates_queue_witness :
  let w := Scenario.world_exiting 0 in
  let s := Scenario.start Scenario.store_two in
  let key := jobMsgKey Scenario.task in
  fault w (Brpoplpush key key 0) = None /\
  Redis.lrange key (db s) ≠ [] /\
  snd (getJobMessage w Scenario.task 0 s) = Js.Resolved (Some "second") /\
  Redis.lrange key (db (fst (getJobMessage w Scenario.task 0 s))) = ["second"; "first"].
Proof.
  intros w s key.
  assert (Hf : fault w (Brpoplpush key key 0) = None) by reflexivity.
  assert (Hq : Redis.lrange key (db s) ≠ []) by (vm_compute; discriminate).
  pose proof (retrieval_rotates_queue w Scenario.task 0 s Hf Hq) as H.
  destruct (getJobMessage w Scenario.task 0 s) as [s' p].
  destruct H as (Hp & Hl & _).
  repeat split; [exact Hq | exact Hp | exact Hl].
Defined.

(** C8, as stated, fails on a queue of two messages: the retrieval
    succeeds and the list stored under the key is no longer the same. *)
Lemma retrieval_changes_queue :
  let before := Scenario.start Scenario.store_two in
  let '(after, p) := getJobMessage (Scenario.world_exiting 0) Scenario.task 0 before in
  p = Js.Resolved (Some "second") /\
  Redis.lrange "task:wf1:0_msg" (db before) = ["first"; "second"] /\
  Redis.lrange "task:wf1:0_msg" (db after) = ["second"; "first"] /\
  Redis.lrange "task:wf1:0_msg" (db after) ≠ Redis.lrange "task:wf1:0_msg" (db before).
Proof. vm_compute. repeat split. discriminate. Qed.

End RetrievalFacts.

(** ** Input readiness waiter *)

Section WaiterFacts.
Import Waiter.

Variable w : World.
Variable max_retries : Z.

Lemma ifilter_In (p : nat -> string -> bool) (i : nat) (l : list string) (f : string) :
  In f (ifilter p i l) <-> exists j, nth_error l j = Some f /\ p (i + j)%nat f = true.
Proof.
  revert i. induction l as [|g l IH]; intros i.
  - simpl. split; [done|]. intros (j & Hj & _). by destruct j.
  - simpl. split.
    + intros H. destruct (p i g) eqn:Hp.
      * destruct H as [->|H].
        -- exists 0%nat. by rewrite Nat.add_0_r.
        -- apply IH in H as (j & Hj & Hpj). exists (S j). by rewrite Nat.add_succ_r.
      * apply IH in H as (j & Hj & Hpj). exists (S j). by rewrite Nat.add_succ_r.
    + intros ([|j] & Hj & Hpj).
      * rewrite Nat.add_0_r in Hpj. injection Hj as ->. rewrite Hpj. by left.
      * rewrite Nat.add_succ_r in Hpj.
        assert (In f (ifilter p (S i) l)) by (apply IH; eauto).
        destruct (p i g); [by right|done].
Qed.

Lemma ifilter_incl (p : nat -> string -> bool) (i : nat) (l : list string) (f : string) :
  In f (ifilter p i l) -> In f l.
Proof. intros (j & Hj & _)%ifilter_In. by apply nth_error_In in Hj. Qed.

Lemma ifilter_all (p : nat -> string -> bool) (i : nat) (l : list string) :
  (forall j f, In f l -> p j f = true) -> ifilter p i l = l.
Proof.
  revert i. induction l as [|g l IH]; intros i H; [done|].
  simpl. rewrite (H i g) by (by left). rewrite IH; [done|].
  intros j f Hf. apply H. by right.
Qed.

Lemma ifilter_none (p : nat -> string -> bool) (i : nat) (l : list string) :
  (forall j f, In f l -> p j f = false) -> ifilter p i l = [].
Proof.
  revert i. induction l as [|g l IH]; intros i H; [done|].
  simpl. rewrite (H i g) by (by left). apply IH.
  intros j f Hf. apply H. by right.
Qed.

Lemma compact_cons (o : option string) (slots : list (option string)) :
  compact (o :: slots) =
  match o with
  | Some f => if Js.truthy f then f :: compact slots else compact slots
  | None => compact slots
  end.
Proof. destruct o as [f|]; [|done]. unfold compact. simpl. by destruct (Js.truthy f). Qed.

Lemma forEach_spec (ex : nat -> string -> bool) (i : nat) (l : list string) :
  let '(slots, found, evs) := forEach ex i l in
  compact slots = ifilter (still_missing ex) i l /\
  found = ifilter ex i l /\ evs = map EvExistsSync l.
Proof.
  revert i. induction l as [|f l IH]; intros i; [done|].
  simpl. specialize (IH (S i)). destruct (forEach ex (S i) l) as [[slots found] evs].
  destruct IH as (Hc & -> & ->). unfold still_missing at 1.
  destruct (ex i f); rewrite compact_cons; simpl; [done|].
  destruct (Js.truthy f); by rewrite Hc.
Qed.

Lemma checked_app a b : checked (a ++ b) = checked a ++ checked b.
Proof. apply omap_app. Qed.

Lemma checked_checks l : checked (map EvExistsSync l) = l.
Proof.
  induction l as [|f l IH]; [done|].
  change (f :: checked (map EvExistsSync l) = f :: l). by rewrite IH.
Qed.

Lemma count_round_checks l : count is_round (map EvExistsSync l) = 0%nat.
Proof. induction l as [|f l IH]; [done|]. by rewrite map_cons, count_cons, IH. Qed.

(** The effect of a call of [checkFiles] that is within the budget. *)
Lemma checkFiles_round s :
  num_retries s <= max_retries ->
  let ex := existsSync w (num_retries s) in
  let '(s', again) := checkFiles w max_retries s in
  filesToWatch s' = ifilter (still_missing ex) 0 (filesToWatch s) /\
  filesReady s' = filesReady s ++ ifilter ex 0 (filesToWatch s) /\
  num_retries s' = num_retries s + 1 /\
  checked (trace s') = checked (trace s) ++ filesToWatch s /\
  count is_round (trace s') = S (count is_round (trace s)) /\
  (again = true -> filesToWatch s' ≠ [] /\ settles s' = settles s) /\
  (again = false -> filesToWatch s' = [] /\ settles s' = settles s ++ [DoResolve]).
Proof.
  intros Hle ex. unfold checkFiles.
  destruct (Z.ltb_spec max_retries (num_retries s)) as [?|_]; [lia|].
  fold ex. pose proof (forEach_spec ex 0 (filesToWatch s)) as Hfe.
  destruct (forEach ex 0 (filesToWatch s)) as [[slots found'] checks].
  destruct Hfe as (-> & -> & ->).
  set (watch' := ifilter (still_missing ex) 0 (filesToWatch s)).
  set (found := ifilter ex 0 (filesToWatch s)).
  assert (Hchk : forall tail,
    checked tail = [] -> count is_round tail = 0%nat ->
    checked ((trace s ++ [EvLog Info (MWaitingForFiles (num_retries s) (filesToWatch s) (filesReady s))]
              ++ map EvExistsSync (filesToWatch s)
              ++ match found with [] => [] | _ => [EvLog Info (MFilesReady (num_retries s + 1) watch' (filesReady s ++ found))] end)
             ++ tail) = checked (trace s) ++ filesToWatch s /\
    count is_round ((trace s ++ [EvLog Info (MWaitingForFiles (num_retries s) (filesToWatch s) (filesReady s))]
              ++ map EvExistsSync (filesToWatch s)
              ++ match found with [] => [] | _ => [EvLog Info (MFilesReady (num_retries s + 1) watch' (filesReady s ++ found))] end)
             ++ tail) = S (count is_round (trace s))).
  { intros tail Ht Hc. rewrite !checked_app, !count_app, checked_checks, count_round_checks, Ht, Hc.
    destruct found; simpl; rewrite ?app_nil_r; split; try done;
      unfold count; simpl; lia. }
  destruct watch' as [|f0 rest] eqn:Hw; simpl.
  - destruct (Hchk [EvLog Info MAllInputsReady] eq_refl eq_refl) as [H1 H2].
    repeat split; try done.
  - destruct (Hchk [EvSetTimeout (delay (num_retries s + 1))] eq_refl eq_refl) as [H1 H2].
    repeat split; try done.
Qed.

(** The effect of a call of [checkFiles] that finds the budget exhausted. *)
Lemma checkFiles_exhausted s :
  max_retries < num_retries s ->
  checkFiles w max_retries s =
  (mkState (filesToWatch s) (filesReady s) (num_retries s)
           (trace s ++ [EvLog Info MInputWaitError])
           (settles s ++ [DoReject "Error waiting for input files"]), false).
Proof.
  intros Hlt. unfold checkFiles.
  by destruct (Z.ltb_spec max_retries (num_retries s)) as [_|?]; [|lia].
Qed.

Lemma filter_still_missing_in ex (i : nat) (l : list string) f :
  In f (ifilter (still_missing ex) i l) ->
  In f l /\ Js.truthy f = true /\
  exists j, nth_error l j = Some f /\ ex (i + j)%nat f = false.
Proof.
  intros (j & Hj & H)%ifilter_In. unfold still_missing in H.
  apply andb_true_iff in H as [H1 H2]. apply negb_true_iff in H1.
  split; [by apply nth_error_In in Hj|]. split; [done|]. by exists j.
Qed.

(** The timer chain stops: the fuel needed is bounded by the rounds left. *)
Lemma run_terminates fuel s :
  (Z.to_nat (max_retries + 1 - num_retries s) < fuel)%nat ->
  exists r, run w max_retries fuel s = Some r.
Proof.
  revert s. induction fuel as [|fuel IH]; intros s Hfuel; [lia|].
  simpl. destruct (Z.ltb_spec max_retries (num_retries s)) as [Hlt|Hle].
  - rewrite checkFiles_exhausted by done. eauto.
  - pose proof (checkFiles_round s Hle) as H. cbv zeta in H.
    destruct (checkFiles w max_retries s) as [s1 again].
    destruct H as (_ & _ & Hn & _).
    destruct again; [|eauto]. apply IH. lia.
Qed.

(** Invariant of the chain: it ends with exactly one call of [resolve] or
    [reject], the former with an empty watching set, the latter with the
    budget exhausted; [num_retries] counts the rounds performed. *)
Lemma run_outcome fuel s r :
  run w max_retries fuel s = Some r ->
  settles s = [] ->
  num_retries s <= max_retries + 1 ->
  (num_retries s <= max_retries \/ filesToWatch s ≠ []) ->
  ((settles r = [DoResolve] /\ filesToWatch r = [] /\
    num_retries s < num_retries r <= max_retries + 1) \/
   (settles r = [DoReject "Error waiting for input files"] /\ filesToWatch r ≠ [] /\
    num_retries r = max_retries + 1)) /\
  count is_round (trace r)
    = (count is_round (trace s) + Z.to_nat (num_retries r - num_retries s))%nat.
Proof.
  revert s. induction fuel as [|fuel IH]; intros s Hrun Hset Hub Hinv; [done|].
  simpl in Hrun. destruct (Z.ltb_spec max_retries (num_retries s)) as [Hlt|Hle].
  - rewrite checkFiles_exhausted in Hrun by done. injection Hrun as <-. simpl.
    rewrite Hset, count_app. unfold count at 2. simpl. split; [right|lia].
    repeat split; [|lia]. destruct Hinv; [lia|done].
  - pose proof (checkFiles_round s Hle) as H. cbv zeta in H.
    destruct (checkFiles w max_retries s) as [s1 again].
    destruct H as (Hw & _ & Hn & _ & Hc & Ht & Hf).
    destruct again.
    + destruct (Ht eq_refl) as [Hne Hs].
      destruct (IH s1 Hrun) as [Hout Hcount]; [congruence|lia|by right|].
      split; [|lia].
      destruct Hout as [(? & ? & ?)|(? & ? & ?)]; [left|right]; repeat split; try done; lia.
    + injection Hrun as <-. destruct (Hf eq_refl) as [He Hs].
      split; [left|lia]. rewrite Hs, Hset. repeat split; try done; lia.
Qed.

(** If no watched file ever appears and one of them has a non-empty name,
    the chain ends with [reject]. *)
Lemma run_never_appearing fuel s r :
  run w max_retries fuel s = Some r ->
  settles s = [] ->
  (forall n i f, In f (filesToWatch s) -> existsSync w n i f = false) ->
  (exists f, In f (filesToWatch s) /\ Js.truthy f = true) ->
  settles r = [DoReject "Error waiting for input files"].
Proof.
  revert s. induction fuel as [|fuel IH]; intros s Hrun Hset Hnever Hsome; [done|].
  simpl in Hrun. destruct (Z.ltb_spec max_retries (num_retries s)) as [Hlt|Hle].
  - rewrite checkFiles_exhausted in Hrun by done. injection Hrun as <-. simpl.
    by rewrite Hset.
  - pose proof (checkFiles_round s Hle) as H. cbv zeta in H.
    destruct (checkFiles w max_retries s) as [s1 again].
    destruct H as (Hw & _ & _ & _ & _ & Ht & Hf).
    assert (Hkeep : exists f, In f (filesToWatch s1) /\ Js.truthy f = true).
    { destruct Hsome as (f & Hin & Htr). exists f. split; [|done].
      rewrite Hw. destruct (In_nth_error _ _ Hin) as [j Hj].
      apply ifilter_In. exists j. split; [done|].
      unfold still_missing. by rewrite (Hnever _ _ f Hin), Htr. }
    destruct again.
    + destruct (Ht eq_refl) as [_ Hs]. apply (IH s1 Hrun); [congruence| |done].
      intros n i f Hin. apply Hnever. rewrite Hw in Hin.
      by apply filter_still_missing_in in Hin as [? _].
    + destruct (Hf eq_refl) as [He _]. destruct Hkeep as (f & Hin & _).
      rewrite He in Hin. destruct Hin.
  Qed.

(** Along the chain only files of the current watching set are checked. *)
Lemma run_checks fuel s r :
  run w max_retries fuel s = Some r ->
  exists later, checked (trace r) = checked (trace s) ++ later /\
                forall f, In f later -> In f (filesToWatch s).
Proof.
  revert s. induction fuel as [|fuel IH]; intros s Hrun; [done|].
  simpl in Hrun. destruct (Z.ltb_spec max_retries (num_retries s)) as [Hlt|Hle].
  - rewrite checkFiles_exhausted in Hrun by done. injection Hrun as <-. simpl.
    exists []. rewrite checked_app, !app_nil_r. by split.
  - pose proof (checkFiles_round s Hle) as H. cbv zeta in H.
    destruct (checkFiles w max_retries s) as [s1 again].
    destruct H as (Hw & _ & _ & Hchk & _).
    destruct again.
    + destruct (IH s1 Hrun) as (later & Hl & Hsub).
      exists (filesToWatch s ++ later). rewrite Hl, Hchk, app_assoc. split; [done|].
      intros f [Hin|Hin]%in_app_or; [done|].
      apply Hsub in Hin. rewrite Hw in Hin.
      by apply filter_still_missing_in in Hin as [? _].
    + injection Hrun as <-. exists (filesToWatch s). by rewrite Hchk.
Qed.

End WaiterFacts.

Section WaiterClaims.
Import Waiter.

(** C4 (amended): for every file list and every [max_retries >= 0],
    [waitForInputs] terminates with exactly one call of [resolve] or
    [reject]: success with an empty watching set, or failure with the
    retry budget exhausted and files still watched; and when at least one
    file has a non-empty name and none of the files ever appears, it fails
    after exactly [max_retries + 1] file-check rounds. *)
Theorem waitForInputs_one_outcome (w : World) (files : list string) (max_retries : Z) :
  0 <= max_retries ->
  exists r, waitForInputs w files max_retries = Some r /\
    ((promise r = Js.Resolved tt /\ settles r = [DoResolve] /\
      filesToWatch r = [] /\ num_retries r <= max_retries + 1) \/
     (promise r = Js.Rejected "Error waiting for input files" /\
      settles r = [DoReject "Error waiting for input files"] /\
      filesToWatch r ≠ [] /\ max_retries < num_retries r)) /\
    count is_round (trace r) = Z.to_nat (num_retries r) /\
    ((exists f, In f files /\ Js.truthy f = true) ->
     (forall n i f, In f files -> existsSync w n i f = false) ->
     promise r = Js.Rejected "Error waiting for input files" /\
     count is_round (trace r) = Z.to_nat (max_retries + 1)).
Proof.
  intros Hmax. unfold waitForInputs.
  destruct (run_terminates w max_retries (fuel_for max_retries) (init files)) as [r Hr].
  { unfold fuel_for, init; simpl. lia. }
  exists r. split; [done|].
  destruct (run_outcome w max_retries _ _ _ Hr) as [Hout Hcount];
    [done | simpl; lia | left; simpl; lia |].
  simpl in Hcount. rewrite Z.sub_0_r in Hcount.
  split; [|split; [done|]].
  - unfold promise.
    destruct Hout as [(Hs & ? & ?)|(Hs & ? & ?)]; rewrite Hs; [left|right];
      repeat split; try done; lia.
  - intros Hsome Hnever.
    pose proof (run_never_appearing w max_retries _ _ _ Hr eq_refl Hnever Hsome) as Hrej.
    unfold promise. rewrite Hrej. split; [done|].
    destruct Hout as [(Hs & _)|(_ & _ & Hn)]; [congruence|].
    by rewrite Hcount, Hn.
Qed.

Lemma waitForInputs_one_outcome_witness :
  0 <= 2 /\
  exists r, waitForInputs (Scenario.world_exiting 0) ["in.dat"] 2 = Some r /\
    promise r = Js.Rejected "Error waiting for input files" /\
    count is_round (trace r) = 3%nat.
Proof.
  split; [lia|].
  destruct (waitForInputs_one_outcome (Scenario.world_exiting 0) ["in.dat"] 2)
    as (r & Hr & _ & _ & Hnever); [lia|].
  exists r. split; [exact Hr|].
  apply Hnever.
  - exists "in.dat". split; [by left | reflexivity].
  - intros n i f _. reflexivity.
Defined.

(** C4, as stated, fails on the one-file list whose only name is empty
    and on the empty list: no file ever appears, yet the wait succeeds
    after a single round instead of failing after [max_retries + 1]. *)
Lemma waitForInputs_succeeds_without_files :
  let w := Scenario.world_exiting 0 in
  (forall n i f, In f [""] -> existsSync w n i f = false) /\
  option_map (fun r => (promise r, count is_round (trace r))) (waitForInputs w [""] 3)
    = Some (Js.Resolved tt, 1%nat) /\
  option_map (fun r => (promise r, count is_round (trace r))) (waitForInputs w [] 3)
    = Some (Js.Resolved tt, 1%nat).
Proof. repeat split. Qed.

(** C5 (amended): in a round of [waitForInputs] exactly the entries of
    the watching set are existence-checked; a file observed to exist at an
    entry is added to the ready set in that round; and when that entry is
    the only one listing the file, the file leaves the watching set in that
    round and no later round checks it again: later rounds check only
    files still watched. *)
Theorem found_file_never_rechecked (w : World) (max_retries : Z)
    (s s1 : State) (again : bool) (i : nat) (f : string) :
  checkFiles w max_retries s = (s1, again) ->
  num_retries s <= max_retries ->
  checked (trace s1) = checked (trace s) ++ filesToWatch s /\
  (nth_error (filesToWatch s) i = Some f ->
   existsSync w (num_retries s) i f = true ->
   In f (filesReady s1) /\
   ((forall j, nth_error (filesToWatch s) j = Some f -> j = i) ->
    ~ In f (filesToWatch s1) /\
    forall fuel r, run w max_retries fuel s1 = Some r ->
      exists later, checked (trace r) = checked (trace s1) ++ later /\
                    ~ In f later /\
                    forall g, In g later -> In g (filesToWatch s1))).
Proof.
  intros Hstep Hle.
  pose proof (checkFiles_round w max_retries s Hle) as H. cbv zeta in H.
  rewrite Hstep in H. destruct H as (Hw & Hr & _ & Hchk & _).
  split; [exact Hchk|]. intros Hin Hex. split.
  { rewrite Hr. apply in_or_app. right. apply ifilter_In. by exists i. }
  intros Honce.
  assert (Hgone : ~ In f (filesToWatch s1)).
  { rewrite Hw. intros Hf.
    apply filter_still_missing_in in Hf as (_ & _ & j & Hj & Hno).
    apply Honce in Hj as ->. simpl in Hno. congruence. }
  split; [exact Hgone|].
  intros fuel r Hrun.
  destruct (run_checks w max_retries fuel s1 r Hrun) as (later & Hl & Hsub).
  exists later. repeat split; [exact Hl| |exact Hsub].
  intros Hf. apply Hgone. by apply Hsub.
Qed.

Lemma found_file_never_rechecked_witness :
  let w := Scenario.world_with_a in
  let s := init ["a.dat"; "b.dat"] in
  let s1 := fst (checkFiles w 1 s) in
  num_retries s <= 1 /\ nth_error (filesToWatch s) 0 = Some "a.dat" /\
  existsSync w (num_retries s) 0 "a.dat" = true /\
  checked (trace s1) = ["a.dat"; "b.dat"] /\
  In "a.dat" (filesReady s1) /\ ~ In "a.dat" (filesToWatch s1).
Proof.
  intros w s s1.
  assert (Hle : num_retries s <= 1) by (simpl; lia).
  assert (Hin : nth_error (filesToWatch s) 0 = Some "a.dat") by reflexivity.
  assert (Hex : existsSync w (num_retries s) 0 "a.dat" = true) by reflexivity.
  assert (Honce : forall j, nth_error (filesToWatch s) j = Some "a.dat" -> j = 0%nat).
  { intros [|[|[|j]]]; simpl; [done|discriminate|discriminate|discriminate]. }
  destruct (found_file_never_rechecked w 1 s s1 (snd (checkFiles w 1 s)) 0 "a.dat")
    as (Hchk & Hrest); [by destruct (checkFiles w 1 s) | exact Hle |].
  destruct (Hrest Hin Hex) as (Hready & Hlater).
  destruct (Hlater Honce) as (Hgone & _).
  exact (conj Hle (conj Hin (conj Hex (conj Hchk (conj Hready Hgone))))).
Defined.

(** C5, as stated, fails for a file that is listed twice: when [a.dat]
    appears between the checks of its two entries in the first round, the
    second entry finds it and moves it to the ready set, the first entry
    stays in the watching set, and the next round checks [a.dat] again. *)
Lemma duplicate_name_rechecked :
  let w := Cases.world_appearing in
  let s1 := fst (checkFiles w 3 (init ["a.dat"; "a.dat"])) in
  existsSync w 0 0 "a.dat" = false /\ existsSync w 0 1 "a.dat" = true /\
  checked (trace s1) = ["a.dat"; "a.dat"] /\
  filesReady s1 = ["a.dat"] /\ filesToWatch s1 = ["a.dat"] /\
  option_map (fun r => (promise r, checked (trace r))) (run w 3 4 s1)
    = Some (Js.Resolved tt, ["a.dat"; "a.dat"; "a.dat"]).
Proof. repeat split. Qed.

End WaiterClaims.

(** ** Process tree monitor *)

Section MonitorFacts.
Import Monitor.

Variable probeInterval : Z.
Variable pid : Z.

(** A successful sample is logged and the loop re-arms its timer. *)
Lemma sampler_continues_on_success k samples n ticks d :
  samples n = SampleOk d ->
  sampler probeInterval pid k samples n (S ticks) =
  fst (tick probeInterval pid k (SampleOk d)) ++ sampler probeInterval pid k samples (S n) ticks /\
  count is_timer (fst (tick probeInterval pid k (SampleOk d))) = 1%nat.
Proof. intros H. simpl. rewrite H. by destruct k. Qed.

(** C6 (amended): for every pid and every sampling kind, a sample that
    raises an error, process-not-found or any other, ends the sampling
    loop: one probe, no timer re-armed, nothing spawned, notified or sent
    to the store.  Not-found is silent for network-device sampling and
    leaves one console line for IO and usage sampling; any other error is
    silent for IO and network-device sampling and leaves one console line
    for usage sampling. *)
Theorem sampler_stops_on_error k samples n ticks e :
  samples n = SampleErr e ->
  let evs := sampler probeInterval pid k samples n (S ticks) in
  evs = EvProbe k pid ::
        match k, e with
        | IO, NotFound => [EvConsole (MProcessGone pid)]
        | IO, Other _ => []
        | NetDev, _ => []
        | Usage, _ => [EvConsole (MPidusageError (error_code e) pid)]
        end /\
  count is_probe evs = 1%nat /\ count is_timer evs = 0%nat /\
  count is_spawn evs = 0%nat /\ count is_notify evs = 0%nat /\
  count is_store evs = 0%nat.
Proof. intros H. simpl. rewrite H. by destruct k, e. Qed.

End MonitorFacts.

Lemma sampler_stops_on_error_witness :
  let samples := fun i : nat =>
    match i with
    | 2%nat => Monitor.SampleErr Monitor.NotFound
    | _ => Monitor.SampleOk "rchar: 1"
    end in
  samples 2%nat = Monitor.SampleErr Monitor.NotFound /\
  Monitor.sampler 2000 7 IO samples 2 (S 3) = [EvProbe IO 7; EvConsole (MProcessGone 7)] /\
  count is_timer (Monitor.sampler 2000 7 IO samples 2 (S 3)) = 0%nat.
Proof.
  intros samples.
  assert (H : samples 2%nat = Monitor.SampleErr Monitor.NotFound) by reflexivity.
  destruct (sampler_stops_on_error 2000 7 IO samples 2 3 Monitor.NotFound H)
    as (Hevs & _ & Htimer & _).
  exact (conj H (conj Hevs Htimer)).
Defined.

(** C6, as stated, fails for an error other than process-not-found: the IO
    and network-device loops log nothing, and all three loops stop instead
    of continuing, although every later sample would succeed. *)
Lemma sampler_other_error_ends_loop :
  let samples := fun i : nat =>
    match i with O => Monitor.SampleErr (Monitor.Other "EACCES") | _ => Monitor.SampleOk "ok" end in
  Monitor.sampler 2000 7 IO samples 0 5 = [EvProbe IO 7] /\
  Monitor.sampler 2000 7 NetDev samples 0 5 = [EvProbe NetDev 7] /\
  Monitor.sampler 2000 7 Usage samples 0 5
    = [EvProbe Usage 7; EvConsole (MPidusageError "EACCES" 7)].
Proof. repeat split. Qed.

(** Splits the count of a classifier over a trace built from known events,
    concatenations and stream redirects. *)
Lemma count_redirect p a b :
  (forall f fl, p (EvCreateWriteStream f fl) = false) ->
  count p (Handler.redirect a b) = 0%nat.
Proof.
  intros Hp. unfold Handler.redirect. destruct (Handler.or_else a b) as [f|]; [|done].
  destruct (Js.truthy f); [|done]. by rewrite count_cons, Hp.
Qed.

Lemma notified_cons e (l : list Event) :
  notified (e :: l) = match e with EvNotify _ c => [c] | _ => [] end ++ notified l.
Proof. by destruct e. Qed.

Lemma notified_redirect a b : notified (Handler.redirect a b) = [].
Proof.
  unfold Handler.redirect. destruct (Handler.or_else a b) as [f|]; [|done].
  by destruct (Js.truthy f).
Qed.

Ltac tally_notified :=
  repeat first [ rewrite notified_app | rewrite notified_cons | rewrite notified_redirect ];
  change (notified []) with (@nil Z); simpl.

(** Finds an event along the right spine of a trace. *)
Ltac find_in :=
  repeat (rewrite in_app_iff || simpl);
  repeat first [ assumption | left; reflexivity | left; assumption | right ].

Ltac tally :=
  repeat first [ rewrite count_app | rewrite count_cons | rewrite count_nil
               | rewrite count_redirect by done ];
  simpl.

(** ** The process executor *)

Section ExecutorFacts.
Import Handler.

Variable env : Env.
Variable w : World.
Variable taskId : string.

(** Events of [removeFromAllJobs]. *)
Lemma removeFromAllJobs_trace s :
  exists tail, trace (removeFromAllJobs env w taskId s)
               = trace s ++ EvRedis (Srem "hf_all_jobs" (allJobsMember env taskId)) :: tail /\
               (tail = [] \/ exists e, tail = [EvConsole (MError e)]) /\
               numRetries (removeFromAllJobs env w taskId s) = numRetries s.
Proof.
  unfold removeFromAllJobs.
  destruct (fault w _) as [e|]; simpl; eauto 6.
Qed.

(** The timer chain of attempts stops: each retry needs [numRetries > 0]
    after the decrement. *)
Lemma executeJob_terminates fuel jm attempt s :
  (Z.to_nat (numRetries s) < fuel)%nat ->
  exists r, executeJob env w taskId fuel jm attempt s = Some r.
Proof.
  revert attempt s. induction fuel as [|fuel IH]; intros attempt s Hfuel; [lia|].
  simpl. destruct (exit_code w attempt) as [code|]; [|eauto].
  destruct (negb (code =? 0)%Z && (0 <? numRetries s - 1)%Z) eqn:Hretry.
  - apply andb_true_iff in Hretry as [_ Hpos%Z.ltb_lt].
    match goal with |- context [executeJob _ _ _ fuel jm ?a ?st] =>
      destruct (IH a st) as [[s' p] ->]; [simpl; lia|] end.
    eauto.
  - destruct (notify w taskId code); [eauto|].
    destruct (inputs jm), (outputs jm); eauto.
Qed.

(** What one call of [executeJob] adds to the trace. *)
Lemma executeJob_effects fuel jm attempt s s' p :
  executeJob env w taskId fuel jm attempt s = Some (s', p) ->
  exists evs, trace s' = trace s ++ evs /\
    (1 <= count is_spawn evs <= Z.to_nat (Z.max 1 (numRetries s)))%nat /\
    (count is_srem evs <= count is_notify evs <= 1)%nat /\
    count is_retrieval evs = 0%nat /\
    count is_exists_check evs = 0%nat /\
    count is_completion_check evs = 0%nat /\
    (forall e, p ≠ Js.Rejected e) /\
    ((0 < count is_srem evs)%nat ->
     exists code, In (EvNotify taskId code) evs /\ notify w taskId code = None).
Proof.
  revert attempt s s' p. induction fuel as [|fuel IH]; intros attempt s s' p Hrun; [done|].
  simpl in Hrun. destruct (exit_code w attempt) as [code|].
  2:{ injection Hrun as <- <-. eexists. split; [simpl; reflexivity|].
      tally. repeat split; try lia; done. }
  destruct (negb (code =? 0)%Z && (0 <? numRetries s - 1)%Z) eqn:Hretry.
  - apply andb_true_iff in Hretry as [_ Hpos%Z.ltb_lt].
    match type of Hrun with context [executeJob _ _ _ fuel jm ?a ?st] =>
      destruct (executeJob env w taskId fuel jm a st) as [[s2 p2]|] eqn:Hrec; [|done];
      destruct (IH _ _ _ _ Hrec) as (evs & Htr & Hsp & Hno & Hre & Hex & Hcc & _ & Hrm)
    end.
    injection Hrun as <- <-. simpl in Htr, Hsp.
    eexists. split; [rewrite Htr, <- !app_assoc; reflexivity|].
    tally. repeat split; try lia; try done.
    intros Hpos'. destruct Hrm as (c & Hin & Hok); [lia|].
    exists c. split; [|done]. find_in.
  - destruct (notify w taskId code) as [err|] eqn:Hnotify.
    + injection Hrun as <- <-. eexists. split; [simpl; rewrite <- !app_assoc; reflexivity|].
      tally. repeat split; try lia; done.
    + destruct (inputs jm) as [ins|], (outputs jm) as [outs|];
        injection Hrun as <- <-.
      2-4: eexists; (split; [simpl; rewrite <- !app_assoc; reflexivity|]);
           tally; repeat split; try lia; done.
      match goal with |- context [removeFromAllJobs env w taskId ?st] =>
        destruct (removeFromAllJobs_trace st) as (tail & Htr & Htail & _) end.
      eexists. split; [simpl; rewrite Htr; simpl; rewrite <- !app_assoc; reflexivity|].
      destruct Htail as [->|[e ->]]; tally; repeat split; try lia; try done;
        intros _; exists code; (split; [|done]); find_in.
Qed.

(** With a command that exits non-zero on every attempt, a call spawns
    [max(1, numRetries)] processes, [numRetries] being the value before
    the call, and notifies once, with the code of the last attempt. *)
Lemma executeJob_always_failing fuel jm attempt s s' p :
  (forall a, exists c, exit_code w a = Some c /\ c ≠ 0) ->
  executeJob env w taskId fuel jm attempt s = Some (s', p) ->
  exists evs c, trace s' = trace s ++ evs /\
    count is_spawn evs = Z.to_nat (Z.max 1 (numRetries s)) /\
    exit_code w (attempt + Z.max 1 (numRetries s) - 1) = Some c /\
    notified evs = [c].
Proof.
  intros Hfail.
  revert attempt s s' p. induction fuel as [|fuel IH]; intros attempt s s' p Hrun; [done|].
  simpl in Hrun. destruct (Hfail attempt) as (code & Hcode & Hnz). rewrite Hcode in Hrun.
  apply Z.eqb_neq in Hnz as Hnzb. rewrite Hnzb in Hrun. simpl in Hrun.
  destruct (Z.ltb_spec 0 (numRetries s - 1)) as [Hpos|Hle].
  - match type of Hrun with context [executeJob _ _ _ fuel jm ?a ?st] =>
      destruct (executeJob env w taskId fuel jm a st) as [[s2 p2]|] eqn:Hrec; [|done];
      destruct (IH _ _ _ _ Hrec) as (evs & c & Htr & Hsp & Hlast & Hno)
    end.
    injection Hrun as <- <-. simpl in Htr, Hsp, Hlast.
    eexists _, c. split; [rewrite Htr, <- !app_assoc; reflexivity|].
    tally. tally_notified. rewrite Hsp, Hno, <- Hlast.
    repeat split; [lia|]. f_equal. lia.
  - replace (attempt + Z.max 1 (numRetries s) - 1) with attempt by lia.
    replace (Z.to_nat (Z.max 1 (numRetries s))) with 1%nat by lia.
    destruct (notify w taskId code) as [err|].
    + injection Hrun as <- <-. eexists _, code.
      split; [simpl; rewrite <- !app_assoc; reflexivity|].
      tally. tally_notified. done.
    + destruct (inputs jm) as [ins|], (outputs jm) as [outs|];
        injection Hrun as <- <-.
      2-4: eexists _, code; (split; [simpl; rewrite <- !app_assoc; reflexivity|]);
           tally; tally_notified; done.
      match goal with |- context [removeFromAllJobs env w taskId ?st] =>
        destruct (removeFromAllJobs_trace st) as (tail & Htr & Htail & _) end.
      eexists _, code. split; [simpl; rewrite Htr; simpl; rewrite <- !app_assoc; reflexivity|].
      destruct Htail as [->|[e ->]]; tally; tally_notified; done.
Qed.

End ExecutorFacts.

(** ** The stages of a run *)

Section StageFacts.
Import Handler.

Variable env : Env.
Variable w : World.
Variable taskId : string.

(** The waiter only logs, checks files and arms timers. *)
Lemma waiter_run_count p max_retries fuel ws r :
  (forall l m, p (EvLog l m) = false) ->
  (forall f, p (EvExistsSync f) = false) ->
  (forall t, p (EvSetTimeout t) = false) ->
  Waiter.run w max_retries fuel ws = Some r ->
  count p (Waiter.trace r) = count p (Waiter.trace ws).
Proof.
  intros Hlog Hex Htimer. revert ws.
  assert (Hchecks : forall l, count p (map EvExistsSync l) = 0%nat).
  { induction l as [|f l IH]; [done|]. by rewrite map_cons, count_cons, Hex, IH. }
  induction fuel as [|fuel IH]; intros ws Hrun; [done|].
  simpl in Hrun. unfold Waiter.checkFiles in Hrun.
  destruct (Z.ltb max_retries (Waiter.num_retries ws)).
  - injection Hrun as <-. simpl. tally. rewrite Hlog. lia.
  - pose proof (forEach_spec (existsSync w (Waiter.num_retries ws)) 0
                  (Waiter.filesToWatch ws)) as Hfe.
    destruct (Waiter.forEach _ 0 _) as [[slots found] checks].
    destruct Hfe as (_ & _ & ->).
    destruct (Waiter.compact _) as [|f0 rest].
    + injection Hrun as <-. simpl. tally. rewrite Hchecks, !Hlog.
      destruct found; tally; rewrite ?Hlog; lia.
    + apply IH in Hrun. rewrite Hrun. simpl. tally. rewrite Hchecks, Hlog, Htimer.
      destruct found; tally; rewrite ?Hlog; lia.
Qed.

Lemma awaitInputs_effects jm s :
  exists s' p evs, awaitInputs env w jm s = Some (s', p) /\
    db s' = db s /\ numRetries s' = numRetries s /\
    trace s' = trace s ++ evs /\
    count is_spawn evs = 0%nat /\ count is_notify evs = 0%nat /\
    count is_srem evs = 0%nat /\ count is_retrieval evs = 0%nat /\
    count is_completion_check evs = 0%nat.
Proof.
  unfold awaitInputs.
  assert (Hskip : exists s' p evs, Some (s, Js.Resolved tt) = Some (s', p) /\
    db s' = db s /\ numRetries s' = numRetries s /\
    trace s' = trace s ++ evs /\
    count is_spawn evs = 0%nat /\ count is_notify evs = 0%nat /\
    count is_srem evs = 0%nat /\ count is_retrieval evs = 0%nat /\
    count is_completion_check evs = 0%nat).
  { exists s, (Js.Resolved tt), []. by rewrite app_nil_r. }
  destruct (HF_VAR_WAIT_FOR_INPUT_FILES env) as [flag|]; [|exact Hskip].
  destruct (inputs jm) as [[|f fs]|].
  1,3: by repeat case_match.
  assert (Hrun : exists r, Waiter.waitForInputs w (f :: fs)
                   (Js.or_default (HF_VAR_FILE_WATCH_NUM_RETRIES env) 10) = Some r).
  { apply run_terminates. unfold Waiter.fuel_for. simpl. lia. }
  destruct Hrun as [r Hr].
  assert (Hquiet : forall p,
    (forall l m, p (EvLog l m) = false) -> (forall f, p (EvExistsSync f) = false) ->
    (forall t, p (EvSetTimeout t) = false) -> count p (Waiter.trace r) = 0%nat).
  { intros p H1 H2 H3. unfold Waiter.waitForInputs in Hr.
    by rewrite (waiter_run_count p _ _ _ _ H1 H2 H3 Hr). }
  rewrite Hr.
  repeat case_match; try exact Hskip.
  exists (emit (Waiter.trace r) s), (Waiter.promise r), (Waiter.trace r).
  repeat split; by apply Hquiet.
Qed.

(** Steps 3 to 6: the run is total; it spawns at most [max(1, numRetries)]
    processes, notifies at most once, removes the job from [hf_all_jobs]
    only after a notification, and a rejection of its promise means that
    nothing was spawned, notified or removed and the store is untouched. *)
Lemma runJob_effects jm s :
  exists s' p evs, runJob env w taskId jm s = Some (s', p) /\
    trace s' = trace s ++ evs /\
    (count is_spawn evs <= Z.to_nat (Z.max 1 (numRetries s)))%nat /\
    (count is_srem evs <= count is_notify evs <= 1)%nat /\
    count is_retrieval evs = 0%nat /\
    count is_completion_check evs = 0%nat /\
    p ≠ Js.Resolved None /\
    (forall e, p = Js.Rejected e ->
       count is_spawn evs = 0%nat /\ count is_notify evs = 0%nat /\
       count is_srem evs = 0%nat /\ db s' = db s) /\
    ((0 < count is_srem evs)%nat ->
     exists code, In (EvNotify taskId code) evs /\ notify w taskId code = None).
Proof.
  unfold runJob.
  destruct (awaitInputs_effects jm s)
    as (s1 & ready & evs1 & -> & Hdb & Hn & Htr & Hsp & Hno & Hsr & Hre & Hcc).
  destruct ready as [|[]|e]; unfold await at 1.
  - exists s1, Js.Pending, evs1. rewrite Hsp, Hno, Hsr. repeat split; try done; lia.
  - set (s2 := emit _ (if enableNethogs env then _ else _)).
    assert (Htr2 : exists pre, trace s2 = trace s ++ evs1 ++ pre /\
              (forall p, (forall l m, p (EvLog l m) = false) ->
                         (forall b, p (EvNethogs b) = false) -> count p pre = 0%nat)).
    { unfold s2. destruct (enableNethogs env); simpl; rewrite Htr, <- !app_assoc;
        eexists; (split; [reflexivity|]); intros p H1 H2; tally; by rewrite ?H1, ?H2. }
    assert (Hn2 : numRetries s2 = numRetries s) by (unfold s2; by destruct (enableNethogs env)).
    destruct Htr2 as (pre & Htr2 & Hpre).
    destruct (executeJob_terminates env w taskId (fuel_for s2) jm 1 s2) as [[s3 job] Hexec];
      [unfold fuel_for; lia|].
    rewrite Hexec.
    destruct (executeJob_effects env w taskId _ _ _ _ _ _ Hexec)
      as (evs3 & Htr3 & Hsp3 & Hno3 & Hre3 & _ & Hcc3 & Hrej & Hrm).
    rewrite Hn2 in Hsp3.
    destruct job as [|code|e]; simpl; [| |by destruct (Hrej e)].
    + exists s3, Js.Pending, (evs1 ++ pre ++ evs3).
      split; [done|]. split; [by rewrite Htr3, Htr2, <- !app_assoc|].
      tally. rewrite !Hpre by done. repeat split; try done; try lia.
      intros Hpos. destruct Hrm as (c & Hin & Hok); [lia|].
      exists c. split; [|done]. rewrite !in_app_iff. auto.
    + destruct (enableNethogs env);
        eexists _, _, (evs1 ++ pre ++ evs3 ++ _);
        (split; [reflexivity|]);
        (split; [simpl; rewrite Htr3, Htr2, <- !app_assoc; reflexivity|]);
        tally; rewrite !Hpre by done; repeat split; try done; try lia;
        intros Hpos; (destruct Hrm as (c & Hin & Hok); [lia|]);
        exists c; (split; [|done]); rewrite !in_app_iff; auto.
  - exists s1, (Js.Rejected e), evs1. rewrite Hsp, Hno, Hsr. repeat split; try done; lia.
Qed.

Lemma brpoplpush_sets src dst timeout d :
  Redis.sets (fst (Redis.brpoplpush src dst timeout d)) = Redis.sets d.
Proof.
  unfold Redis.brpoplpush, Redis.rpop. by destruct (Redis.lrange src d).
Qed.

Lemma getJobMessage_effects timeout s :
  let '(s', p) := getJobMessage w taskId timeout s in
  trace s' = trace s ++ [EvRedis (Brpoplpush (jobMsgKey taskId) (jobMsgKey taskId) timeout)] /\
  numRetries s' = numRetries s /\
  Redis.sets (db s') = Redis.sets (db s).
Proof.
  unfold getJobMessage. destruct (fault w _); [done|].
  pose proof (brpoplpush_sets (jobMsgKey taskId) (jobMsgKey taskId) timeout (db s)) as Hs.
  simpl. destruct (Redis.brpoplpush _ _ _ _) as [d []]; done.
Qed.

(** Step 2 and what follows: one retrieval; a rejection of the promise
    means that nothing was spawned, notified or removed and that the sets
    of the store are as before. *)
Lemma retrieveAndRun_effects s :
  exists s' p evs, retrieveAndRun env w taskId s = Some (s', p) /\
    trace s' = trace s ++ evs /\
    (count is_spawn evs <= Z.to_nat (Z.max 1 (numRetries s)))%nat /\
    (count is_srem evs <= count is_notify evs <= 1)%nat /\
    count is_retrieval evs = 1%nat /\
    count is_completion_check evs = 0%nat /\
    p ≠ Js.Resolved None /\
    (forall e, p = Js.Rejected e ->
       count is_spawn evs = 0%nat /\ count is_notify evs = 0%nat /\
       count is_srem evs = 0%nat /\ Redis.sets (db s') = Redis.sets (db s)) /\
    ((0 < count is_srem evs)%nat ->
     exists code, In (EvNotify taskId code) evs /\ notify w taskId code = None).
Proof.
  unfold retrieveAndRun.
  pose proof (getJobMessage_effects 0 s) as Hget.
  destruct (getJobMessage w taskId 0 s) as [s1 msg].
  destruct Hget as (Htr & Hn & Hsets).
  destruct msg as [|[text|]|e]; unfold await at 1.
  - eexists _, _, _. split; [reflexivity|]. split; [exact Htr|].
    tally. repeat split; try done; lia.
  - destruct (JSON_parse w text) as [jm|].
    + match goal with |- context [runJob env w taskId jm ?st] =>
        destruct (runJob_effects jm st)
          as (s2 & p & evs & -> & Htr2 & Hsp & Hno & Hre & Hcc & Hp & Hrej & Hrm) end.
      simpl in Htr2, Hsp. rewrite Hn in Hsp.
      eexists _, _, _. split; [reflexivity|].
      split; [rewrite Htr2, Htr, <- !app_assoc; reflexivity|].
      tally. split; [lia|]. split; [lia|]. split; [lia|]. split; [lia|]. split; [done|].
      split.
      * intros e He. destruct (Hrej e He) as (? & ? & ? & Hdb). rewrite Hdb.
        repeat split; try lia. done.
      * intros Hpos. destruct Hrm as (c & Hin & Hok); [lia|].
        exists c. split; [|done]. find_in.
    + eexists _, _, _. split; [reflexivity|].
      split; [simpl; rewrite Htr, <- !app_assoc; reflexivity|].
      tally. repeat split; try done; lia.
  - eexists _, _, _. split; [reflexivity|].
    split; [simpl; rewrite Htr, <- !app_assoc; reflexivity|].
    tally. repeat split; try done; lia.
  - eexists _, _, _. split; [reflexivity|].
    split; [simpl; rewrite Htr, <- !app_assoc; reflexivity|].
    tally. repeat split; try done; lia.
Qed.

End StageFacts.

(** ** The task-handling run *)

Section RunFacts.
Import Handler.

Variable env : Env.
Variable w : World.
Variable taskId : string.

Lemma sadd_member key m d : m ∈ Redis.smembers key (Redis.sadd key m d).
Proof. unfold Redis.smembers, Redis.sadd; simpl. rewrite lookup_insert_eq. set_solver. Qed.

Lemma sadd_mono key m k x d :
  x ∈ Redis.smembers k d -> x ∈ Redis.smembers k (Redis.sadd key m d).
Proof.
  unfold Redis.smembers, Redis.sadd; simpl. intros Hx.
  destruct (decide (key = k)) as [->|Hne].
  - rewrite lookup_insert_eq. set_solver.
  - by rewrite lookup_insert_ne.
Qed.

(** Events and store effect of [addToAllJobs]. *)
Lemma addToAllJobs_effects s :
  let s' := addToAllJobs env w taskId s in
  exists tail, trace s' = trace s ++ EvRedis (Sadd "hf_all_jobs" (allJobsMember env taskId)) :: tail /\
    (tail = [] \/ exists e, tail = [EvConsole (MError e)]) /\
    numRetries s' = numRetries s /\
    (forall k x, x ∈ Redis.smembers k (db s) -> x ∈ Redis.smembers k (db s')) /\
    (fault w (Sadd "hf_all_jobs" (allJobsMember env taskId)) = None ->
     allJobsMember env taskId ∈ Redis.smembers "hf_all_jobs" (db s')).
Proof.
  unfold addToAllJobs. destruct (fault w _) as [e|]; simpl.
  - exists [EvConsole (MError e)]. repeat split; eauto. done.
  - exists []. repeat split; eauto using sadd_mono, sadd_member.
Qed.

Lemma smembers_sets k d d' :
  Redis.sets d' = Redis.sets d -> Redis.smembers k d' = Redis.smembers k d.
Proof. unfold Redis.smembers. by intros ->. Qed.

(** C2 (amended): for every task id already in the CompletionMarker set,
    a handling run performs no spawn and no completion notification, and
    skips message retrieval and input waiting; when the store answers the
    counter increment and the membership test without error, it returns
    success (resolves to [undefined]) immediately. *)
Theorem completed_task_short_circuits (d : Redis.Store) :
  Redis.sismember (completedTasksKey taskId) taskId d = true ->
  exists s p, handleJob env w taskId d = Some (s, p) /\
    count is_spawn (trace s) = 0%nat /\
    count is_notify (trace s) = 0%nat /\
    count is_retrieval (trace s) = 0%nat /\
    count is_exists_check (trace s) = 0%nat /\
    (fault w (Incr (acqCountKey taskId)) = None ->
     fault w (Sismember (completedTasksKey taskId) taskId) = None ->
     p = Js.Resolved None).
Proof.
  intros Hdone. unfold handleJob.
  set (s0 := mkState d _ [] []).
  destruct (addToAllJobs_effects s0) as (tail & Htr & Htail & _ & Hmono & _).
  assert (Hin : taskId ∈ Redis.smembers (completedTasksKey taskId)
                  (db (addToAllJobs env w taskId s0))).
  { apply Hmono. unfold Redis.sismember in Hdone. by apply bool_decide_eq_true in Hdone. }
  assert (Hquiet : forall p, p (EvRedis (Sadd "hf_all_jobs" (allJobsMember env taskId))) = false ->
            (forall m, p (EvConsole m) = false) ->
            count p (trace (addToAllJobs env w taskId s0)) = 0%nat).
  { intros p H1 H2. rewrite Htr. destruct Htail as [->|[e ->]]; tally; by rewrite H1, ?H2. }
  unfold acquireTask. destruct (fault w (Incr _)) as [e|].
  { eexists _, _. split; [reflexivity|]. simpl. tally. rewrite !Hquiet by done. done. }
  simpl. unfold hasCompleted.
  destruct (fault w (Sismember _ _)) as [e|]; simpl.
  { eexists _, _. split; [reflexivity|].
    unfold warnIfAcquired. destruct (Z.ltb _ _); simpl; tally; by rewrite !Hquiet. }
  match goal with |- context [Redis.sismember ?k ?x ?dd] =>
    assert (Hyes : Redis.sismember k x dd = true) end.
  { unfold Redis.sismember. apply bool_decide_eq_true.
    unfold warnIfAcquired. by destruct (Z.ltb _ _). }
  rewrite Hyes.
  eexists _, _. split; [reflexivity|].
  unfold warnIfAcquired. destruct (Z.ltb _ _); simpl; tally; by rewrite !Hquiet.
Qed.

(** What every run does, and what a run that returns [undefined] or
    rejects has not done. *)
Lemma handleJob_effects (d : Redis.Store) :
  exists s p rest, handleJob env w taskId d = Some (s, p) /\
    trace s = EvRedis (Sadd "hf_all_jobs" (allJobsMember env taskId)) :: rest /\
    (count is_spawn (trace s)
       <= Z.to_nat (Z.max 1 (Js.or_default (HF_VAR_NUMBER_OF_RETRIES env) 1)))%nat /\
    (count is_srem (trace s) <= count is_notify (trace s) <= 1)%nat /\
    ((0 < count is_srem (trace s))%nat ->
     exists code, In (EvNotify taskId code) (trace s) /\ notify w taskId code = None) /\
    (p = Js.Resolved None \/ (exists e, p = Js.Rejected e) ->
     count is_spawn (trace s) = 0%nat /\ count is_notify (trace s) = 0%nat /\
     count is_srem (trace s) = 0%nat /\
     (fault w (Sadd "hf_all_jobs" (allJobsMember env taskId)) = None ->
      allJobsMember env taskId ∈ Redis.smembers "hf_all_jobs" (db s))).
Proof.
  unfold handleJob.
  set (s0 := mkState d _ [] []).
  destruct (addToAllJobs_effects s0) as (tail & Htr & Htail & Hn & _ & Hmem).
  simpl in Htr.
  assert (Hquiet : forall p, p (EvRedis (Sadd "hf_all_jobs" (allJobsMember env taskId))) = false ->
            (forall m, p (EvConsole m) = false) ->
            count p (trace (addToAllJobs env w taskId s0)) = 0%nat).
  { intros p H1 H2. rewrite Htr. destruct Htail as [->|[e ->]]; tally; by rewrite H1, ?H2. }
  unfold acquireTask. destruct (fault w (Incr _)) as [e|].
  { eexists _, _, _. split; [reflexivity|]. simpl.
    split; [rewrite Htr; reflexivity|]. tally. rewrite !Hquiet by done.
    repeat split; try lia. done. }
  simpl. unfold hasCompleted.
  destruct (fault w (Sismember _ _)) as [e|]; simpl.
  { unfold warnIfAcquired. destruct (Z.ltb _ _);
      eexists _, _, _; (split; [reflexivity|]); simpl;
      (split; [rewrite Htr; reflexivity|]); tally; rewrite !Hquiet by done;
      repeat split; try lia; done. }
  destruct (Redis.sismember _ _ _).
  { unfold warnIfAcquired. destruct (Z.ltb _ _);
      eexists _, _, _; (split; [reflexivity|]); simpl;
      (split; [rewrite Htr; reflexivity|]); tally; rewrite !Hquiet by done;
      repeat split; try lia; done. }
  match goal with |- context [retrieveAndRun env w taskId ?st] =>
    destruct (retrieveAndRun_effects env w taskId st)
      as (s' & p & evs & -> & Htr' & Hsp & Hno & _ & _ & Hp & Hrej & Hrm);
    assert (Hst : exists mid, trace st = trace (addToAllJobs env w taskId s0) ++ mid /\
                    (forall q, (forall l m, q (EvLog l m) = false) ->
                               (forall c, q (EvRedis c) = false) -> count q mid = 0%nat) /\
                    count is_srem mid = 0%nat /\
                    numRetries st = numRetries s0 /\
                    Redis.sets (db st) = Redis.sets (db (addToAllJobs env w taskId s0)));
      [|destruct Hst as (mid & Hmid & Hq & Hsr & Hnr & Hsets)]
  end.
  { unfold warnIfAcquired. destruct (Z.ltb _ _); simpl; rewrite <- !app_assoc;
      eexists; (split; [reflexivity|]); (split; [intros q H1 H2; tally; by rewrite ?H1, ?H2|]);
      done. }
  exists s', p. eexists. split; [reflexivity|].
  split; [rewrite Htr', Hmid, Htr; reflexivity|].
  rewrite Hnr in Hsp. simpl in Hsp.
  rewrite Htr', Hmid. tally.
  rewrite !Hquiet, (Hq is_spawn), (Hq is_notify), Hsr by done.
  split; [lia|]. split; [lia|]. split.
  - intros Hpos. destruct Hrm as (c & Hin & Hok); [lia|].
    exists c. split; [|done]. rewrite !in_app_iff. auto.
  - intros [->|[e ->]]; [done|].
    destruct (Hrej e eq_refl) as (? & ? & ? & Hdb).
    repeat split; try lia.
    intros Hok.
    rewrite (smembers_sets _ _ _ Hdb), (smembers_sets _ _ _ Hsets). by apply Hmem.
Qed.


(** The number of spawns of a run is at most one plus the configured
    retry count, when that count is not negative. *)
Lemma spawns_at_most_retries_plus_one (d : Redis.Store) (R : Z) :
  HF_VAR_NUMBER_OF_RETRIES env = Some R -> 0 <= R ->
  exists s p, handleJob env w taskId d = Some (s, p) /\
    (count is_spawn (trace s) <= Z.to_nat (1 + R))%nat.
Proof.
  intros HR Hpos.
  destruct (handleJob_effects d) as (s & p & rest & Hrun & _ & Hsp & _).
  exists s, p. split; [done|]. rewrite HR in Hsp. simpl in Hsp. lia.
Qed.

(** The promise of a run is never rejected once a process was spawned or
    a notification sent: in particular not by a failing notification. *)
Lemma rejection_precedes_spawn (d : Redis.Store) s e :
  handleJob env w taskId d = Some (s, Js.Rejected e) ->
  count is_spawn (trace s) = 0%nat /\ count is_notify (trace s) = 0%nat.
Proof.
  intros Hrun.
  destruct (handleJob_effects d) as (s' & p & rest & Hrun' & _ & _ & _ & _ & Habort).
  rewrite Hrun in Hrun'. injection Hrun' as <- <-.
  by destruct Habort as (? & ? & _); [right; eauto|].
Qed.

Lemma addToAllJobs_counters s :
  Redis.counters (db (addToAllJobs env w taskId s)) = Redis.counters (db s).
Proof. unfold addToAllJobs. by destruct (fault w _). Qed.

(** C9 (amended): the acquire step fails the run exactly when the
    counter increment returns a store error, which rejects the run before
    the completion check.  For every count the increment returns, also one
    greater than 1, the run logs at most the duplicate-acquisition warning
    and goes on to the completion check; nothing else is done about it. *)
Theorem acquire_fails_only_on_store_error (d : Redis.Store) :
  exists s p, handleJob env w taskId d = Some (s, p) /\
    match fault w (Incr (acqCountKey taskId)) with
    | Some e => p = Js.Rejected e /\ count is_completion_check (trace s) = 0%nat
    | None =>
        let n := default 0 (Redis.counters d !! acqCountKey taskId) + 1 in
        exists pre rest,
          trace s = pre ++ [EvRedis (Incr (acqCountKey taskId))]
                        ++ (if Z.ltb 1 n then [EvLog Warn (MAcquiredBefore (n - 1))] else [])
                        ++ [EvRedis (Sismember (completedTasksKey taskId) taskId)] ++ rest /\
          count is_completion_check pre = 0%nat
    end.
Proof.
  unfold handleJob.
  set (s0 := mkState d _ [] []).
  destruct (addToAllJobs_effects s0) as (tail & Htr & Htail & _).
  pose proof (addToAllJobs_counters s0) as Hcnt. simpl in Htr, Hcnt.
  assert (Hpre : count is_completion_check
                   (trace (addToAllJobs env w taskId s0) ++ [EvLog Info MHandlerStarted]) = 0%nat).
  { rewrite Htr. by destruct Htail as [->|[e ->]]. }
  unfold acquireTask. destruct (fault w (Incr _)) as [e|].
  { eexists _, _. split; [reflexivity|]. split; [done|]. simpl.
    rewrite count_app, Hpre. done. }
  simpl. rewrite Hcnt. unfold hasCompleted, warnIfAcquired.
  destruct (fault w (Sismember _ _)) as [e|]; simpl.
  { destruct (Z.ltb _ _); eexists _, _; (split; [reflexivity|]);
      exists (trace (addToAllJobs env w taskId s0) ++ [EvLog Info MHandlerStarted]), [];
      (split; [simpl; by rewrite <- !app_assoc | exact Hpre]). }
  match goal with |- context [Redis.sismember ?k ?x ?dd] => destruct (Redis.sismember k x dd) end.
  { destruct (Z.ltb _ _); eexists _, _; (split; [reflexivity|]);
      exists (trace (addToAllJobs env w taskId s0) ++ [EvLog Info MHandlerStarted]);
      eexists; (split; [simpl; rewrite <- !app_assoc; reflexivity | exact Hpre]). }
  match goal with |- context [retrieveAndRun env w taskId ?st] =>
    destruct (retrieveAndRun_effects env w taskId st) as (s' & p & evs & -> & Htr' & _)
  end.
  exists s', p. split; [reflexivity|].
  exists (trace (addToAllJobs env w taskId s0) ++ [EvLog Info MHandlerStarted]), evs.
  split; [|exact Hpre]. rewrite Htr'.
  destruct (Z.ltb _ _); simpl; by rewrite <- !app_assoc.
Qed.

End RunFacts.

Lemma completed_task_short_circuits_witness :
  let env := Scenario.env_retries (Some 2) in
  let w := Scenario.world_exiting 1 in
  Redis.sismember (Handler.completedTasksKey Scenario.task) Scenario.task
    Scenario.store_completed = true /\
  exists s, Handler.handleJob env w Scenario.task Scenario.store_completed
              = Some (s, Js.Resolved None) /\
            count is_spawn (Handler.trace s) = 0%nat /\
            count is_notify (Handler.trace s) = 0%nat.
Proof.
  intros env w.
  assert (H : Redis.sismember (Handler.completedTasksKey Scenario.task) Scenario.task
                Scenario.store_completed = true) by (vm_compute; reflexivity).
  destruct (completed_task_short_circuits env w Scenario.task Scenario.store_completed H)
    as (s & p & Hrun & Hsp & Hno & _ & _ & Hp).
  split; [exact H|]. exists s.
  rewrite <- (Hp eq_refl eq_refl). exact (conj Hrun (conj Hsp Hno)).
Defined.

(** C2, as stated, fails when the store does not answer: for a task
    already in the CompletionMarker set, an error of the counter increment
    rejects the run with that error before the completion check, so the
    run does not return success. *)
Lemma completed_task_rejected_on_store_error :
  Redis.sismember (Handler.completedTasksKey Scenario.task) Scenario.task
    Scenario.store_completed = true /\
  option_map (fun r => (snd r, count is_spawn (Handler.trace (fst r)),
                        count is_completion_check (Handler.trace (fst r))))
    (Handler.handleJob (Scenario.env_retries None) Scenario.world_incr_down
       Scenario.task Scenario.store_completed)
  = Some (Js.Rejected "ECONNREFUSED", 0%nat, 0%nat).
Proof. split; vm_compute; reflexivity. Qed.

Lemma acquire_fails_only_on_store_error_witness :
  exists s p, Handler.handleJob (Scenario.env_retries None) Scenario.world_incr_down
                Scenario.task Scenario.store_one = Some (s, p) /\
              p = Js.Rejected "ECONNREFUSED" /\
              count is_completion_check (Handler.trace s) = 0%nat.
Proof.
  destruct (acquire_fails_only_on_store_error (Scenario.env_retries None)
              Scenario.world_incr_down Scenario.task Scenario.store_one)
    as (s & p & Hrun & Hcase).
  exists s, p. exact (conj Hrun Hcase).
Defined.

(** C9, as stated, fails when the counter increment returns an error: the
    run is rejected with that error at the acquire step and the completion
    check is never reached. *)
Lemma acquire_error_fails_run :
  option_map (fun r => (snd r, count is_completion_check (Handler.trace (fst r))))
    (Handler.handleJob (Scenario.env_retries None) Scenario.world_incr_down
       Scenario.task Scenario.store_one)
  = Some (Js.Rejected "ECONNREFUSED", 0%nat).
Proof. vm_compute. reflexivity. Qed.


(** The two fatal aborts named with C10, on concrete runs: a retrieval
    error and an input-wait timeout reject the run without any spawn or
    removal, and leave the member in [hf_all_jobs]. *)
Lemma retrieval_error_leaves_member :
  option_map (fun r => (snd r, count is_spawn (Handler.trace (fst r)),
                        count is_srem (Handler.trace (fst r)),
                        Redis.sismember "hf_all_jobs"
                          "task:wf1:0#undefined#undefined#undefined" (Handler.db (fst r))))
    (Handler.handleJob (Scenario.env_retries None) Scenario.world_retrieval_down
       Scenario.task Scenario.store_one)
  = Some (Js.Rejected "ECONNRESET", 0%nat, 0%nat, true).
Proof. vm_compute. reflexivity. Qed.

Lemma input_wait_timeout_leaves_member :
  option_map (fun r => (snd r, count is_spawn (Handler.trace (fst r)),
                        count is_srem (Handler.trace (fst r)),
                        count is_round (Handler.trace (fst r)),
                        Redis.sismember "hf_all_jobs"
                          "task:wf1:0#undefined#undefined#undefined" (Handler.db (fst r))))
    (Handler.handleJob Scenario.env_waiting Scenario.world_without_files
       Scenario.task Scenario.store_one)
  = Some (Js.Rejected "Error waiting for input files", 0%nat, 0%nat, 3%nat, true).
Proof. vm_compute. reflexivity. Qed.

(** ** Retries and notification on concrete runs *)

(** C1, evaluated on the code: with [HF_VAR_NUMBER_OF_RETRIES=2] and a
    command that exits with code 1 on every attempt, the run spawns the
    process twice, not three times, and sends one notification carrying
    code 1. *)
Theorem two_retries_give_two_spawns :
  option_map (fun r => (count is_spawn (Handler.trace (fst r)),
                        notified (Handler.trace (fst r))))
    (Handler.handleJob (Scenario.env_retries (Some 2)) (Scenario.world_exiting 1)
       Scenario.task Scenario.store_one)
  = Some (2%nat, [1]).
Proof. vm_compute. reflexivity. Qed.

(** C7, evaluated on the code: when [notifyJobCompletion] rejects after the
    terminal exit, the error is printed and logged and no second
    notification is attempted, but the error is thrown inside the 'close'
    listener: it is left as an unhandled rejection and the promise held by
    the caller of [handleJob] is never settled. *)
Theorem notification_failure_not_raised_to_caller :
  option_map (fun r => (snd r, Handler.unhandled (fst r),
                        count is_notify (Handler.trace (fst r)),
                        List.filter (fun e => match e with
                                              | EvLog Error _ | EvConsole (MNotificationFailed _) => true
                                              | _ => false
                                              end) (Handler.trace (fst r))))
    (Handler.handleJob (Scenario.env_retries None) (Scenario.world_notifier_down 0)
       Scenario.task Scenario.store_one)
  = Some (Js.Pending, ["ECONNRESET"], 1%nat,
          [EvConsole (MNotificationFailed "ECONNRESET");
           EvLog Error (MNotificationFailed "ECONNRESET")]).
Proof. vm_compute. reflexivity. Qed.

(** * Further properties of the code *)

(** ** Counting helpers *)

Lemma count_zero_notified (l : list Event) : count is_notify l = 0%nat -> notified l = [].
Proof.
  induction l as [|e l IH]; [done|]. rewrite count_cons, notified_cons.
  destruct e; simpl; try (intros H; by rewrite IH); lia.
Qed.

Lemma timers_app (a b : list Event) : timers (a ++ b) = timers a ++ timers b.
Proof. apply omap_app. Qed.

(** ** The process executor, continued *)

Section ExecutorMore.
Import Handler.

Variable env : Env.
Variable w : World.
Variable taskId : string.

(** Every spawn of a call of [executeJob] takes one unit off [numRetries],
    and every spawn but the first follows exactly one backoff timer. *)
Theorem each_spawn_consumes_one_retry fuel jm attempt s s' p :
  executeJob env w taskId fuel jm attempt s = Some (s', p) ->
  exists evs, trace s' = trace s ++ evs /\
    numRetries s' = numRetries s - Z.of_nat (count is_spawn evs) /\
    count is_timer evs = (count is_spawn evs - 1)%nat.
Proof.
  revert attempt s s' p. induction fuel as [|fuel IH]; intros attempt s s' p Hrun; [done|].
  simpl in Hrun. destruct (exit_code w attempt) as [code|].
  2:{ injection Hrun as <- <-. eexists. split; [simpl; reflexivity|].
      tally. split; [lia|done]. }
  destruct (negb (code =? 0)%Z && (0 <? numRetries s - 1)%Z) eqn:Hretry.
  - match type of Hrun with context [executeJob _ _ _ fuel jm ?a ?st] =>
      destruct (executeJob env w taskId fuel jm a st) as [[s2 p2]|] eqn:Hrec; [|done];
      destruct (IH _ _ _ _ Hrec) as (evs & Htr & Hn & Ht);
      destruct (executeJob_effects env w taskId _ _ _ _ _ _ Hrec) as (evs' & Htr' & Hsp & _)
    end.
    rewrite Htr in Htr'. apply app_inv_head in Htr'. subst evs'.
    injection Hrun as <- <-. simpl in Htr, Hn.
    eexists. split; [rewrite Htr, <- !app_assoc; reflexivity|].
    tally. rewrite Hn, Ht. split; lia.
  - destruct (notify w taskId code) as [err|].
    + injection Hrun as <- <-. eexists. split; [simpl; rewrite <- !app_assoc; reflexivity|].
      tally. split; [lia|done].
    + destruct (inputs jm) as [ins|], (outputs jm) as [outs|];
        injection Hrun as <- <-.
      2-4: eexists; (split; [simpl; rewrite <- !app_assoc; reflexivity|]);
           tally; (split; [lia|done]).
      match goal with |- context [removeFromAllJobs env w taskId ?st] =>
        destruct (removeFromAllJobs_trace env w taskId st) as (tail & Htr & Htail & Hn) end.
      eexists. split; [simpl; rewrite Htr; simpl; rewrite <- !app_assoc; reflexivity|].
      destruct Htail as [->|[e ->]]; tally; rewrite Hn; simpl; (split; [lia|done]).
Qed.

(** A command that fails on its first [n] attempts and then exits with 0
    is spawned [n + 1] times and notified once, with code 0, provided
    [numRetries] exceeds [n] when the call starts (or [n] is 0). *)
Theorem success_after_failures (n : nat) fuel jm attempt s s' p :
  (forall i, (i < n)%nat -> exists c, exit_code w (attempt + Z.of_nat i) = Some c /\ c ≠ 0) ->
  exit_code w (attempt + Z.of_nat n) = Some 0 ->
  (n = 0%nat \/ Z.of_nat n < numRetries s) ->
  executeJob env w taskId fuel jm attempt s = Some (s', p) ->
  exists evs, trace s' = trace s ++ evs /\
    count is_spawn evs = S n /\ notified evs = [0].
Proof.
  revert fuel attempt s s' p.
  induction n as [|n IH]; intros fuel attempt s s' p Hfail Hok Hbudget Hrun.
  - destruct fuel as [|fuel]; [done|]. simpl in Hrun.
    rewrite Z.add_0_r in Hok. rewrite Hok in Hrun. simpl in Hrun.
    destruct (notify w taskId 0) as [err|].
    + injection Hrun as <- <-. eexists. split; [simpl; rewrite <- !app_assoc; reflexivity|].
      tally. tally_notified. done.
    + destruct (inputs jm) as [ins|], (outputs jm) as [outs|];
        injection Hrun as <- <-.
      2-4: eexists; (split; [simpl; rewrite <- !app_assoc; reflexivity|]);
           tally; tally_notified; done.
      match goal with |- context [removeFromAllJobs env w taskId ?st] =>
        destruct (removeFromAllJobs_trace env w taskId st) as (tail & Htr & Htail & _) end.
      eexists. split; [simpl; rewrite Htr; simpl; rewrite <- !app_assoc; reflexivity|].
      destruct Htail as [->|[e ->]]; tally; tally_notified; done.
  - destruct fuel as [|fuel]; [done|]. simpl in Hrun.
    destruct (Hfail 0%nat) as (c & Hc & Hnz); [lia|].
    rewrite Z.add_0_r in Hc. rewrite Hc in Hrun.
    apply Z.eqb_neq in Hnz as Hnzb. rewrite Hnzb in Hrun. simpl in Hrun.
    destruct (Z.ltb_spec 0 (numRetries s - 1)) as [Hpos|Hle]; [|lia].
    match type of Hrun with context [executeJob _ _ _ fuel jm ?a ?st] =>
      destruct (executeJob env w taskId fuel jm a st) as [[s2 p2]|] eqn:Hrec; [|done];
      destruct (IH fuel a st s2 p2) as (evs & Htr & Hsp & Hno)
    end.
    + intros i Hi. destruct (Hfail (S i)) as (c' & Hc' & Hnz'); [lia|].
      exists c'. split; [|done]. rewrite <- Hc'. f_equal. lia.
    + rewrite <- Hok. f_equal. lia.
    + simpl. destruct n; [by left|right; lia].
    + done.
    + injection Hrun as <- <-. simpl in Htr.
      eexists. split; [rewrite Htr, <- !app_assoc; reflexivity|].
      tally. tally_notified. rewrite Hsp, Hno. done.
Qed.

(** A call of [executeJob] whose attempt fails while retries are left
    never settles its own promise: the retry runs as a new call whose
    promise nobody holds. *)
Lemma executeJob_retry_pending fuel jm attempt s s' p c :
  exit_code w attempt = Some c -> c ≠ 0 -> 1 < numRetries s ->
  executeJob env w taskId fuel jm attempt s = Some (s', p) ->
  p = Js.Pending /\ (2 <= count is_spawn (trace s') - count is_spawn (trace s))%nat.
Proof.
  intros Hc Hnz Hleft Hrun. destruct fuel as [|fuel]; [done|]. simpl in Hrun.
  rewrite Hc in Hrun. apply Z.eqb_neq in Hnz as Hnzb. rewrite Hnzb in Hrun. simpl in Hrun.
  destruct (Z.ltb_spec 0 (numRetries s - 1)) as [_|?]; [|lia].
  match type of Hrun with context [executeJob _ _ _ fuel jm ?a ?st] =>
    destruct (executeJob env w taskId fuel jm a st) as [[s2 p2]|] eqn:Hrec; [|done];
    destruct (executeJob_effects env w taskId _ _ _ _ _ _ Hrec) as (evs & Htr & Hsp & _)
  end.
  injection Hrun as <- <-. split; [done|].
  rewrite Htr. simpl. tally. lia.
Qed.

(** A call of [executeJob] resolves its promise only with the exit code
    of its own attempt, after that code was notified and accepted, the
    declared input and output sizes were logged and the member was removed
    from [hf_all_jobs]; the attempt was the only spawn of the call. *)
Lemma executeJob_resolved fuel jm attempt s s' code :
  executeJob env w taskId fuel jm attempt s = Some (s', Js.Resolved code) ->
  exit_code w attempt = Some code /\
  notify w taskId code = None /\
  (code = 0 \/ numRetries s <= 1) /\
  db s' = db (removeFromAllJobs env w taskId s) /\
  exists evs, trace s' = trace s ++ evs /\
    count is_spawn evs = 1%nat /\ notified evs = [code] /\
    count is_srem evs = 1%nat /\ count is_timer evs = 0%nat.
Proof.
  intros Hrun. destruct fuel as [|fuel]; [done|]. simpl in Hrun.
  destruct (exit_code w attempt) as [c|]; [|done].
  destruct (negb (c =? 0)%Z && (0 <? numRetries s - 1)%Z) eqn:Hretry.
  { by destruct (executeJob _ _ _ _ _ _ _) as [[]|]. }
  destruct (notify w taskId c) as [err|] eqn:Hnotify; [done|].
  destruct (inputs jm) as [ins|], (outputs jm) as [outs|]; try done.
  injection Hrun as <- <-.
  split; [done|]. split; [done|]. split.
  { apply andb_false_iff in Hretry as [H|H].
    - left. apply negb_false_iff in H. by apply Z.eqb_eq.
    - right. apply Z.ltb_ge in H. lia. }
  split.
  { unfold removeFromAllJobs. by destruct (fault w _). }
  match goal with |- context [removeFromAllJobs env w taskId ?st] =>
    destruct (removeFromAllJobs_trace env w taskId st) as (tail & Htr & Htail & _) end.
  eexists. split; [simpl; rewrite Htr; simpl; rewrite <- !app_assoc; reflexivity|].
  destruct Htail as [->|[e ->]]; tally; tally_notified; done.
Qed.

(** With a descriptor that declares no [inputs] or no [outputs], no call
    of [executeJob] ever settles its promise or sends the removal of the
    member from [hf_all_jobs]: after an accepted notification the size
    report throws inside the listener. *)
Theorem descriptor_without_manifest_never_returns fuel jm attempt s s' p :
  inputs jm = None \/ outputs jm = None ->
  executeJob env w taskId fuel jm attempt s = Some (s', p) ->
  p = Js.Pending /\ count is_srem (trace s') = count is_srem (trace s).
Proof.
  intros Hbare.
  revert attempt s s' p. induction fuel as [|fuel IH]; intros attempt s s' p Hrun; [done|].
  simpl in Hrun. destruct (exit_code w attempt) as [code|].
  2:{ injection Hrun as <- <-. simpl. tally. repeat split; lia. }
  destruct (negb (code =? 0)%Z && (0 <? numRetries s - 1)%Z).
  - match type of Hrun with context [executeJob _ _ _ fuel jm ?a ?st] =>
      destruct (executeJob env w taskId fuel jm a st) as [[s2 p2]|] eqn:Hrec; [|done];
      destruct (IH _ _ _ _ Hrec) as (_ & Hsr)
    end.
    injection Hrun as <- <-. rewrite Hsr. simpl. tally. repeat split; lia.
  - destruct (notify w taskId code) as [err|].
    + injection Hrun as <- <-. simpl. tally. repeat split; lia.
    + destruct (inputs jm) as [ins|], (outputs jm) as [outs|];
        try (injection Hrun as <- <-; simpl; tally; repeat split; lia).
      by destruct Hbare.
Qed.

End ExecutorMore.

Lemma each_spawn_consumes_one_retry_witness :
  exists s' p evs,
    Handler.executeJob (Scenario.env_retries None) (Scenario.world_exiting 1) Scenario.task
      3 Scenario.job_false 1 (Cases.start Scenario.store_one 2) = Some (s', p) /\
    Handler.trace s' = Handler.trace (Cases.start Scenario.store_one 2) ++ evs /\
    Handler.numRetries s' = 2 - Z.of_nat (count is_spawn evs) /\
    count is_timer evs = (count is_spawn evs - 1)%nat.
Proof.
  destruct (Handler.executeJob (Scenario.env_retries None) (Scenario.world_exiting 1)
              Scenario.task 3 Scenario.job_false 1 (Cases.start Scenario.store_one 2))
    as [[s' p]|] eqn:Hrun; [|vm_compute in Hrun; discriminate].
  destruct (each_spawn_consumes_one_retry _ _ _ _ _ _ _ _ _ Hrun) as (evs & H).
  exists s', p, evs. split; [reflexivity | exact H].
Defined.

Lemma success_after_failures_witness :
  exists s' p evs,
    Handler.executeJob (Scenario.env_retries None) Cases.world_flaky Scenario.task
      4 Scenario.job_false 1 (Cases.start Scenario.store_one 3) = Some (s', p) /\
    Handler.trace s' = Handler.trace (Cases.start Scenario.store_one 3) ++ evs /\
    count is_spawn evs = 3%nat /\ notified evs = [0].
Proof.
  destruct (Handler.executeJob (Scenario.env_retries None) Cases.world_flaky
              Scenario.task 4 Scenario.job_false 1 (Cases.start Scenario.store_one 3))
    as [[s' p]|] eqn:Hrun; [|vm_compute in Hrun; discriminate].
  destruct (success_after_failures (Scenario.env_retries None) Cases.world_flaky Scenario.task
              2 4 Scenario.job_false 1 (Cases.start Scenario.store_one 3) s' p) as (evs & H).
  - intros i Hi. exists 1. split; [|done].
    destruct i as [|[|i]]; [reflexivity | reflexivity | lia].
  - reflexivity.
  - right. simpl. lia.
  - exact Hrun.
  - exists s', p, evs. split; [reflexivity | exact H].
Defined.

Lemma descriptor_without_manifest_never_returns_witness :
  exists s' p,
    Handler.executeJob (Scenario.env_retries None) (Scenario.world_exiting 0) Scenario.task
      2 Cases.job_bare 1 (Cases.start Scenario.store_one 1) = Some (s', p) /\
    p = Js.Pending /\ count is_srem (Handler.trace s') = 0%nat /\
    notified (Handler.trace s') = [0].
Proof.
  destruct (Handler.executeJob (Scenario.env_retries None) (Scenario.world_exiting 0)
              Scenario.task 2 Cases.job_bare 1 (Cases.start Scenario.store_one 1))
    as [[s' p]|] eqn:Hrun; [|vm_compute in Hrun; discriminate].
  exists s', p. split; [reflexivity|].
  destruct (descriptor_without_manifest_never_returns (Scenario.env_retries None)
              (Scenario.world_exiting 0) Scenario.task 2 Cases.job_bare 1
              (Cases.start Scenario.store_one 1) s' p (or_introl eq_refl) Hrun)
    as (Hp & Hsr).
  split; [exact Hp|]. split; [exact Hsr|].
  vm_compute in Hrun. injection Hrun as <- _. reflexivity.
Defined.

(** ** Runs that return an exit code *)

Section ReturningRuns.
Import Handler.

Variable env : Env.
Variable w : World.
Variable taskId : string.

(** A run of steps 3 to 6 that resolves to an exit code went through one
    call of [executeJob] that resolved to it; before and after that call
    nothing is spawned, notified or removed, and the store is not touched. *)
Lemma runJob_resolved jm s s' code :
  runJob env w taskId jm s = Some (s', Js.Resolved (Some code)) ->
  exists s2 s3 pre post,
    trace s2 = trace s ++ pre /\ numRetries s2 = numRetries s /\ db s2 = db s /\
    executeJob env w taskId (fuel_for s2) jm 1 s2 = Some (s3, Js.Resolved code) /\
    trace s' = trace s3 ++ post /\ db s' = db s3 /\
    count is_spawn pre = 0%nat /\ count is_notify pre = 0%nat /\ count is_srem pre = 0%nat /\
    count is_spawn post = 0%nat /\ count is_notify post = 0%nat /\ count is_srem post = 0%nat.
Proof.
  unfold runJob.
  destruct (awaitInputs_effects env w jm s)
    as (s1 & ready & evs1 & -> & Hdb & Hn & Htr & Hsp & Hno & Hsr & _).
  destruct ready as [|[]|e]; unfold await at 1; [done| |done].
  set (s2 := emit _ (if enableNethogs env then _ else _)).
  destruct (executeJob env w taskId (fuel_for s2) jm 1 s2) as [[s3 job]|] eqn:Hexec; [|done].
  destruct job as [|c|e]; simpl; [done| |done].
  intros Hres.
  assert (Hc : c = code) by (destruct (enableNethogs env); by injection Hres).
  subst c. exists s2, s3.
  assert (Hpre : exists pre, trace s2 = trace s ++ pre /\ count is_spawn pre = 0%nat /\
            count is_notify pre = 0%nat /\ count is_srem pre = 0%nat).
  { unfold s2. destruct (enableNethogs env); simpl; rewrite Htr, <- !app_assoc;
      eexists; (split; [reflexivity|]); tally; by rewrite Hsp, Hno, Hsr. }
  destruct Hpre as (pre & Hpre & ? & ? & ?).
  assert (Hpost : exists post, trace s' = trace s3 ++ post /\ db s' = db s3 /\
            count is_spawn post = 0%nat /\ count is_notify post = 0%nat /\
            count is_srem post = 0%nat).
  { destruct (enableNethogs env); injection Hres as <-; simpl; rewrite <- ?app_assoc;
      eexists; (split; [reflexivity|]); done. }
  destruct Hpost as (post & Hpost & ? & ? & ? & ?).
  exists pre, post. repeat split; try done.
  - unfold s2. by destruct (enableNethogs env).
  - unfold s2. by destruct (enableNethogs env).
Qed.

Lemma brpoplpush_counters src dst timeout d :
  Redis.counters (fst (Redis.brpoplpush src dst timeout d)) = Redis.counters d.
Proof.
  unfold Redis.brpoplpush, Redis.rpop. by destruct (Redis.lrange src d).
Qed.

Lemma getJobMessage_frame timeout s :
  Redis.counters (db (fst (getJobMessage w taskId timeout s))) = Redis.counters (db s) /\
  Redis.sets (db (fst (getJobMessage w taskId timeout s))) = Redis.sets (db s).
Proof.
  unfold getJobMessage. destruct (fault w _); [done|].
  pose proof (brpoplpush_counters (jobMsgKey taskId) (jobMsgKey taskId) timeout (db s)) as Hc.
  pose proof (brpoplpush_sets (jobMsgKey taskId) (jobMsgKey taskId) timeout (db s)) as Hs.
  simpl. destruct (Redis.brpoplpush _ _ _ _) as [d []]; done.
Qed.

(** The executor leaves the counters and the lists of the store alone. *)
Lemma executeJob_frame fuel jm attempt s s' p :
  executeJob env w taskId fuel jm attempt s = Some (s', p) ->
  Redis.counters (db s') = Redis.counters (db s) /\
  Redis.lists (db s') = Redis.lists (db s).
Proof.
  revert attempt s s' p. induction fuel as [|fuel IH]; intros attempt s s' p Hrun; [done|].
  simpl in Hrun. destruct (exit_code w attempt) as [code|]; [|by injection Hrun as <- <-].
  destruct (negb (code =? 0)%Z && (0 <? numRetries s - 1)%Z).
  - match type of Hrun with context [executeJob _ _ _ fuel jm ?a ?st] =>
      destruct (executeJob env w taskId fuel jm a st) as [[s2 p2]|] eqn:Hrec; [|done];
      destruct (IH _ _ _ _ Hrec) as [Hc Hl]
    end.
    by injection Hrun as <- <-.
  - destruct (notify w taskId code) as [err|]; [by injection Hrun as <- <-|].
    destruct (inputs jm) as [ins|], (outputs jm) as [outs|];
      injection Hrun as <- <-; try done.
    unfold removeFromAllJobs. by destruct (fault w _).
Qed.

Lemma runJob_frame jm s s' p :
  runJob env w taskId jm s = Some (s', p) ->
  Redis.counters (db s') = Redis.counters (db s) /\
  Redis.lists (db s') = Redis.lists (db s).
Proof.
  unfold runJob.
  destruct (awaitInputs_effects env w jm s) as (s1 & ready & evs1 & -> & Hdb & _).
  destruct ready as [|[]|e]; unfold await at 1; try (intros [= <- <-]; by rewrite Hdb).
  set (s2 := emit _ (if enableNethogs env then _ else _)).
  assert (Hdb2 : db s2 = db s) by (unfold s2; by destruct (enableNethogs env)).
  destruct (executeJob env w taskId (fuel_for s2) jm 1 s2) as [[s3 job]|] eqn:Hexec; [|done].
  destruct (executeJob_frame _ _ _ _ _ _ Hexec) as [Hc Hl]. rewrite Hdb2 in Hc, Hl.
  destruct job as [|c|e]; simpl; try (intros [= <- <-]; done).
  destruct (enableNethogs env); intros [= <- <-]; done.
Qed.

Lemma retrieveAndRun_counters s s' p :
  retrieveAndRun env w taskId s = Some (s', p) ->
  Redis.counters (db s') = Redis.counters (db s).
Proof.
  unfold retrieveAndRun.
  destruct (getJobMessage_frame 0 s) as [Hc _].
  destruct (getJobMessage w taskId 0 s) as [s1 msg]. simpl in Hc.
  destruct msg as [|[text|]|e]; unfold await at 1; try (intros [= <- <-]; done).
  destruct (JSON_parse w text) as [jm|]; [|intros [= <- <-]; done].
  intros Hrun. apply runJob_frame in Hrun as [Hc' _]. by rewrite Hc'.
Qed.

(** A run of step 2 and what follows that resolves to an exit code. *)
Lemma retrieveAndRun_resolved s s' code :
  retrieveAndRun env w taskId s = Some (s', Js.Resolved (Some code)) ->
  exists jm s2 s3 pre post,
    trace s2 = trace s ++ pre /\ numRetries s2 = numRetries s /\
    Redis.sets (db s2) = Redis.sets (db s) /\
    executeJob env w taskId (fuel_for s2) jm 1 s2 = Some (s3, Js.Resolved code) /\
    trace s' = trace s3 ++ post /\ db s' = db s3 /\
    count is_spawn pre = 0%nat /\ count is_notify pre = 0%nat /\ count is_srem pre = 0%nat /\
    count is_spawn post = 0%nat /\ count is_notify post = 0%nat /\ count is_srem post = 0%nat.
Proof.
  unfold retrieveAndRun.
  pose proof (getJobMessage_effects w taskId 0 s) as Hget.
  destruct (getJobMessage w taskId 0 s) as [s1 msg].
  destruct Hget as (Htr & Hn & Hsets).
  destruct msg as [|[text|]|e]; unfold await at 1; try done.
  destruct (JSON_parse w text) as [jm|]; [|done].
  intros Hrun.
  destruct (runJob_resolved _ _ _ _ Hrun)
    as (s2 & s3 & pre & post & Htr2 & Hn2 & Hdb2 & Hexec & Hpost & Hdb' & ? & ? & ? & ? & ? & ?).
  simpl in Htr2, Hn2, Hdb2.
  exists jm, s2, s3. eexists _, post.
  split; [rewrite Htr2, Htr, <- !app_assoc; reflexivity|].
  split; [congruence|]. split; [congruence|].
  split; [done|]. split; [done|]. split; [done|].
  tally. repeat split; done.
Qed.

(** How every run starts: the member is added, the counter incremented,
    the completion set consulted; what follows is one of four cases. *)
Lemma handleJob_cases (d : Redis.Store) s p :
  handleJob env w taskId d = Some (s, p) ->
  let s0 := addToAllJobs env w taskId
              (mkState d (Js.or_default (HF_VAR_NUMBER_OF_RETRIES env) 1) [] []) in
  match fault w (Incr (acqCountKey taskId)) with
  | Some e => p = Js.Rejected e /\ db s = db s0
  | None =>
      exists st,
        Redis.counters (db st)
          = <[acqCountKey taskId := default 0 (Redis.counters d !! acqCountKey taskId) + 1]>
              (Redis.counters d) /\
        Redis.sets (db st) = Redis.sets (db s0) /\
        Redis.lists (db st) = Redis.lists d /\
        numRetries st = Js.or_default (HF_VAR_NUMBER_OF_RETRIES env) 1 /\
        count is_spawn (trace st) = 0%nat /\ count is_notify (trace st) = 0%nat /\
        count is_srem (trace st) = 0%nat /\ count is_retrieval (trace st) = 0%nat /\
        count is_exists_check (trace st) = 0%nat /\ count is_timer (trace st) = 0%nat /\
        match fault w (Sismember (completedTasksKey taskId) taskId) with
        | Some e => p = Js.Rejected e /\ s = st
        | None =>
            if Redis.sismember (completedTasksKey taskId) taskId (db s0)
            then p = Js.Resolved None /\ db s = db st /\
                 trace s = trace st ++ [EvLog Warn (MUnexpectedRestart taskId); EvLogShutdown]
            else retrieveAndRun env w taskId st = Some (s, p)
        end
  end.
Proof.
  intros Hrun. cbv zeta. unfold handleJob in Hrun.
  destruct (addToAllJobs_effects env w taskId
              (mkState d (Js.or_default (HF_VAR_NUMBER_OF_RETRIES env) 1) [] []))
    as (tail & Htr & Htail & Hn & _).
  pose proof (addToAllJobs_counters env w taskId
                (mkState d (Js.or_default (HF_VAR_NUMBER_OF_RETRIES env) 1) [] [])) as Hcnt.
  simpl in Htr, Hn, Hcnt.
  set (s0 := addToAllJobs env w taskId _) in *.
  assert (Hlists : Redis.lists (db s0) = Redis.lists d).
  { unfold s0, addToAllJobs. by destruct (fault w _). }
  assert (Hquiet : forall q, q (EvRedis (Sadd "hf_all_jobs" (allJobsMember env taskId))) = false ->
            (forall m, q (EvConsole m) = false) -> count q (trace s0) = 0%nat).
  { intros q H1 H2. rewrite Htr. destruct Htail as [->|[e ->]]; tally; by rewrite H1, ?H2. }
  unfold acquireTask in Hrun. destruct (fault w (Incr _)) as [e|].
  { simpl in Hrun. by injection Hrun as <- <-. }
  simpl in Hrun. rewrite Hcnt in Hrun. unfold hasCompleted, warnIfAcquired in Hrun.
  assert (Hsame : forall dd,
            Redis.sets dd = Redis.sets (db s0) ->
            Redis.sismember (completedTasksKey taskId) taskId dd
            = Redis.sismember (completedTasksKey taskId) taskId (db s0)).
  { intros dd Hs. unfold Redis.sismember, Redis.smembers. by rewrite Hs. }
  destruct (Z.ltb 1 _);
    (match type of Hrun with context [emit [EvRedis (Sismember ?k ?x)] ?st0] =>
       exists (emit [EvRedis (Sismember k x)] st0) end);
    (split; [done|]); (split; [done|]); (split; [done|]); (split; [done|]);
    do 6 (split; [simpl; tally; by rewrite Hquiet|]);
    (destruct (fault w (Sismember _ _)) as [e|]; simpl in Hrun;
     [by injection Hrun as <- <-|]);
    (match type of Hrun with context [Redis.sismember ?k ?x ?dd] =>
       rewrite (Hsame dd eq_refl) in Hrun end);
    (destruct (Redis.sismember _ _ (db s0)); [by injection Hrun as <- <-|done]).
Qed.

(** Whatever path a run takes, its only effect on the counters of the store
    is one increment of the task's acquisition counter, from 0 when the key
    is missing; a run whose increment fails leaves the counters as they
    were. *)
Theorem run_increments_acquisition_counter_once (d : Redis.Store) s p :
  handleJob env w taskId d = Some (s, p) ->
  Redis.counters (db s) =
  match fault w (Incr (acqCountKey taskId)) with
  | Some _ => Redis.counters d
  | None => <[acqCountKey taskId := default 0 (Redis.counters d !! acqCountKey taskId) + 1]>
              (Redis.counters d)
  end.
Proof.
  intros Hrun. pose proof (handleJob_cases d s p Hrun) as H. cbv zeta in H.
  destruct (fault w (Incr _)) as [e|].
  - destruct H as [_ ->]. apply (addToAllJobs_counters env w taskId (mkState d _ [] [])).
  - destruct H as (st & Hc & _ & _ & _ & _ & _ & _ & _ & _ & _ & H).
    destruct (fault w (Sismember _ _)) as [e|].
    + destruct H as [_ ->]. done.
    + destruct (Redis.sismember _ _ _).
      * destruct H as (_ & -> & _). done.
      * apply retrieveAndRun_counters in H. by rewrite H.
Qed.

Lemma resolved_run_facts (d : Redis.Store) s code :
  handleJob env w taskId d = Some (s, Js.Resolved (Some code)) ->
  exit_code w 1 = Some code /\ notify w taskId code = None /\
  count is_spawn (trace s) = 1%nat /\ notified (trace s) = [code] /\
  count is_srem (trace s) = 1%nat.
Proof.
  intros Hrun. pose proof (handleJob_cases d s _ Hrun) as H. cbv zeta in H.
  destruct (fault w (Incr _)) as [e|]; [by destruct H|].
  destruct H as (st & _ & _ & _ & _ & Hsp & Hno & Hsr & _ & _ & _ & H).
  destruct (fault w (Sismember _ _)) as [e|]; [by destruct H|].
  destruct (Redis.sismember _ _ _); [by destruct H|].
  destruct (retrieveAndRun_resolved _ _ _ H)
    as (jm & s2 & s3 & pre & post & Htr2 & _ & _ & Hexec & Htr' & _ &
        Hp1 & Hp2 & Hp3 & Hq1 & Hq2 & Hq3).
  destruct (executeJob_resolved env w taskId _ _ _ _ _ _ Hexec)
    as (Hexit & Hnotify & _ & _ & evs & Htr3 & He1 & He2 & He3 & _).
  split; [done|]. split; [done|].
  rewrite Htr', Htr3, Htr2. tally. rewrite !notified_app.
  rewrite (count_zero_notified _ Hno), (count_zero_notified _ Hp2),
    (count_zero_notified _ Hq2), He2.
  repeat split; try done; lia.
Qed.

(** A run returns an exit code only if that code is the exit code of the
    first attempt, was notified and accepted, and the member was removed
    from [hf_all_jobs]; the run spawned exactly one process. *)
Theorem returned_code_is_notified_first_attempt (d : Redis.Store) s code :
  handleJob env w taskId d = Some (s, Js.Resolved (Some code)) ->
  exit_code w 1 = Some code /\ notify w taskId code = None /\
  count is_spawn (trace s) = 1%nat /\ notified (trace s) = [code] /\
  count is_srem (trace s) = 1%nat.
Proof. apply resolved_run_facts. Qed.

Lemma smembers_srem key m dd :
  Redis.smembers key (Redis.srem key m dd) = Redis.smembers key dd ∖ {[m]}.
Proof.
  unfold Redis.srem.
  destruct (decide (_ = ∅)) as [He|Hne].
  - rewrite He. unfold Redis.smembers at 1; simpl. by rewrite lookup_delete_eq.
  - unfold Redis.smembers at 1; simpl. by rewrite lookup_insert_eq.
Qed.

Lemma smembers_sadd key m dd :
  Redis.smembers key (Redis.sadd key m dd) = {[m]} ∪ Redis.smembers key dd.
Proof. unfold Redis.smembers, Redis.sadd; simpl. by rewrite lookup_insert_eq. Qed.

(** A run that returns an exit code leaves the [hf_all_jobs] set as it
    found it, minus its own member: what the run added at its start it has
    removed at its end (store commands answered without error). *)
Theorem returning_run_removes_its_member (d : Redis.Store) s code :
  handleJob env w taskId d = Some (s, Js.Resolved (Some code)) ->
  fault w (Sadd "hf_all_jobs" (allJobsMember env taskId)) = None ->
  fault w (Srem "hf_all_jobs" (allJobsMember env taskId)) = None ->
  Redis.smembers "hf_all_jobs" (db s)
  = Redis.smembers "hf_all_jobs" d ∖ {[allJobsMember env taskId]}.
Proof.
  intros Hrun Hadd Hrem. pose proof (handleJob_cases d s _ Hrun) as H. cbv zeta in H.
  destruct (fault w (Incr _)) as [e|]; [by destruct H|].
  destruct H as (st & _ & Hsets & _ & _ & _ & _ & _ & _ & _ & _ & H).
  destruct (fault w (Sismember _ _)) as [e|]; [by destruct H|].
  destruct (Redis.sismember _ _ _); [by destruct H|].
  destruct (retrieveAndRun_resolved _ _ _ H)
    as (jm & s2 & s3 & pre & post & _ & _ & Hsets2 & Hexec & _ & Hdb & _).
  destruct (executeJob_resolved env w taskId _ _ _ _ _ _ Hexec)
    as (_ & _ & _ & Hdb3 & _).
  rewrite Hdb, Hdb3. unfold removeFromAllJobs. rewrite Hrem. simpl.
  rewrite smembers_srem.
  rewrite (smembers_sets _ _ _ Hsets2), (smembers_sets _ _ _ Hsets).
  unfold addToAllJobs. rewrite Hadd. simpl. rewrite smembers_sadd.
  apply set_eq. intros x.
  rewrite !elem_of_difference, elem_of_union, elem_of_singleton. tauto.
Qed.

End ReturningRuns.

Lemma run_increments_acquisition_counter_once_witness :
  exists s p,
    Handler.handleJob (Scenario.env_retries None) (Scenario.world_exiting 0)
      Scenario.task Scenario.store_one = Some (s, p) /\
    Redis.counters (Handler.db s) !! "task:wf1:0_acqCount" = Some 1.
Proof.
  destruct (Handler.handleJob (Scenario.env_retries None) (Scenario.world_exiting 0)
              Scenario.task Scenario.store_one) as [[s p]|] eqn:Hrun;
    [|vm_compute in Hrun; discriminate].
  exists s, p. split; [reflexivity|].
  rewrite (run_increments_acquisition_counter_once _ _ _ _ _ _ Hrun).
  vm_compute. reflexivity.
Defined.

Lemma returned_code_is_notified_first_attempt_witness :
  exists s,
    Handler.handleJob (Scenario.env_retries None) (Scenario.world_exiting 0)
      Scenario.task Scenario.store_one = Some (s, Js.Resolved (Some 0)) /\
    count is_spawn (Handler.trace s) = 1%nat /\ notified (Handler.trace s) = [0].
Proof.
  assert (Hrun : exists s,
    Handler.handleJob (Scenario.env_retries None) (Scenario.world_exiting 0)
      Scenario.task Scenario.store_one = Some (s, Js.Resolved (Some 0)))
    by (eexists; vm_compute; reflexivity).
  destruct Hrun as [s Hrun]. exists s. split; [exact Hrun|].
  destruct (returned_code_is_notified_first_attempt _ _ _ _ _ _ Hrun) as (_ & _ & Hsp & Hno & _).
  exact (conj Hsp Hno).
Defined.

Lemma returning_run_removes_its_member_witness :
  exists s,
    Handler.handleJob (Scenario.env_retries None) (Scenario.world_exiting 0)
      Scenario.task Scenario.store_one = Some (s, Js.Resolved (Some 0)) /\
    Redis.smembers "hf_all_jobs" (Handler.db s)
    = Redis.smembers "hf_all_jobs" Scenario.store_one
      ∖ {[Handler.allJobsMember (Scenario.env_retries None) Scenario.task]}.
Proof.
  assert (Hrun : exists s,
    Handler.handleJob (Scenario.env_retries None) (Scenario.world_exiting 0)
      Scenario.task Scenario.store_one = Some (s, Js.Resolved (Some 0)))
    by (eexists; vm_compute; reflexivity).
  destruct Hrun as [s Hrun]. exists s. split; [exact Hrun|].
  exact (returning_run_removes_its_member _ _ _ _ _ _ Hrun eq_refl eq_refl).
Defined.

(** ** Runs from the store to the executor *)

Section EndToEnd.
Import Handler.

Variable env : Env.
Variable w : World.
Variable taskId : string.

Lemma completedTasksKey_not_all_jobs : completedTasksKey taskId ≠ "hf_all_jobs".
Proof. unfold completedTasksKey. simpl. discriminate. Qed.

Lemma sismember_sadd_other key m k x d :
  k ≠ key -> Redis.sismember k x (Redis.sadd key m d) = Redis.sismember k x d.
Proof.
  intros Hne. unfold Redis.sismember, Redis.smembers, Redis.sadd; simpl.
  by rewrite lookup_insert_ne.
Qed.

Lemma sismember_after_add d n :
  Redis.sismember (completedTasksKey taskId) taskId
    (db (addToAllJobs env w taskId (mkState d n [] [])))
  = Redis.sismember (completedTasksKey taskId) taskId d.
Proof.
  unfold addToAllJobs. destruct (fault w _); [done|]. simpl.
  apply sismember_sadd_other, completedTasksKey_not_all_jobs.
Qed.

(** With a store that answers, a task not yet completed and a parseable
    message at the tail of its queue, the run is the run of steps 3 to 6 on
    that message, started with the configured [numRetries] and with nothing
    spawned or notified so far. *)
Lemma handleJob_reaches_runJob (d : Redis.Store) jm :
  fault w (Incr (acqCountKey taskId)) = None ->
  fault w (Sismember (completedTasksKey taskId) taskId) = None ->
  fault w (Brpoplpush (jobMsgKey taskId) (jobMsgKey taskId) 0) = None ->
  Redis.sismember (completedTasksKey taskId) taskId d = false ->
  Redis.lrange (jobMsgKey taskId) d ≠ [] ->
  JSON_parse w (List.last (Redis.lrange (jobMsgKey taskId) d) "") = Some jm ->
  exists s p st,
    handleJob env w taskId d = Some (s, p) /\
    runJob env w taskId jm st = Some (s, p) /\
    numRetries st = Js.or_default (HF_VAR_NUMBER_OF_RETRIES env) 1.
Proof.
  intros Hincr Hsis Hpop Hnot Hq Hparse.
  destruct (handleJob_effects env w taskId d) as (s & p & rest & Hrun & _).
  exists s, p.
  pose proof (handleJob_cases env w taskId d s p Hrun) as H. cbv zeta in H.
  rewrite Hincr, Hsis, sismember_after_add, Hnot in H.
  destruct H as (st & _ & _ & Hlists & Hn & _ & _ & _ & _ & _ & _ & H).
  unfold retrieveAndRun, getJobMessage in H. rewrite Hpop in H.
  assert (Hq' : Redis.lrange (jobMsgKey taskId)
                  (db (emit [EvRedis (Brpoplpush (jobMsgKey taskId) (jobMsgKey taskId) 0)] st))
                = Redis.lrange (jobMsgKey taskId) d).
  { unfold Redis.lrange. simpl. by rewrite Hlists. }
  pose proof (brpoplpush_same_key (jobMsgKey taskId) 0
                (db (emit [EvRedis (Brpoplpush (jobMsgKey taskId) (jobMsgKey taskId) 0)] st)))
    as Hbr.
  rewrite Hq' in Hbr. specialize (Hbr Hq). cbv zeta in Hbr.
  destruct (Redis.brpoplpush _ _ _ _) as [d' reply].
  destruct Hbr as (-> & _). simpl in H. rewrite Hparse in H.
  eexists. split; [done|]. split; [exact H|]. exact Hn.
Qed.

Lemma awaitInputs_skipped jm s :
  HF_VAR_WAIT_FOR_INPUT_FILES env ≠ Some "1" \/ inputs jm = None \/ inputs jm = Some [] ->
  awaitInputs env w jm s = Some (s, Js.Resolved tt).
Proof.
  intros H. unfold awaitInputs.
  destruct (HF_VAR_WAIT_FOR_INPUT_FILES env) as [flag|]; [|done].
  destruct (inputs jm) as [[|f fs]|]; [by repeat case_match| |by repeat case_match].
  destruct H as [H|[H|H]]; [|done..].
  repeat case_match; done.
Qed.

Lemma executeJob_terminal fuel jm attempt s code ins outs :
  exit_code w attempt = Some code ->
  code = 0 \/ numRetries s <= 1 ->
  notify w taskId code = None ->
  inputs jm = Some ins -> outputs jm = Some outs ->
  exists s', executeJob env w taskId (S fuel) jm attempt s = Some (s', Js.Resolved code).
Proof.
  intros Hexit Hterm Hnotify Hin Hout. simpl. rewrite Hexit.
  assert (Hcond : negb (code =? 0)%Z && (0 <? numRetries s - 1)%Z = false).
  { destruct Hterm as [->|Hle]; [done|].
    apply andb_false_iff. right. apply Z.ltb_ge. lia. }
  rewrite Hcond, Hnotify, Hin, Hout. eauto.
Qed.

(** End to end: with a store that answers, a task not yet completed, a
    parseable message at the tail of its queue that declares inputs and
    outputs, no input wait, and a first attempt whose exit is terminal (code
    0, or no retry configured beyond the first attempt) and whose
    notification is accepted, the run returns that exit code after exactly
    one spawn and one notification carrying it. *)
Theorem terminal_first_attempt_is_returned (d : Redis.Store) jm code ins outs :
  fault w (Incr (acqCountKey taskId)) = None ->
  fault w (Sismember (completedTasksKey taskId) taskId) = None ->
  fault w (Brpoplpush (jobMsgKey taskId) (jobMsgKey taskId) 0) = None ->
  Redis.sismember (completedTasksKey taskId) taskId d = false ->
  Redis.lrange (jobMsgKey taskId) d ≠ [] ->
  JSON_parse w (List.last (Redis.lrange (jobMsgKey taskId) d) "") = Some jm ->
  inputs jm = Some ins -> outputs jm = Some outs ->
  HF_VAR_WAIT_FOR_INPUT_FILES env ≠ Some "1" \/ ins = [] ->
  exit_code w 1 = Some code ->
  code = 0 \/ Js.or_default (HF_VAR_NUMBER_OF_RETRIES env) 1 <= 1 ->
  notify w taskId code = None ->
  exists s, handleJob env w taskId d = Some (s, Js.Resolved (Some code)) /\
    count is_spawn (trace s) = 1%nat /\ notified (trace s) = [code].
Proof.
  intros Hincr Hsis Hpop Hnot Hq Hparse Hin Hout Hskip Hexit Hterm Hnotify.
  destruct (handleJob_reaches_runJob d jm Hincr Hsis Hpop Hnot Hq Hparse)
    as (s & p & st & Hrun & Hjob & Hn).
  assert (Hp : p = Js.Resolved (Some code)).
  { unfold runJob in Hjob. rewrite awaitInputs_skipped in Hjob.
    2:{ destruct Hskip as [?| ->]; [by left|]. right. by right. }
    unfold await at 1 in Hjob.
    match type of Hjob with context [executeJob env w taskId (fuel_for ?s2) jm 1 ?s2] =>
      assert (Hn2 : numRetries s2 = Js.or_default (HF_VAR_NUMBER_OF_RETRIES env) 1)
        by (destruct (enableNethogs env); simpl; exact Hn);
      destruct (executeJob_terminal (Z.to_nat (numRetries s2)) jm 1 s2 code ins outs)
        as [s3 Hexec]; try done; [rewrite Hn2; exact Hterm|];
      unfold fuel_for in Hjob; rewrite Hexec in Hjob
    end.
    simpl in Hjob. by destruct (enableNethogs env); injection Hjob as _ <-. }
  subst p. exists s. split; [done|].
  destruct (resolved_run_facts env w taskId d s code Hrun) as (_ & _ & Hsp & Hno & _).
  done.
Qed.

(** End to end: when the first attempt exits non-zero and more than one
    retry is configured, the run retries and its caller never gets an
    answer: the promise of [handleJob] stays pending whatever the later
    attempts do, although the job is spawned again. *)
Theorem retrying_run_never_returns (d : Redis.Store) jm code :
  fault w (Incr (acqCountKey taskId)) = None ->
  fault w (Sismember (completedTasksKey taskId) taskId) = None ->
  fault w (Brpoplpush (jobMsgKey taskId) (jobMsgKey taskId) 0) = None ->
  Redis.sismember (completedTasksKey taskId) taskId d = false ->
  Redis.lrange (jobMsgKey taskId) d ≠ [] ->
  JSON_parse w (List.last (Redis.lrange (jobMsgKey taskId) d) "") = Some jm ->
  HF_VAR_WAIT_FOR_INPUT_FILES env ≠ Some "1" ->
  exit_code w 1 = Some code -> code ≠ 0 ->
  1 < Js.or_default (HF_VAR_NUMBER_OF_RETRIES env) 1 ->
  exists s, handleJob env w taskId d = Some (s, Js.Pending) /\
    (2 <= count is_spawn (trace s))%nat.
Proof.
  intros Hincr Hsis Hpop Hnot Hq Hparse Hskip Hexit Hnz Hretries.
  destruct (handleJob_reaches_runJob d jm Hincr Hsis Hpop Hnot Hq Hparse)
    as (s & p & st & Hrun & Hjob & Hn).
  unfold runJob in Hjob. rewrite awaitInputs_skipped in Hjob by (by left).
  unfold await at 1 in Hjob.
  match type of Hjob with context [executeJob env w taskId (fuel_for ?s2) jm 1 ?s2] =>
    assert (Hn2 : numRetries s2 = Js.or_default (HF_VAR_NUMBER_OF_RETRIES env) 1)
      by (destruct (enableNethogs env); simpl; exact Hn);
    destruct (executeJob env w taskId (fuel_for s2) jm 1 s2) as [[s3 job]|] eqn:Hexec; [|done];
    destruct (executeJob_retry_pending env w taskId _ _ _ _ _ _ _ Hexit Hnz
                ltac:(rewrite Hn2; exact Hretries) Hexec) as [-> Hsp]
  end.
  simpl in Hjob. injection Hjob as <- <-. exists s3. split; [done|]. lia.
Qed.

(** End to end: with the input wait enabled, a descriptor that declares at
    least one input with a non-empty name, and inputs that never appear, the
    run is rejected with the input-wait error; nothing is spawned and
    nothing is notified. *)
Theorem missing_inputs_abort_before_spawn (d : Redis.Store) jm f fs :
  fault w (Incr (acqCountKey taskId)) = None ->
  fault w (Sismember (completedTasksKey taskId) taskId) = None ->
  fault w (Brpoplpush (jobMsgKey taskId) (jobMsgKey taskId) 0) = None ->
  Redis.sismember (completedTasksKey taskId) taskId d = false ->
  Redis.lrange (jobMsgKey taskId) d ≠ [] ->
  JSON_parse w (List.last (Redis.lrange (jobMsgKey taskId) d) "") = Some jm ->
  HF_VAR_WAIT_FOR_INPUT_FILES env = Some "1" ->
  inputs jm = Some (f :: fs) ->
  (exists g, In g (f :: fs) /\ Js.truthy g = true) ->
  (forall n i g, In g (f :: fs) -> existsSync w n i g = false) ->
  exists s, handleJob env w taskId d = Some (s, Js.Rejected "Error waiting for input files") /\
    count is_spawn (trace s) = 0%nat /\ count is_notify (trace s) = 0%nat.
Proof.
  intros Hincr Hsis Hpop Hnot Hq Hparse Hflag Hin Hsome Hnever.
  destruct (handleJob_reaches_runJob d jm Hincr Hsis Hpop Hnot Hq Hparse)
    as (s & p & st & Hrun & Hjob & _).
  assert (Hp : p = Js.Rejected "Error waiting for input files").
  { unfold runJob, awaitInputs in Hjob. rewrite Hflag, Hin in Hjob.
    destruct (run_terminates w (Js.or_default (HF_VAR_FILE_WATCH_NUM_RETRIES env) 10)
                (Waiter.fuel_for (Js.or_default (HF_VAR_FILE_WATCH_NUM_RETRIES env) 10))
                (Waiter.init (f :: fs))) as [r Hr].
    { unfold Waiter.fuel_for. simpl. lia. }
    pose proof (run_never_appearing w _ _ _ _ Hr eq_refl Hnever Hsome) as Hrej.
    unfold Waiter.waitForInputs in Hjob. rewrite Hr in Hjob.
    unfold Waiter.promise in Hjob. rewrite Hrej in Hjob. simpl in Hjob.
    by injection Hjob as _ <-. }
  subst p. exists s. split; [done|].
  destruct (handleJob_effects env w taskId d) as (s' & p' & rest & Hrun' & _ & _ & _ & _ & Habort).
  rewrite Hrun in Hrun'. injection Hrun' as <- <-.
  destruct Habort as (? & ? & _); [right; eauto|]. done.
Qed.

(** End to end: with an empty (or missing) queue for the task, retrieval
    with timeout 0 never answers: the run stays pending, spawns nothing and
    leaves the lists of the store as they were. *)
Theorem empty_queue_blocks_run (d : Redis.Store) :
  fault w (Incr (acqCountKey taskId)) = None ->
  fault w (Sismember (completedTasksKey taskId) taskId) = None ->
  fault w (Brpoplpush (jobMsgKey taskId) (jobMsgKey taskId) 0) = None ->
  Redis.sismember (completedTasksKey taskId) taskId d = false ->
  Redis.lrange (jobMsgKey taskId) d = [] ->
  exists s, handleJob env w taskId d = Some (s, Js.Pending) /\
    count is_spawn (trace s) = 0%nat /\ count is_retrieval (trace s) = 1%nat /\
    Redis.lists (db s) = Redis.lists d.
Proof.
  intros Hincr Hsis Hpop Hnot Hq.
  destruct (handleJob_effects env w taskId d) as (s & p & rest & Hrun & _).
  pose proof (handleJob_cases env w taskId d s p Hrun) as H. cbv zeta in H.
  rewrite Hincr, Hsis, sismember_after_add, Hnot in H.
  destruct H as (st & _ & _ & Hlists & _ & Hsp & _ & _ & Hre & _ & _ & H).
  unfold retrieveAndRun, getJobMessage in H. rewrite Hpop in H.
  unfold Redis.brpoplpush, Redis.rpop in H.
  assert (Hq' : Redis.lrange (jobMsgKey taskId)
                  (db (emit [EvRedis (Brpoplpush (jobMsgKey taskId) (jobMsgKey taskId) 0)] st))
                = []).
  { unfold Redis.lrange. simpl. rewrite Hlists. exact Hq. }
  rewrite Hq' in H. simpl in H. injection H as <- <-.
  exists (set_db (db st) (emit [EvRedis (Brpoplpush (jobMsgKey taskId) (jobMsgKey taskId) 0)] st)).
  split; [done|]. simpl. tally. rewrite Hsp, Hre. done.
Qed.

End EndToEnd.

Lemma terminal_first_attempt_is_returned_witness :
  Redis.sismember (Handler.completedTasksKey Scenario.task) Scenario.task Scenario.store_one
    = false /\
  exit_code (Scenario.world_exiting 0) 1 = Some 0 /\
  exists s,
    Handler.handleJob (Scenario.env_retries None) (Scenario.world_exiting 0)
      Scenario.task Scenario.store_one = Some (s, Js.Resolved (Some 0)) /\
    count is_spawn (Handler.trace s) = 1%nat /\ notified (Handler.trace s) = [0].
Proof.
  split; [vm_compute; reflexivity|]. split; [reflexivity|].
  apply (terminal_first_attempt_is_returned (Scenario.env_retries None)
           (Scenario.world_exiting 0) Scenario.task Scenario.store_one
           Scenario.job_false 0 [] []);
    first [ reflexivity | vm_compute; discriminate | by left | by right ].
Defined.

Lemma retrying_run_never_returns_witness :
  exit_code (Scenario.world_exiting 1) 1 = Some 1 /\
  1 < Js.or_default (HF_VAR_NUMBER_OF_RETRIES (Scenario.env_retries (Some 2))) 1 /\
  exists s,
    Handler.handleJob (Scenario.env_retries (Some 2)) (Scenario.world_exiting 1)
      Scenario.task Scenario.store_one = Some (s, Js.Pending) /\
    (2 <= count is_spawn (Handler.trace s))%nat.
Proof.
  split; [reflexivity|]. split; [simpl; lia|].
  apply (retrying_run_never_returns (Scenario.env_retries (Some 2))
           (Scenario.world_exiting 1) Scenario.task Scenario.store_one
           Scenario.job_false 1);
    first [ reflexivity | vm_compute; discriminate | discriminate | simpl; lia ].
Defined.

Lemma missing_inputs_abort_before_spawn_witness :
  HF_VAR_WAIT_FOR_INPUT_FILES Scenario.env_waiting = Some "1" /\
  inputs Scenario.job_with_input = Some ["in.dat"] /\
  exists s,
    Handler.handleJob Scenario.env_waiting Scenario.world_without_files
      Scenario.task Scenario.store_one
    = Some (s, Js.Rejected "Error waiting for input files") /\
    count is_spawn (Handler.trace s) = 0%nat /\ count is_notify (Handler.trace s) = 0%nat.
Proof.
  split; [reflexivity|]. split; [reflexivity|].
  apply (missing_inputs_abort_before_spawn Scenario.env_waiting Scenario.world_without_files
           Scenario.task Scenario.store_one Scenario.job_with_input "in.dat" []);
    first [ reflexivity | vm_compute; discriminate
          | exists "in.dat"; split; [by left | reflexivity] ].
Defined.

Lemma empty_queue_blocks_run_witness :
  Redis.lrange (Handler.jobMsgKey Scenario.task) Redis.empty = [] /\
  exists s,
    Handler.handleJob (Scenario.env_retries None) (Scenario.world_exiting 0)
      Scenario.task Redis.empty = Some (s, Js.Pending) /\
    count is_spawn (Handler.trace s) = 0%nat /\ count is_retrieval (Handler.trace s) = 1%nat /\
    Redis.lists (Handler.db s) = Redis.lists Redis.empty.
Proof.
  split; [reflexivity|].
  apply (empty_queue_blocks_run (Scenario.env_retries None) (Scenario.world_exiting 0)
           Scenario.task Redis.empty); reflexivity.
Defined.

(** ** The input waiter, continued *)

Section WaiterMore.
Import Waiter.

Variable w : World.
Variable max_retries : Z.

Lemma filter_partition_perm (ex : nat -> string -> bool) (i : nat) (l : list string) :
  Forall (fun f => Js.truthy f = true) l ->
  Permutation (ifilter ex i l ++ ifilter (still_missing ex) i l) l.
Proof.
  intros H. revert i. induction H as [|f l Hf _ IH]; intros i; [done|].
  simpl. unfold still_missing at 1. rewrite Hf. destruct (ex i f); simpl.
  - by constructor.
  - rewrite <- Permutation_middle. by constructor.
Qed.

Lemma filter_still_missing_truthy (ex : nat -> string -> bool) (i : nat) (l : list string) :
  Forall (fun f => Js.truthy f = true) (ifilter (still_missing ex) i l).
Proof.
  apply List.Forall_forall. intros f Hin. by apply filter_still_missing_in in Hin as (_ & ? & _).
Qed.

(** Invariant of the chain of rounds: the ready and the watched files
    together stay the same collection, and a file becomes ready only in a
    round in which it was seen to exist. *)
Lemma run_partition fuel s r :
  run w max_retries fuel s = Some r ->
  Forall (fun f => Js.truthy f = true) (filesToWatch s) ->
  Permutation (filesReady r ++ filesToWatch r) (filesReady s ++ filesToWatch s) /\
  (forall f, In f (filesReady r) ->
     In f (filesReady s) \/
     exists n i, num_retries s <= n < num_retries r /\ existsSync w n i f = true).
Proof.
  revert s. induction fuel as [|fuel IH]; intros s Hrun Htruthy; [done|].
  simpl in Hrun. destruct (Z.ltb_spec max_retries (num_retries s)) as [Hlt|Hle].
  - rewrite checkFiles_exhausted in Hrun by done. injection Hrun as <-. simpl. auto.
  - pose proof (checkFiles_round w max_retries s Hle) as H. cbv zeta in H.
    destruct (checkFiles w max_retries s) as [s1 again].
    destruct H as (Hw & Hr & Hn & _).
    assert (Hperm : Permutation (filesReady s1 ++ filesToWatch s1)
                      (filesReady s ++ filesToWatch s)).
    { rewrite Hw, Hr, <- app_assoc. apply Permutation_app_head.
      by apply filter_partition_perm. }
    assert (Hseen : forall f, In f (filesReady s1) ->
              In f (filesReady s) \/
              exists n i, num_retries s <= n < num_retries s1 /\ existsSync w n i f = true).
    { intros f. rewrite Hr, in_app_iff, ifilter_In. intros [?|(j & _ & Hex)]; [by left|].
      right. exists (num_retries s), (0 + j)%nat. split; [lia|done]. }
    destruct again.
    + destruct (IH s1 Hrun) as [Hp Hs].
      { rewrite Hw. apply filter_still_missing_truthy. }
      split; [by rewrite Hp|].
      intros f Hf. destruct (Hs f Hf) as [Hin|(n & i & Hn' & Hex)].
      * destruct (Hseen f Hin) as [?|(n & i & Hn' & Hex)]; [by left|].
        right. exists n, i. split; [|done].
        assert (num_retries s1 <= num_retries r); [|lia].
        clear -Hrun. revert s1 Hrun. induction fuel as [|fuel IHf]; intros s1 Hrun; [done|].
        simpl in Hrun. destruct (Z.ltb_spec max_retries (num_retries s1)) as [Hlt|Hle].
        -- rewrite checkFiles_exhausted in Hrun by done. injection Hrun as <-. simpl. lia.
        -- pose proof (checkFiles_round w max_retries s1 Hle) as H. cbv zeta in H.
           destruct (checkFiles w max_retries s1) as [s2 again].
           destruct H as (_ & _ & Hn2 & _). destruct again.
           ++ apply IHf in Hrun. lia.
           ++ injection Hrun as <-. lia.
      * right. exists n, i. split; [lia|done].
    + injection Hrun as <-. split; [done|]. exact Hseen.
Qed.

(** When the wait ends, the files reported ready and the files still
    watched are together exactly the files asked for (names non-empty), every
    ready file was seen to exist in one of the rounds performed, and a
    successful wait reports every file ready. *)
Theorem waiter_reports_only_seen_files (files : list string) r :
  0 <= max_retries ->
  Forall (fun f => Js.truthy f = true) files ->
  waitForInputs w files max_retries = Some r ->
  Permutation (filesReady r ++ filesToWatch r) files /\
  (forall f, In f (filesReady r) ->
     exists n i, 0 <= n < num_retries r /\ existsSync w n i f = true) /\
  (promise r = Js.Resolved tt -> Permutation (filesReady r) files).
Proof.
  intros Hmax Htruthy Hrun. unfold waitForInputs in Hrun.
  destruct (run_partition _ _ _ Hrun Htruthy) as [Hperm Hseen]. simpl in Hperm, Hseen.
  split; [done|]. split.
  - intros f Hf. by destruct (Hseen f Hf).
  - intros Hres.
    destruct (run_outcome w max_retries _ _ _ Hrun) as [Hout _];
      [done | simpl; lia | left; simpl; lia |].
    unfold promise in Hres.
    destruct Hout as [(_ & He & _)|(Hs & _)]; [|by rewrite Hs in Hres].
    by rewrite He, app_nil_r in Hperm.
Qed.

(** When every file exists at the first check, the wait succeeds in one
    round, arms no timer and reports the files in their order. *)
Theorem present_inputs_need_one_round (files : list string) :
  0 <= max_retries ->
  (forall i f, In f files -> existsSync w 0 i f = true) ->
  exists r, waitForInputs w files max_retries = Some r /\
    promise r = Js.Resolved tt /\ filesReady r = files /\ filesToWatch r = [] /\
    num_retries r = 1 /\ timers (trace r) = [] /\ checked (trace r) = files.
Proof.
  intros Hmax Hall. unfold waitForInputs, fuel_for. simpl.
  unfold checkFiles. simpl.
  destruct (Z.ltb_spec max_retries 0) as [?|_]; [lia|].
  pose proof (forEach_spec (existsSync w 0) 0 files) as Hfe.
  destruct (forEach (existsSync w 0) 0 files) as [[slots found] checks].
  destruct Hfe as (-> & -> & ->).
  assert (Hex : ifilter (existsSync w 0) 0 files = files) by (by apply ifilter_all).
  assert (Hno : ifilter (still_missing (existsSync w 0)) 0 files = []).
  { apply ifilter_none. intros j f Hf. unfold still_missing. by rewrite (Hall j f Hf). }
  rewrite Hex, Hno. eexists. split; [reflexivity|]. simpl.
  assert (Hnt : forall l, timers (map EvExistsSync l) = []).
  { induction l as [|f l IH]; [done|]. exact IH. }
  repeat split.
  - rewrite !timers_app, Hnt. by destruct files.
  - rewrite !checked_app, checked_checks. destruct files; simpl; by rewrite ?app_nil_r.
Qed.

Lemma timers_checks (l : list string) : timers (map EvExistsSync l) = [].
Proof. induction l as [|f l IH]; [done|]. exact IH. Qed.

(** The timer a round arms, if it arms one. *)
Lemma checkFiles_timers s :
  num_retries s <= max_retries ->
  let '(s', again) := checkFiles w max_retries s in
  timers (trace s') =
  timers (trace s) ++ (if again then [delay (num_retries s + 1)] else []).
Proof.
  intros Hle. unfold checkFiles.
  destruct (Z.ltb_spec max_retries (num_retries s)) as [?|_]; [lia|].
  pose proof (forEach_spec (existsSync w (num_retries s)) 0 (filesToWatch s)) as Hfe.
  destruct (forEach _ 0 (filesToWatch s)) as [[slots found] checks].
  destruct Hfe as (_ & _ & ->).
  assert (Hround : forall tail,
    timers ((trace s
             ++ [EvLog Info (MWaitingForFiles (num_retries s) (filesToWatch s) (filesReady s))]
             ++ map EvExistsSync (filesToWatch s)
             ++ match found with
                | [] => []
                | _ => [EvLog Info (MFilesReady (num_retries s + 1) (compact slots)
                                      (filesReady s ++ found))]
                end) ++ tail)
    = timers (trace s) ++ timers tail).
  { intros tail. rewrite !timers_app, timers_checks.
    destruct found; simpl; by rewrite ?app_nil_r. }
  destruct (compact slots) as [|f0 rest] eqn:Hc;
    cbv beta iota zeta; cbn [trace]; by rewrite Hround.
Qed.

Lemma run_timers fuel s r :
  run w max_retries fuel s = Some r ->
  exists k : nat,
    timers (trace r)
    = timers (trace s)
      ++ map (fun i : nat => delay (num_retries s + Z.of_nat i)) (seq 1 k) /\
    (settles r = settles s ++ [DoResolve] -> Z.of_nat k = num_retries r - num_retries s - 1) /\
    (settles r = settles s ++ [DoReject "Error waiting for input files"] ->
     Z.of_nat k = num_retries r - num_retries s).
Proof.
  revert s. induction fuel as [|fuel IH]; intros s Hrun; [done|].
  simpl in Hrun. destruct (Z.ltb_spec max_retries (num_retries s)) as [Hlt|Hle].
  - rewrite checkFiles_exhausted in Hrun by done. injection Hrun as <-. simpl.
    exists 0%nat. simpl. rewrite timers_app, !app_nil_r.
    repeat split; [|lia]. intros H. apply app_inv_head in H. discriminate.
  - pose proof (checkFiles_round w max_retries s Hle) as H. cbv zeta in H.
    pose proof (checkFiles_timers s Hle) as Ht.
    destruct (checkFiles w max_retries s) as [s1 again].
    destruct H as (_ & _ & Hn & _ & _ & Hagain & Hstop).
    destruct again.
    + destruct (Hagain eq_refl) as [_ Hs].
      destruct (IH s1 Hrun) as (k & Htr & Hres & Hrej).
      exists (S k). rewrite Htr, Ht, <- app_assoc, Hs in *. split.
      * f_equal. change (seq 1 (S k)) with (1%nat :: seq 2 k).
        rewrite map_cons. change ([?x] ++ ?l) with (x :: l). f_equal.
        rewrite <- (seq_shift k 1), map_map. apply map_ext. intros i. rewrite Hn.
        f_equal. lia.
      * split; intros Hset; [specialize (Hres Hset)|specialize (Hrej Hset)]; lia.
    + injection Hrun as <-. destruct (Hstop eq_refl) as [_ Hs].
      exists 0%nat. simpl. rewrite Ht, !app_nil_r. repeat split; [lia|].
      rewrite Hs. intros H. apply app_inv_head in H. discriminate.
Qed.

(** Up to round 55 the sum [2^i + 1000] is exact in doubles. *)
Lemma delay_exact (i : Z) :
  1 <= i <= 55 -> delay i = Double.of_Z (2 ^ i + 1000).
Proof.
  intros Hi.
  assert (H : forall n : nat, (n < 55)%nat ->
            delay (Z.of_nat (S n)) = Double.of_Z (2 ^ Z.of_nat (S n) + 1000)).
  { intros n Hn. do 55 (destruct n as [|n]; [vm_compute; reflexivity|]). lia. }
  specialize (H (Z.to_nat (i - 1)) ltac:(lia)).
  by replace (Z.of_nat (S (Z.to_nat (i - 1)))) with i in H by lia.
Qed.

(** For a retry budget of at most 54, the delay armed after round [i] is
    exactly [2^i + 1000] milliseconds: a wait that fails after [n] rounds
    has slept [n] such delays, one that succeeds in round [n] has slept
    [n - 1]. *)
Theorem wait_delays_double (files : list string) r :
  waitForInputs w files max_retries = Some r ->
  0 <= max_retries <= 54 ->
  timers (trace r)
  = map (fun i : nat => Double.of_Z (2 ^ Z.of_nat i + 1000))
        (seq 1 (match promise r with
                | Js.Resolved _ => Z.to_nat (num_retries r) - 1
                | _ => Z.to_nat (num_retries r)
                end)).
Proof.
  intros Hrun Hmax. unfold waitForInputs in Hrun.
  destruct (run_timers _ _ _ Hrun) as (k & Htr & Hres & Hrej).
  destruct (run_outcome w max_retries _ _ _ Hrun) as [Hout _];
    [done | simpl; lia | left; simpl; lia |].
  simpl in *. rewrite Htr. unfold promise.
  assert (Hexact : forall k', (k' <= 55)%nat ->
            map (fun i : nat => delay (Z.of_nat i)) (seq 1 k')
            = map (fun i : nat => Double.of_Z (2 ^ Z.of_nat i + 1000)) (seq 1 k')).
  { intros k' Hk. apply map_ext_in. intros i Hi%in_seq. apply delay_exact. lia. }
  destruct Hout as [(Hs & _ & Hn)|(Hs & _ & Hn)]; rewrite Hs in *.
  - specialize (Hres eq_refl). replace (Z.to_nat (num_retries r) - 1)%nat with k by lia.
    apply Hexact. lia.
  - specialize (Hrej eq_refl). replace (Z.to_nat (num_retries r)) with k by lia.
    apply Hexact. lia.
Qed.

End WaiterMore.

Lemma waiter_reports_only_seen_files_witness :
  exists r,
    Waiter.waitForInputs Cases.world_late_file ["in.dat"] 5 = Some r /\
    Permutation (Waiter.filesReady r ++ Waiter.filesToWatch r) ["in.dat"] /\
    (Waiter.promise r = Js.Resolved tt -> Permutation (Waiter.filesReady r) ["in.dat"]).
Proof.
  destruct (Waiter.waitForInputs Cases.world_late_file ["in.dat"] 5) as [r|] eqn:Hrun;
    [|vm_compute in Hrun; discriminate].
  exists r. split; [reflexivity|].
  destruct (waiter_reports_only_seen_files Cases.world_late_file 5 ["in.dat"] r)
    as (Hperm & _ & Hres); [lia | by repeat constructor | exact Hrun |].
  exact (conj Hperm Hres).
Defined.

Lemma present_inputs_need_one_round_witness :
  (forall i f, In f ["a.dat"] -> existsSync Scenario.world_with_a 0 i f = true) /\
  exists r, Waiter.waitForInputs Scenario.world_with_a ["a.dat"] 10 = Some r /\
    Waiter.promise r = Js.Resolved tt /\ Waiter.filesReady r = ["a.dat"] /\
    Waiter.num_retries r = 1.
Proof.
  assert (H : forall i f, In f ["a.dat"] -> existsSync Scenario.world_with_a 0 i f = true).
  { intros i f [<-|[]]. reflexivity. }
  split; [exact H|].
  destruct (present_inputs_need_one_round Scenario.world_with_a 10 ["a.dat"])
    as (r & Hrun & Hp & Hr & _ & Hn & _); [lia | exact H |].
  exists r. exact (conj Hrun (conj Hp (conj Hr Hn))).
Defined.

Lemma wait_delays_double_witness :
  exists r,
    Waiter.waitForInputs Scenario.world_without_files ["in.dat"] 2 = Some r /\
    timers (Waiter.trace r) = map Double.of_Z [1002; 1004; 1008].
Proof.
  destruct (Waiter.waitForInputs Scenario.world_without_files ["in.dat"] 2) as [r|] eqn:Hrun;
    [|vm_compute in Hrun; discriminate].
  exists r. split; [reflexivity|].
  rewrite (wait_delays_double Scenario.world_without_files 2 ["in.dat"] r Hrun) by lia.
  vm_compute in Hrun. injection Hrun as <-. reflexivity.
Defined.

(** ** The samplers, continued *)

Section MonitorMore.
Import Monitor.

Variable probeInterval : Z.
Variable pid : Z.

Lemma tick_ok_counts k d :
  count is_probe (fst (tick probeInterval pid k (SampleOk d))) = 1%nat /\
  count is_timer (fst (tick probeInterval pid k (SampleOk d))) = 1%nat /\
  snd (tick probeInterval pid k (SampleOk d)) = true.
Proof. by destruct k. Qed.

Lemma tick_err_counts k e :
  count is_probe (fst (tick probeInterval pid k (SampleErr e))) = 1%nat /\
  count is_timer (fst (tick probeInterval pid k (SampleErr e))) = 0%nat /\
  snd (tick probeInterval pid k (SampleErr e)) = false.
Proof. by destruct k, e. Qed.

(** A sampling loop takes one sample per tick up to and including the
    first sample that fails, and none after it: when the first failure is
    sample number [m] of the loop, a window of [ticks] calls shows
    [min ticks (m + 1)] samples and [min ticks m] re-armed timers. *)
Theorem sampler_probes_until_first_error k samples (n m ticks : nat) e :
  (forall i, (i < m)%nat -> exists d, samples (n + i)%nat = SampleOk d) ->
  samples (n + m)%nat = SampleErr e ->
  count is_probe (sampler probeInterval pid k samples n ticks) = Nat.min ticks (S m) /\
  count is_timer (sampler probeInterval pid k samples n ticks) = Nat.min ticks m.
Proof.
  revert n ticks. induction m as [|m IH]; intros n ticks Hok Herr.
  - destruct ticks as [|t]; [done|]. simpl. rewrite Nat.add_0_r in Herr. rewrite Herr.
    destruct (tick_err_counts k e) as (Hp & Ht & Ha).
    destruct (tick probeInterval pid k (SampleErr e)) as [evs again]. simpl in *. subst again.
    rewrite app_nil_r, Hp, Ht. split; lia.
  - destruct ticks as [|t]; [done|]. simpl.
    destruct (Hok 0%nat) as [d Hd]; [lia|]. rewrite Nat.add_0_r in Hd. rewrite Hd.
    destruct (tick_ok_counts k d) as (Hp & Ht & Ha).
    destruct (tick probeInterval pid k (SampleOk d)) as [evs again]. simpl in *. subst again.
    destruct (IH (S n) t) as [Hp' Ht'].
    + intros i Hi. destruct (Hok (S i)) as [d' Hd']; [lia|]. exists d'.
      by rewrite <- Hd', Nat.add_succ_r.
    + by rewrite <- Herr, Nat.add_succ_r.
    + rewrite !count_app, Hp, Ht, Hp', Ht'. split; lia.
Qed.

End MonitorMore.

Lemma sampler_probes_until_first_error_witness :
  let samples := fun i : nat =>
    match i with
    | 2%nat => Monitor.SampleErr Monitor.NotFound
    | _ => Monitor.SampleOk "utime: 3"
    end in
  samples 2%nat = Monitor.SampleErr Monitor.NotFound /\
  count is_probe (Monitor.sampler 2000 7 Usage samples 0 10) = 3%nat /\
  count is_timer (Monitor.sampler 2000 7 Usage samples 0 10) = 2%nat.
Proof.
  intros samples. split; [reflexivity|].
  apply (sampler_probes_until_first_error 2000 7 Usage samples 0 2 10 Monitor.NotFound).
  - intros i Hi. exists "utime: 3". destruct i as [|[|i]]; [reflexivity | reflexivity | lia].
  - reflexivity.
Defined.

(** ** Discovery of the process tree *)

Section DiscoveryFacts.
Import Discovery.

Lemma visit_consistent st p : consistent st -> consistent (visit st p).
Proof.
  intros [Hnd Hseen]. unfold visit. destruct (seen st p) eqn:Hp; [done|].
  assert (Hnew : ~ In p (logged st)) by (rewrite <- Hseen, Hp; discriminate).
  split; simpl.
  - apply List.NoDup_app; [done | repeat constructor; by intros [] |].
    intros a Ha [<-|[]]. done.
  - intros q. unfold seen; simpl. rewrite in_app_iff. simpl.
    destruct (decide (p = q)) as [->|Hne].
    + rewrite lookup_insert_eq. simpl. tauto.
    + rewrite lookup_insert_ne by done. fold (seen st q). rewrite Hseen. tauto.
Qed.

Lemma visit_logged st p q :
  consistent st -> (In q (logged (visit st p)) <-> In q (logged st) \/ q = p).
Proof.
  intros [_ Hseen]. unfold visit. destruct (seen st p) eqn:Hp; simpl.
  - apply Hseen in Hp. split; [by left|]. by intros [?| ->].
  - rewrite in_app_iff. simpl. split; [intros [?|[->|[]]]; auto | intros [?| ->]; auto].
Qed.

Lemma fold_visit st (l : list Z) :
  consistent st ->
  consistent (fold_left visit l st) /\
  forall q, In q (logged (fold_left visit l st)) <-> In q (logged st) \/ In q l.
Proof.
  revert st. induction l as [|p l IH]; intros st Hc; simpl.
  - split; [done|]. intros q. tauto.
  - destruct (IH (visit st p) (visit_consistent st p Hc)) as [Hc' Hin].
    split; [done|]. intros q. rewrite Hin, (visit_logged st p q Hc).
    split; [intros [[?|?]|?]|intros [?|[?|?]]]; auto.
Qed.

Lemma discover_consistent listings n ticks st :
  consistent st -> consistent (discover listings n ticks st).
Proof.
  revert n st. induction ticks as [|t IH]; intros n st Hc; [done|].
  simpl. destruct (listings n) as [pids|]; simpl; [|done].
  apply IH. by apply fold_visit.
Qed.

Lemma init_consistent : consistent init.
Proof.
  split; [constructor|]. intros p. unfold seen, init; simpl.
  rewrite lookup_empty. split; [discriminate | done].
Qed.

(** Discovery hands a pid to [logProcInfo] at most once, however often and
    in however many rounds [pidtree] lists it. *)
Theorem discovery_logs_each_pid_once listings n ticks :
  List.NoDup (logged (discover listings n ticks init)).
Proof. apply discover_consistent, init_consistent. Qed.

End DiscoveryFacts.

(** ** Names of the log files and of the store keys *)

Section NameFacts.
Import LogFiles.

Lemma append_assoc_s (a b c : string) : (a +:+ b) +:+ c = a +:+ (b +:+ c).
Proof.
  induction a as [|x a IH]; [done|].
  change (String x ((a +:+ b) +:+ c) = String x (a +:+ (b +:+ c))). by rewrite IH.
Qed.

Lemma append_length_s (a b : string) :
  String.length (a +:+ b) = (String.length a + String.length b)%nat.
Proof.
  induction a as [|x a IH]; [done|].
  change (S (String.length (a +:+ b)) = S (String.length a + String.length b)).
  by rewrite IH.
Qed.

Lemma append_cancel_l (a b c : string) : a +:+ b = a +:+ c -> b = c.
Proof.
  induction a as [|x a IH]; [done|].
  change (String x (a +:+ b) = String x (a +:+ c) -> b = c).
  intros [= H]. by apply IH.
Qed.

Lemma append_cancel_r (a b c : string) : a +:+ c = b +:+ c -> a = b.
Proof.
  revert b. induction a as [|x a IH]; intros [|y b] H.
  - done.
  - apply (f_equal String.length) in H.
    change (String.length c = S (String.length (b +:+ c))) in H.
    rewrite append_length_s in H. lia.
  - apply (f_equal String.length) in H.
    change (S (String.length (a +:+ c)) = String.length c) in H.
    rewrite append_length_s in H. lia.
  - change (String x (a +:+ c) = String y (b +:+ c)) in H.
    injection H as -> H. f_equal. by apply IH.
Qed.

Lemma occurs_append c (a b : string) : occurs c (a +:+ b) = occurs c a || occurs c b.
Proof.
  induction a as [|x a IH]; [done|].
  change (Ascii.eqb x c || occurs c (a +:+ b) = Ascii.eqb x c || occurs c a || occurs c b).
  rewrite IH. by destruct (Ascii.eqb x c).
Qed.

Lemma replaceColons_no_colon (s : string) : occurs ":" (replaceColons s) = false.
Proof.
  induction s as [|a s IH]; [done|]. simpl.
  destruct (Ascii.eqb a ":") eqn:Ha; simpl; [done|]. by rewrite Ha.
Qed.

(** No colon of the task id reaches a log file name: with a log directory
    and a handler id free of colons, the names of the trace, stdout, stderr
    and nethogs logs contain none. *)
Theorem log_file_names_have_no_colon (dir taskId handlerId : string) :
  occurs ":" dir = false -> occurs ":" handlerId = false ->
  occurs ":" (logfilename dir taskId handlerId) = false /\
  occurs ":" (stdoutfilename dir taskId handlerId) = false /\
  occurs ":" (stderrfilename dir taskId handlerId) = false /\
  occurs ":" (nethogsfilename dir taskId handlerId) = false.
Proof.
  intros Hd Hh.
  assert (Hstem : occurs ":" (stem dir taskId handlerId) = false).
  { unfold stem. by rewrite !occurs_append, Hd, Hh, replaceColons_no_colon. }
  unfold logfilename, stdoutfilename, stderrfilename, nethogsfilename.
  rewrite !occurs_append, Hstem. done.
Qed.

(** The four log files of one run have four different names, and two
    handler ids never share a log file for the same task and directory. *)
Theorem log_file_names_do_not_collide (dir taskId h1 h2 : string) :
  List.NoDup [logfilename dir taskId h1; stdoutfilename dir taskId h1;
              stderrfilename dir taskId h1; nethogsfilename dir taskId h1] /\
  (h1 ≠ h2 ->
   logfilename dir taskId h1 ≠ logfilename dir taskId h2 /\
   stdoutfilename dir taskId h1 ≠ stdoutfilename dir taskId h2 /\
   stderrfilename dir taskId h1 ≠ stderrfilename dir taskId h2).
Proof.
  split.
  - unfold logfilename, stdoutfilename, stderrfilename, nethogsfilename.
    repeat constructor; simpl; intros H;
      repeat (destruct H as [H|H]; [apply append_cancel_l in H; discriminate|]); done.
  - intros Hne.
    assert (Hstem : forall suffix,
      stem dir taskId h1 +:+ suffix = stem dir taskId h2 +:+ suffix -> h1 = h2).
    { intros suffix H. apply append_cancel_r in H. unfold stem in H.
      by do 4 apply append_cancel_l in H. }
    unfold logfilename, stdoutfilename, stderrfilename.
    repeat split; intros H; by apply Hne, (Hstem _ H).
Qed.

End NameFacts.

Lemma log_file_names_have_no_colon_witness :
  LogFiles.occurs ":" "/work_dir/logs-hf" = false /\
  LogFiles.occurs ":" "Xk3-9f_Qa" = false /\
  LogFiles.logfilename "/work_dir/logs-hf" "task:wf1:0" "Xk3-9f_Qa"
    = "/work_dir/logs-hf/task-task__wf1__0@Xk3-9f_Qa.log" /\
  LogFiles.occurs ":" (LogFiles.logfilename "/work_dir/logs-hf" "task:wf1:0" "Xk3-9f_Qa") = false.
Proof.
  split; [reflexivity|]. split; [reflexivity|]. split; [reflexivity|].
  apply (log_file_names_have_no_colon "/work_dir/logs-hf" "task:wf1:0" "Xk3-9f_Qa");
    reflexivity.
Defined.

Lemma log_file_names_do_not_collide_witness :
  "Xk3-9f_Qa" ≠ "b7Yw-21zT" /\
  LogFiles.stdoutfilename "/logs" "task:wf1:0" "Xk3-9f_Qa"
  ≠ LogFiles.stdoutfilename "/logs" "task:wf1:0" "b7Yw-21zT".
Proof.
  assert (Hne : "Xk3-9f_Qa" ≠ "b7Yw-21zT") by discriminate.
  split; [exact Hne|].
  destruct (log_file_names_do_not_collide "/logs" "task:wf1:0" "Xk3-9f_Qa" "b7Yw-21zT")
    as [_ H].
  destruct (H Hne) as (_ & Hout & _). exact Hout.
Defined.

Section KeyFacts.
Import Handler.

Lemma split_no_separator c (a : string) :
  LogFiles.occurs c a = false -> Js.split c a = [a].
Proof.
  induction a as [|x a IH]; [done|]. simpl.
  intros H. apply orb_false_iff in H as [Hx Ha]. rewrite Hx, (IH Ha). done.
Qed.

Lemma split_at_separator c (a b : string) :
  LogFiles.occurs c a = false -> Js.split c (a +:+ String c b) = a :: Js.split c b.
Proof.
  induction a as [|x a IH]; intros H.
  - change (Js.split c (String c b) = "" :: Js.split c b). simpl.
    by rewrite Ascii.eqb_refl.
  - simpl in H. apply orb_false_iff in H as [Hx Ha].
    change (Js.split c (String x (a +:+ String c b)) = String x a :: Js.split c b).
    simpl. rewrite Hx, (IH Ha). done.
Qed.

(** The completion set consulted for a task is named after the second
    colon-separated segment of the task id, whatever follows it; a task id
    without any colon is looked up in the set of the workflow
    [undefined]. *)
Theorem completion_key_uses_second_segment (prefix wf rest : string) :
  LogFiles.occurs ":" prefix = false -> LogFiles.occurs ":" wf = false ->
  completedTasksKey (prefix +:+ ":" +:+ wf) = "wf:" +:+ wf +:+ ":completedTasks" /\
  completedTasksKey (prefix +:+ ":" +:+ wf +:+ ":" +:+ rest)
    = "wf:" +:+ wf +:+ ":completedTasks" /\
  completedTasksKey prefix = "wf:undefined:completedTasks".
Proof.
  intros Hp Hw. unfold completedTasksKey, wfId.
  change (prefix +:+ ":" +:+ wf) with (prefix +:+ String ":" wf).
  change (prefix +:+ ":" +:+ wf +:+ ":" +:+ rest) with (prefix +:+ String ":" (wf +:+ String ":" rest)).
  rewrite !(split_at_separator ":" prefix) by done.
  rewrite (split_at_separator ":" wf rest Hw), (split_no_separator ":" wf Hw),
    (split_no_separator ":" prefix Hp).
  done.
Qed.

End KeyFacts.

Lemma completion_key_uses_second_segment_witness :
  LogFiles.occurs ":" "task" = false /\ LogFiles.occurs ":" "wf1" = false /\
  Handler.completedTasksKey "task:wf1:0" = "wf:wf1:completedTasks" /\
  Handler.completedTasksKey "task" = "wf:undefined:completedTasks".
Proof.
  split; [reflexivity|]. split; [reflexivity|].
  destruct (completion_key_uses_second_segment "task" "wf1" "0" eq_refl eq_refl)
    as (_ & Hfull & Hnone).
  exact (conj Hfull Hnone).
Defined.

(** ** Repeated deliveries *)

Section Redelivery.
Import Handler.

Variable env : Env.
Variable w : World.
Variable taskId : string.

Lemma handleJob_counters (d : Redis.Store) s p :
  handleJob env w taskId d = Some (s, p) ->
  fault w (Incr (acqCountKey taskId)) = None ->
  Redis.counters (db s) !! acqCountKey taskId
  = Some (default 0 (Redis.counters d !! acqCountKey taskId) + 1).
Proof.
  intros Hrun Hincr. pose proof (handleJob_cases env w taskId d s p Hrun) as H. cbv zeta in H.
  rewrite Hincr in H.
  destruct H as (st & Hc & _ & _ & _ & _ & _ & _ & _ & _ & _ & H).
  assert (Hs : Redis.counters (db s) = Redis.counters (db st)).
  { destruct (fault w (Sismember _ _)) as [e|]; [by destruct H as [_ ->]|].
    destruct (Redis.sismember _ _ _); [by destruct H as (_ & -> & _)|].
    by apply retrieveAndRun_counters in H. }
  by rewrite Hs, Hc, lookup_insert_eq.
Qed.

(** A run that finds the counter already positive logs the warning with
    the number of earlier acquisitions. *)
Lemma handleJob_warning (d : Redis.Store) s p :
  handleJob env w taskId d = Some (s, p) ->
  fault w (Incr (acqCountKey taskId)) = None ->
  0 < default 0 (Redis.counters d !! acqCountKey taskId) ->
  In (EvLog Warn (MAcquiredBefore (default 0 (Redis.counters d !! acqCountKey taskId))))
     (trace s).
Proof.
  intros Hrun Hincr Hpos. unfold handleJob in Hrun.
  pose proof (addToAllJobs_counters env w taskId
                (mkState d (Js.or_default (HF_VAR_NUMBER_OF_RETRIES env) 1) [] [])) as Hcnt.
  simpl in Hcnt.
  set (s0 := addToAllJobs env w taskId _) in *.
  unfold acquireTask in Hrun. rewrite Hincr in Hrun. simpl in Hrun. rewrite Hcnt in Hrun.
  unfold hasCompleted, warnIfAcquired in Hrun.
  destruct (Z.ltb_spec 1 (default 0 (Redis.counters d !! acqCountKey taskId) + 1)) as [_|?];
    [|lia].
  replace (default 0 (Redis.counters d !! acqCountKey taskId) + 1 - 1)
    with (default 0 (Redis.counters d !! acqCountKey taskId)) in Hrun by lia.
  destruct (fault w (Sismember _ _)) as [e|]; simpl in Hrun.
  { injection Hrun as <- <-. simpl. rewrite !in_app_iff. simpl. tauto. }
  match type of Hrun with context [Redis.sismember ?k ?x ?dd] =>
    destruct (Redis.sismember k x dd) end.
  { injection Hrun as <- <-. simpl. rewrite !in_app_iff. simpl. tauto. }
  match type of Hrun with retrieveAndRun env w taskId ?st = _ =>
    destruct (retrieveAndRun_effects env w taskId st) as (s' & p' & evs & Hrun' & Htr & _)
  end.
  rewrite Hrun in Hrun'. injection Hrun' as <- <-.
  rewrite Htr. simpl. rewrite !in_app_iff. simpl. tauto.
Qed.

(** Delivering a task twice: the second run, started on the store the first
    run left, logs that the task was already acquired, with the count the
    first run wrote. *)
Theorem second_delivery_is_warned (d : Redis.Store) s1 p1 s2 p2 :
  fault w (Incr (acqCountKey taskId)) = None ->
  0 <= default 0 (Redis.counters d !! acqCountKey taskId) ->
  handleJob env w taskId d = Some (s1, p1) ->
  handleJob env w taskId (db s1) = Some (s2, p2) ->
  In (EvLog Warn (MAcquiredBefore (default 0 (Redis.counters d !! acqCountKey taskId) + 1)))
     (trace s2).
Proof.
  intros Hincr Hpos Hrun1 Hrun2.
  pose proof (handleJob_counters d s1 p1 Hrun1 Hincr) as Hc.
  pose proof (handleJob_warning (db s1) s2 p2 Hrun2 Hincr) as Hw.
  rewrite Hc in Hw. simpl in Hw. apply Hw. lia.
Qed.

End Redelivery.

Lemma second_delivery_is_warned_witness :
  let env := Scenario.env_retries None in
  let w := Scenario.world_exiting 0 in
  exists s1 p1 s2 p2,
    Handler.handleJob env w Scenario.task Scenario.store_one = Some (s1, p1) /\
    Handler.handleJob env w Scenario.task (Handler.db s1) = Some (s2, p2) /\
    In (EvLog Warn (MAcquiredBefore 1)) (Handler.trace s2).
Proof.
  intros env w.
  destruct (Handler.handleJob env w Scenario.task Scenario.store_one) as [[s1 p1]|] eqn:H1;
    [|vm_compute in H1; discriminate].
  destruct (handleJob_effects env w Scenario.task (Handler.db s1)) as (s2 & p2 & _ & H2 & _).
  exists s1, p1, s2, p2. split; [reflexivity|]. split; [exact H2|].
  exact (second_delivery_is_warned env w Scenario.task Scenario.store_one s1 p1 s2 p2
           eq_refl ltac:(vm_compute; discriminate) H1 H2).
Defined.

(** ** Output redirection *)

Section Redirection.
Import Handler.

Variable env : Env.
Variable w : World.
Variable taskId : string.

Lemma redirect_truncating (f : string) (appending : option string) :
  Js.truthy f = true ->
  redirect (Some f) appending = [EvCreateWriteStream f "w"].
Proof. intros Hf. unfold redirect, or_else, is_set. by rewrite !Hf. Qed.

Lemma redirect_appending (t : option string) (f : string) :
  is_set t = false -> Js.truthy f = true ->
  redirect t (Some f) = [EvCreateWriteStream f "a"].
Proof.
  intros Ht Hf. unfold redirect, or_else.
  destruct t as [x|]; simpl in Ht; rewrite ?Ht, Hf; simpl; rewrite ?Ht; done.
Qed.

Lemma count_opens_self (path flags : string) :
  count (opens path flags) [EvCreateWriteStream path flags] = 1%nat.
Proof. rewrite count_cons, count_nil. simpl. by rewrite !String.eqb_refl. Qed.

(** Whatever the attempt opens for the child's output is opened again by
    every later attempt. *)
Lemma executeJob_opens (q : Event -> bool) fuel jm attempt s s' p :
  (1 <= count q (redirect (stdout jm) (stdoutAppend jm)
                 ++ redirect (stderr jm) (stderrAppend jm)))%nat ->
  executeJob env w taskId fuel jm attempt s = Some (s', p) ->
  exists evs, trace s' = trace s ++ evs /\
    (count is_spawn evs <= count q evs)%nat.
Proof.
  intros Hq. rewrite count_app in Hq.
  revert attempt s s' p. induction fuel as [|fuel IH]; intros attempt s s' p Hrun; [done|].
  simpl in Hrun. destruct (exit_code w attempt) as [code|].
  2:{ injection Hrun as <- <-. eexists. split; [simpl; reflexivity|].
      tally. lia. }
  destruct (negb (code =? 0)%Z && (0 <? numRetries s - 1)%Z) eqn:Hretry.
  - match type of Hrun with context [executeJob _ _ _ fuel jm ?a ?st] =>
      destruct (executeJob env w taskId fuel jm a st) as [[s2 p2]|] eqn:Hrec; [|done];
      destruct (IH _ _ _ _ Hrec) as (evs & Htr & Hn)
    end.
    injection Hrun as <- <-. simpl in Htr.
    eexists. split; [rewrite Htr, <- !app_assoc; reflexivity|].
    tally. lia.
  - destruct (notify w taskId code) as [err|].
    + injection Hrun as <- <-. eexists. split; [simpl; rewrite <- !app_assoc; reflexivity|].
      tally. lia.
    + destruct (inputs jm) as [ins|], (outputs jm) as [outs|];
        injection Hrun as <- <-.
      2-4: eexists; (split; [simpl; rewrite <- !app_assoc; reflexivity|]);
           tally; lia.
      match goal with |- context [removeFromAllJobs env w taskId ?st] =>
        destruct (removeFromAllJobs_trace env w taskId st) as (tail & Htr & Htail & Hn) end.
      eexists. split; [simpl; rewrite Htr; simpl; rewrite <- !app_assoc; reflexivity|].
      destruct Htail as [->|[e ->]]; tally; lia.
Qed.

(** The redirect of the child's standard output is opened afresh by every
    attempt: a file named by [stdout] is truncated at least once per spawn,
    so a retry discards what the failed attempt wrote; a file named only by
    [stdoutAppend] is opened for appending at least once per spawn. *)
Theorem stdout_redirect_reopened_each_attempt (f : string) fuel jm attempt s s' p :
  Js.truthy f = true ->
  executeJob env w taskId fuel jm attempt s = Some (s', p) ->
  exists evs, trace s' = trace s ++ evs /\
    (stdout jm = Some f ->
     (count is_spawn evs <= count (opens f "w") evs)%nat) /\
    (is_set (stdout jm) = false -> stdoutAppend jm = Some f ->
     (count is_spawn evs <= count (opens f "a") evs)%nat).
Proof.
  intros Hf Hrun.
  destruct (executeJob_effects env w taskId _ _ _ _ _ _ Hrun) as (evs & Htr & _).
  exists evs. split; [exact Htr|]. split.
  - intros Hout.
    destruct (executeJob_opens (opens f "w") fuel jm attempt s s' p) as (evs' & Htr' & H);
      [|exact Hrun|].
    + rewrite Hout, redirect_truncating, count_app, count_opens_self by done. lia.
    + rewrite Htr in Htr'. apply app_inv_head in Htr'. by subst evs'.
  - intros Hout Happ.
    destruct (executeJob_opens (opens f "a") fuel jm attempt s s' p) as (evs' & Htr' & H);
      [|exact Hrun|].
    + rewrite Happ, redirect_appending, count_app, count_opens_self by done. lia.
    + rewrite Htr in Htr'. apply app_inv_head in Htr'. by subst evs'.
Qed.

End Redirection.

Lemma stdout_redirect_reopened_each_attempt_witness :
  exists s' p evs,
    Handler.executeJob (Scenario.env_retries None) (Scenario.world_exiting 1) Scenario.task
      3 Cases.job_redirected 1 (Cases.start Scenario.store_one 2) = Some (s', p) /\
    Handler.trace s' = Handler.trace (Cases.start Scenario.store_one 2) ++ evs /\
    count is_spawn evs = 2%nat /\
    (count is_spawn evs <= count (opens "out.txt" "w") evs)%nat.
Proof.
  destruct (Handler.executeJob (Scenario.env_retries None) (Scenario.world_exiting 1)
              Scenario.task 3 Cases.job_redirected 1 (Cases.start Scenario.store_one 2))
    as [[s' p]|] eqn:Hrun; [|vm_compute in Hrun; discriminate].
  destruct (stdout_redirect_reopened_each_attempt (Scenario.env_retries None)
              (Scenario.world_exiting 1) Scenario.task "out.txt" _ _ _ _ _ _ eq_refl Hrun)
    as (evs & Htr & Hw & _).
  exists s', p, evs. split; [reflexivity|]. split; [exact Htr|]. split.
  - vm_compute in Hrun. injection Hrun as <- _. simpl in Htr.
    apply (app_inv_head []) in Htr. rewrite <- Htr. reflexivity.
  - exact (Hw eq_refl).
Defined.
